(** * Document-Compliance-Auditor: retrieval, embedding, chunking and cache core

    A shallow embedding of the Python modules [cache_manager.py],
    [embeddings.py], [document_processor.py] and [retrieval.py], and the
    properties of them that the specification states.

    Conventions of the embedding:
    - a Python [int] is a [Z], list positions and lengths are [nat];
    - a Python [float] that the code only stores, passes on or compares
      (an embedding entry, a similarity score) is an exact rational [Q];
      the floats the rank fusion computes with are IEEE 754 binary64
      numbers, the kernel's [PrimFloat.float], rounded as the machine
      rounds them;
    - a [str] is a [string], read as a sequence of code points below 256;
    - a [dict] whose iteration order matters is an association list with
      unique keys in insertion order; a [dict] that is only read by key is
      a [gmap];
    - a method that mutates [self] and may raise is a function
      [self -> self * result A]: the state component is the object after
      the call, also when the call raised. *)

From Stdlib Require Import ZArith QArith Lia List Ascii String Permutation Sorted.
From Stdlib Require Import Floats.
From stdpp Require Import gmap strings list.

Local Open Scope string_scope.
Local Open Scope list_scope.
Local Open Scope Z_scope.

(** ** Python runtime fragments *)

Module Py.

Inductive exn : Type :=
| StopIteration
| KeyError
| IndexError
| ValueError
| ProviderError.

Inductive result (A : Type) : Type :=
| Ok (a : A)
| Raise (e : exn).
Arguments Ok {A} a.
Arguments Raise {A} e.

(** [M S A]: a method body over an object of type [S]. *)
Definition M (S A : Type) : Type := S -> S * result A.

Definition ret {S A} (a : A) : M S A := fun s => (s, Ok a).
Definition raise {S A} (e : exn) : M S A := fun s => (s, Raise e).
Definition bind {S A B} (m : M S A) (f : A -> M S B) : M S B :=
  fun s => match m s with
           | (s', Ok a) => f a s'
           | (s', Raise e) => (s', Raise e)
           end.
Definition get_self {S} : M S S := fun s => (s, Ok s).
Definition put_self {S} (s : S) : M S unit := fun _ => (s, Ok tt).

Definition try_except {S A} (m : M S A) (handler : exn -> M S A) : M S A :=
  fun s => match m s with
           | (s', Ok a) => (s', Ok a)
           | (s', Raise e) => handler e s'
           end.

(** A slice bound brought into [0, length]: a negative bound counts
    from the end of the list. *)
Definition clamp_index (len : nat) (i : Z) : nat :=
  if i <? 0 then Z.to_nat (Z.of_nat len + i)
  else Nat.min (Z.to_nat i) len.

(** [l[i:j]] *)
Definition slice {A} (i j : Z) (l : list A) : list A :=
  let lo := clamp_index (length l) i in
  let hi := clamp_index (length l) j in
  firstn (hi - lo) (skipn lo l).

(** [l[:k]] *)
Definition slice_to {A} (k : Z) (l : list A) : list A := slice 0 k l.

(** [range(start, stop, step)]: [None] stands for the [ValueError] of a
    zero step. *)
Definition range (start stop step : Z) : option (list Z) :=
  if step =? 0 then None
  else
    let n := if 0 <? step then (stop - start + step - 1) / step
             else (start - stop - step - 1) / (- step) in
    Some (map (fun j => start + Z.of_nat j * step) (seq 0 (Z.to_nat n))).

(** [enumerate(l, start=n)] *)
Definition enumerate_from {A} (n : nat) (l : list A) : list (nat * A) :=
  combine (seq n (length l)) l.

(** [enumerate(l)] *)
Definition enumerate {A} (l : list A) : list (nat * A) :=
  enumerate_from 0 l.

(** [str.isspace] on one code point below 256. *)
Definition is_space (a : ascii) : bool :=
  let n := nat_of_ascii a in
  ((9 <=? n) && (n <=? 13) || (28 <=? n) && (n <=? 32)
   || (n =? 133) || (n =? 160))%nat.

Fixpoint lstrip (s : string) : string :=
  match s with
  | EmptyString => EmptyString
  | String a s' => if is_space a then lstrip s' else s
  end.

(** Drops trailing white space: a suffix is kept from its last
    character that is not white space. *)
Fixpoint rstrip (s : string) : string :=
  match s with
  | EmptyString => EmptyString
  | String a s' =>
      match rstrip s' with
      | EmptyString => if is_space a then EmptyString else String a EmptyString
      | r => String a r
      end
  end.

Definition strip (s : string) : string := rstrip (lstrip s).

(** Every character of the string is white space; true of the empty
    string. *)
Definition whitespace_only (s : string) : Prop :=
  Forall (fun a => is_space a = true) (list_ascii_of_string s).

(** Truth value of a [str]: false exactly for the empty string. *)
Definition truthy (s : string) : bool :=
  match s with EmptyString => false | _ => true end.

(** ** Insertion-ordered dictionaries *)

Section Dict.
Context {K V : Type} `{EqDecision K}.

Definition dict : Type := list (K * V).

Fixpoint dict_get (k : K) (d : dict) : option V :=
  match d with
  | [] => None
  | (k', v) :: d' => if decide (k = k') then Some v else dict_get k d'
  end.

(** [d[k] = v]: an existing key keeps its position, a new key goes
    last. *)
Fixpoint dict_setitem (k : K) (v : V) (d : dict) : dict :=
  match d with
  | [] => [(k, v)]
  | (k', v') :: d' =>
      if decide (k = k') then (k, v) :: d'
      else (k', v') :: dict_setitem k v d'
  end.

(** [next(iter(d))]: [None] stands for [StopIteration]. *)
Definition dict_first_key (d : dict) : option K :=
  match d with
  | [] => None
  | (k, _) :: _ => Some k
  end.

(** [del d[k]]: [None] stands for [KeyError]. *)
Fixpoint dict_delitem (k : K) (d : dict) : option dict :=
  match d with
  | [] => None
  | (k', v) :: d' =>
      if decide (k = k') then Some d'
      else option_map (cons (k', v)) (dict_delitem k d')
  end.

Definition dict_len (d : dict) : Z := Z.of_nat (length d).

Definition dict_keys (d : dict) : list K := map fst d.

(** [list(d.items())] *)
Definition dict_items (d : dict) : list (K * V) := d.

(** *** Bounded stores, for the statements about the cache

    One bounded store into a dictionary, as the cache setters do it:
    when the bound is reached the oldest entry is deleted first. [None]:
    there was no entry to delete. *)
Definition fifo_set (bound : Z) (k : K) (v : V) (d : dict) : option dict :=
  if dict_len d >=? bound then
    match d with
    | [] => None
    | _ :: d' => Some (dict_setitem k v d')
    end
  else Some (dict_setitem k v d).

(** A sequence of bounded stores; one that finds nothing to delete
    leaves the dictionary as it is. *)
Definition fifo_run (bound : Z) (es : list (K * V)) (d : dict) : dict :=
  fold_left (fun d e => default d (fifo_set bound (fst e) (snd e) d)) es d.
End Dict.
Arguments dict K V : clear implicits.

End Py.

Import Py.

Notation "'let*' x ':=' m 'in' f" := (bind m (fun x => f))
  (at level 10, x name, m at level 100, f at level 200, only parsing).

(** ** Data model *)

(** A Python [float] that is stored, passed on or compared, as an exact
    rational. *)
Abbreviation float := Q.

(** A Python [float] that is computed with: IEEE 754 binary64. *)
Abbreviation binary64 := PrimFloat.float.

(** An embedding vector. *)
Definition Vec : Type := list float.

(** Metadata values: the scalars the chunker generates. *)
Inductive MetaValue : Type :=
| VStr (s : string)
| VInt (n : Z).

Global Instance MetaValue_eq_dec : EqDecision MetaValue.
Proof. solve_decision. Defined.

Global Instance MetaValue_countable : Countable MetaValue.
Proof.
  refine (inj_countable'
            (fun v => match v with VStr s => inl s | VInt n => inr n end)
            (fun x => match x with inl s => VStr s | inr n => VInt n end) _).
  intros []; reflexivity.
Defined.

(** [langchain_core.documents.Document] *)
Record Document : Type := mkDocument {
  page_content : string;
  metadata : gmap string MetaValue
}.

(** A [Document] object on the heap: [obj_id] is its identity, [id(doc)]. *)
Record DocObj : Type := mkDocObj {
  obj_id : nat;
  obj_doc : Document
}.

(** A [str] that is empty or white space only:
    [not text or not text.strip()]. *)
Definition blank (text : string) : bool :=
  negb (truthy text) || negb (truthy (strip text)).

(** Truth value of an optional [dict] argument: [None] and the empty
    mapping are false. *)
Definition dict_truthy {V} (d : option (gmap string V)) : bool :=
  match d with
  | None => false
  | Some m => negb (bool_decide (m = ∅))
  end.

(** ** cache_manager.py *)

Module CacheManager.

Record t : Type := mk {
  max_size : Z;
  _embedding_cache : dict string Vec;
  _search_cache : dict string (list Document);
  _regulation_cache : dict string string
}.

Definition with_embedding_cache (c : dict string Vec) (self : t) : t :=
  mk (max_size self) c (_search_cache self) (_regulation_cache self).
Definition with_search_cache (c : dict string (list Document)) (self : t) : t :=
  mk (max_size self) (_embedding_cache self) c (_regulation_cache self).
Definition with_regulation_cache (c : dict string string) (self : t) : t :=
  mk (max_size self) (_embedding_cache self) (_search_cache self) c.

(** [CacheManager(max_size)] *)
Definition __init__ (max_size : Z) : t := mk max_size [] [] [].

Section WithHash.
(** [hashlib.md5(text.encode()).hexdigest()], a library call. *)
Variable md5_hexdigest : string -> string.

Definition _generate_key (text : string) : string := md5_hexdigest text.

Definition get_embedding (self : t) (text : string) : option Vec :=
  let key := _generate_key text in
  dict_get key (_embedding_cache self).

Definition set_embedding (text : string) (embedding : Vec) : M t unit :=
  let* self := get_self in
  let* _ :=
    if dict_len (_embedding_cache self) >=? max_size self then
     match dict_first_key (_embedding_cache self) with
     | None => raise StopIteration
     | Some first_key =>
         match dict_delitem first_key (_embedding_cache self) with
         | None => raise KeyError
         | Some c => put_self (with_embedding_cache c self)
         end
     end
    else ret tt in
  let* self := get_self in
  let key := _generate_key text in
  put_self (with_embedding_cache
              (dict_setitem key embedding (_embedding_cache self)) self).

Definition get_search_result (self : t) (query : string)
  : option (list Document) :=
  let key := _generate_key query in
  dict_get key (_search_cache self).

Definition set_search_result (query : string) (results : list Document)
  : M t unit :=
  let* self := get_self in
  let* _ :=
    if dict_len (_search_cache self) >=? max_size self then
     match dict_first_key (_search_cache self) with
     | None => raise StopIteration
     | Some first_key =>
         match dict_delitem first_key (_search_cache self) with
         | None => raise KeyError
         | Some c => put_self (with_search_cache c self)
         end
     end
    else ret tt in
  let* self := get_self in
  let key := _generate_key query in
  put_self (with_search_cache
              (dict_setitem key results (_search_cache self)) self).

(** A call of one of the two setters. *)
Inductive set_op : Type :=
| SetEmbedding (text : string) (embedding : Vec)
| SetSearchResult (query : string) (results : list Document).

Definition do_set (op : set_op) : M t unit :=
  match op with
  | SetEmbedding text e => set_embedding text e
  | SetSearchResult q r => set_search_result q r
  end.

(** The manager after a sequence of setter calls, each run to its end
    (a call that raises leaves the object as it is at the raise). *)
Definition run_sets (ops : list set_op) (self : t) : t :=
  fold_left (fun s op => fst (do_set op s)) ops self.

(** *** Runs of setter calls, for the statements

    The setter calls that store the entries [es], in order, in the
    embedding namespace and in the search namespace. *)
Definition embedding_sets (es : list (string * Vec)) : list set_op :=
  map (fun e => SetEmbedding (fst e) (snd e)) es.
Definition search_sets (es : list (string * list Document)) : list set_op :=
  map (fun e => SetSearchResult (fst e) (snd e)) es.

(** The entries under their cache keys. *)
Definition keyed {V} (es : list (string * V)) : list (string * V) :=
  map (fun e => (_generate_key (fst e), snd e)) es.

(** The outcomes of the calls, in order. *)
Fixpoint outcomes (ops : list set_op) (self : t) : list (result unit) :=
  match ops with
  | [] => []
  | op :: ops' =>
      let '(s', r) := do_set op self in r :: outcomes ops' s'
  end.
End WithHash.

(** Every namespace is within the bound. *)
Definition bounded (self : t) : Prop :=
  dict_len (_embedding_cache self) <= max_size self
  /\ dict_len (_search_cache self) <= max_size self
  /\ dict_len (_regulation_cache self) <= max_size self.

Definition clear_cache (cache_type : option string) : M t unit :=
  let* self := get_self in
  if decide (cache_type = Some "embedding") then
    put_self (with_embedding_cache [] self)
  else if decide (cache_type = Some "search") then
    put_self (with_search_cache [] self)
  else if decide (cache_type = Some "regulation") then
    put_self (with_regulation_cache [] self)
  else
    let* _ := put_self (with_embedding_cache [] self) in
    let* self := get_self in
    let* _ := put_self (with_search_cache [] self) in
    let* self := get_self in
    put_self (with_regulation_cache [] self).

(** [get_cache_stats]: the three sizes and the bound. *)
Definition get_cache_stats (self : t) : Z * Z * Z * Z :=
  (dict_len (_embedding_cache self), dict_len (_search_cache self),
   dict_len (_regulation_cache self), max_size self).

End CacheManager.

(** ** embeddings.py *)

Module EmbeddingGenerator.

(** A request sent to the external embedding provider. *)
Inductive provider_call : Type :=
| EmbedQuery (text : string)
| EmbedDocuments (texts : list string).

(** The generator: its in-memory cache, and the requests it has sent to
    the provider so far (oldest first). *)
Record t : Type := mk {
  _embedding_cache : gmap string Vec;
  provider_calls : list provider_call
}.

(** [[0.0] * 768] *)
Definition zero_vector : Vec := repeat 0%Q 768.

Definition cache_store (text : string) (embedding : Vec) : M t unit :=
  fun self =>
    (mk (<[text := embedding]> (_embedding_cache self)) (provider_calls self),
     Ok tt).

(** [text in self._embedding_cache], guarded by [use_cache]; the value
    found is [self._embedding_cache[text]]. *)
Definition cache_hit (use_cache : bool) (cache : gmap string Vec)
    (text : string) : option Vec :=
  if use_cache then cache !! text else None.

(** *** Sub-batches, for the statements

    The texts of a sub-batch that are not served from the cache. *)
Definition uncached_of (use_cache : bool) (cache : gmap string Vec)
    (batch : list string) : list string :=
  filter (fun t => cache_hit use_cache cache t = None) batch.

(** The vector the slot [idx] of a sub-batch is rebuilt to, for the text
    [t] at that position: the cached vector, or else the entry of
    [batch_embeddings] at the rank of the text among the texts not
    cached. *)
Definition expected_slot (use_cache : bool) (cache : gmap string Vec)
    (batch : list string) (batch_embeddings : list Vec)
    (idx : nat) (t : string) : option Vec :=
  match cache_hit use_cache cache t with
  | Some v => Some v
  | None =>
      batch_embeddings !! length (uncached_of use_cache cache (take idx batch))
  end.

(** The start indices the loop over sub-batches runs through:
    [range(0, len(texts), batch_size)], empty when that raises. *)
Definition batch_starts (n : nat) (batch_size : Z) : list Z :=
  default [] (range 0 (Z.of_nat n) batch_size).

(** The sub-batch number [J]: [texts[i:i + batch_size]] at
    [i = J * batch_size]. *)
Definition sub_batch (texts : list string) (batch_size : Z) (J : nat)
  : list string :=
  slice (Z.of_nat J * batch_size) (Z.of_nat J * batch_size + batch_size) texts.

Section WithProvider.
(** The provider's answers, which may depend on the requests sent
    before; [None] is a provider-level error. *)
Variable embed_query : list provider_call -> string -> option Vec.
Variable embed_documents :
  list provider_call -> list string -> option (list Vec).

Definition call_embed_query (text : string) : M t Vec :=
  fun self =>
    let self' := mk (_embedding_cache self)
                    (provider_calls self ++ [EmbedQuery text]) in
    match embed_query (provider_calls self) text with
    | Some v => (self', Ok v)
    | None => (self', Raise ProviderError)
    end.

Definition call_embed_documents (texts : list string) : M t (list Vec) :=
  fun self =>
    let self' := mk (_embedding_cache self)
                    (provider_calls self ++ [EmbedDocuments texts]) in
    match embed_documents (provider_calls self) texts with
    | Some vs => (self', Ok vs)
    | None => (self', Raise ProviderError)
    end.

Definition generate_embedding (text : string) (use_cache : bool)
  : M t Vec :=
  if blank text then
    ret zero_vector
  else
    let* self := get_self in
    match cache_hit use_cache (_embedding_cache self) text with
    | Some v => ret v
    | None =>
        try_except
          (let* embedding := call_embed_query text in
           let* _ := if use_cache then cache_store text embedding
                     else ret tt in
           ret embedding)
          (fun _ => ret zero_vector)
    end.

(** The first loop over a sub-batch: the vectors found in the cache,
    the texts not found, and the positions of the latter. *)
Definition split_step (use_cache : bool) (cache : gmap string Vec)
    (acc : list Vec * list string * list nat) (it : nat * string)
  : list Vec * list string * list nat :=
  let '(cached, uncached, uncached_indices) := acc in
  let '(idx, text) := it in
  match cache_hit use_cache cache text with
  | Some v => (cached ++ [v], uncached, uncached_indices)
  | None => (cached, uncached ++ [text], uncached_indices ++ [idx])
  end.

Definition split_batch (use_cache : bool) (cache : gmap string Vec)
    (batch : list string) : list Vec * list string * list nat :=
  fold_left (split_step use_cache cache) (enumerate batch) ([], [], []).

(** [for text, embedding in zip(uncached, batch_embeddings):
       self._embedding_cache[text] = embedding] *)
Definition cache_fill (uncached : list string) (batch_embeddings : list Vec)
  : M t unit :=
  fun self =>
    (mk (fold_left (fun c '(text, embedding) => <[text := embedding]> c)
                   (combine uncached batch_embeddings)
                   (_embedding_cache self))
        (provider_calls self),
     Ok tt).

(** The loop that rebuilds the sub-batch's results; the accumulator is
    [(batch_results, cache_idx, embed_idx)]. *)
Fixpoint reconstruct (idxs : list nat) (uncached_indices : list nat)
    (cached batch_embeddings : list Vec)
    (acc : list (option Vec) * nat * nat)
  : result (list (option Vec)) :=
  match idxs with
  | [] => Ok (fst (fst acc))
  | idx :: idxs' =>
      let '(batch_results, cache_idx, embed_idx) := acc in
      if bool_decide (idx ∈ uncached_indices) then
        match batch_embeddings !! embed_idx with
        | None => Raise IndexError
        | Some v =>
            reconstruct idxs' uncached_indices cached batch_embeddings
              (<[idx := Some v]> batch_results, cache_idx, S embed_idx)
        end
      else
        match cached !! cache_idx with
        | None => Raise IndexError
        | Some v =>
            reconstruct idxs' uncached_indices cached batch_embeddings
              (<[idx := Some v]> batch_results, S cache_idx, embed_idx)
        end
  end.

(** The body of the loop over sub-batches, for the sub-batch [batch]. *)
Definition batch_body (batch : list string) (use_cache : bool)
  : M t (list (option Vec)) :=
  let* self := get_self in
  let '(cached, uncached, uncached_indices) :=
    split_batch use_cache (_embedding_cache self) batch in
  let* batch_embeddings :=
    match uncached with
    | [] => ret []
    | _ :: _ =>
        try_except
          (let* batch_embeddings := call_embed_documents uncached in
           let* _ := if use_cache
                     then cache_fill uncached batch_embeddings
                     else ret tt in
           ret batch_embeddings)
          (fun _ => ret (repeat zero_vector (length uncached)))
    end in
  match reconstruct (seq 0 (length batch)) uncached_indices cached
                    batch_embeddings
                    (repeat None (length batch), 0%nat, 0%nat) with
  | Ok batch_results => ret batch_results
  | Raise e => raise e
  end.

Fixpoint batch_loop (starts : list Z) (texts : list string)
    (use_cache : bool) (batch_size : Z) (results : list (option Vec))
  : M t (list (option Vec)) :=
  match starts with
  | [] => ret results
  | i :: starts' =>
      let batch := slice i (i + batch_size) texts in
      let* batch_results := batch_body batch use_cache in
      batch_loop starts' texts use_cache batch_size
                 (results ++ batch_results)
  end.

(** The result list holds [Some v] for a vector [v]; [None] is Python's
    [None], the initial content of a slot of [batch_results]. *)
Definition generate_embeddings_batch (texts : list string)
    (use_cache : bool) (batch_size : Z) : M t (list (option Vec)) :=
  match range 0 (Z.of_nat (length texts)) batch_size with
  | None => raise ValueError
  | Some starts => batch_loop starts texts use_cache batch_size []
  end.

(** The generator when the loop reaches the sub-batch number [J]: the
    state after the loop has run over the first [J] sub-batches. *)
Definition state_at_batch (texts : list string) (use_cache : bool)
    (batch_size : Z) (self : t) (J : nat) : t :=
  fst (batch_loop (take J (batch_starts (length texts) batch_size))
         texts use_cache batch_size [] self).

(** What the slot of the text [t], at position [idx] of the sub-batch
    [batch], holds when the sub-batch was processed from the state
    [before]; [slot] is the lookup of that position in the vectors
    returned. A text found in the cache gets the cached vector. A text not
    found is the [j]-th text sent to the provider, [j] being the number of
    texts not found before it in the sub-batch; it gets the zero vector
    when the provider's call fails and the [j]-th vector of the answer
    otherwise. *)
Definition slot_spec (use_cache : bool) (before : t) (batch : list string)
    (idx : nat) (t : string) (slot : option Vec) : Prop :=
  let cache := _embedding_cache before in
  match cache_hit use_cache cache t with
  | Some v => slot = Some v
  | None =>
      let uncached := uncached_of use_cache cache batch in
      let j := length (uncached_of use_cache cache (take idx batch)) in
      uncached !! j = Some t
      /\ match embed_documents (provider_calls before) uncached with
         | None => slot = Some zero_vector
         | Some answer => is_Some slot /\ slot = answer !! j
         end
  end.
End WithProvider.

End EmbeddingGenerator.

(** ** document_processor.py *)

Module DocumentProcessor.

(** *** Supplied and generated metadata, for the statements

    The caller's mapping, empty when none is given. *)
Definition supplied (metadata : option (gmap string MetaValue))
  : gmap string MetaValue :=
  default ∅ metadata.

(** The keys [process_text] generates for the chunk number [idx] of
    [total] chunks. *)
Definition generated_text_metadata (source_label : string) (idx total : nat)
  : gmap string MetaValue :=
  <["source" := VStr source_label]>
  (<["chunk_index" := VInt (Z.of_nat idx)]>
  (<["total_chunks" := VInt (Z.of_nat total)]> ∅)).

(** The keys [process_file] generates. *)
Definition generated_file_metadata (source_label file_path : string)
    (idx total : nat) : gmap string MetaValue :=
  <["source" := VStr source_label]>
  (<["source_file" := VStr file_path]>
  (<["chunk_index" := VInt (Z.of_nat idx)]>
  (<["total_chunks" := VInt (Z.of_nat total)]> ∅))).

Section WithSplitter.
(** [self.text_splitter.split_text], the configured
    [RecursiveCharacterTextSplitter] of the library. *)
Variable split_text : string -> list string.
(** [doc_utils.extract_text_from_path(path, show_warning=False)];
    [None] when it raises. *)
Variable extract_text_from_path : string -> option string.
(** [os.path.basename] *)
Variable basename : string -> string.

(** [doc_metadata.update(metadata)], run only [if metadata:]. *)
Definition update_metadata (doc_metadata : gmap string MetaValue)
    (metadata : option (gmap string MetaValue))
  : gmap string MetaValue :=
  match metadata with
  | Some m => if dict_truthy metadata then m ∪ doc_metadata
              else doc_metadata
  | None => doc_metadata
  end.

Definition process_file (file_path : string)
    (source_label : option string)
    (metadata : option (gmap string MetaValue)) : list Document :=
  match extract_text_from_path file_path with
  | None => []
  | Some text =>
      if blank text then []
      else
        let source_label :=
          match source_label with
          | None => basename file_path
          | Some l => l
          end in
        let chunks := split_text text in
        map (fun '(idx, chunk_text) =>
               let doc_metadata : gmap string MetaValue :=
                 <["source" := VStr source_label]>
                 (<["source_file" := VStr file_path]>
                 (<["chunk_index" := VInt (Z.of_nat idx)]>
                 (<["total_chunks" := VInt (Z.of_nat (length chunks))]>
                  ∅))) in
               mkDocument chunk_text (update_metadata doc_metadata metadata))
            (enumerate chunks)
  end.

Definition process_text (text : string) (source_label : string)
    (metadata : option (gmap string MetaValue)) : list Document :=
  if blank text then []
  else
    let chunks := split_text text in
    map (fun '(idx, chunk_text) =>
           let doc_metadata : gmap string MetaValue :=
             <["source" := VStr source_label]>
             (<["chunk_index" := VInt (Z.of_nat idx)]>
             (<["total_chunks" := VInt (Z.of_nat (length chunks))]>
              ∅)) in
           mkDocument chunk_text (update_metadata doc_metadata metadata))
        (enumerate chunks).
End WithSplitter.

End DocumentProcessor.

(** ** vector_db.py: the read path used by retrieval *)

Module VectorDatabase.

(** A call of [search_with_scores]: the query, the number of candidates
    asked for, and the metadata filter. *)
Record request : Type := mkRequest {
  req_query : string;
  req_k : Z;
  req_filter : option (gmap string MetaValue)
}.

(** The database handle; [requests] records the calls of
    [search_with_scores] it has received, oldest first. *)
Record t : Type := mk {
  requests : list request
}.

Section WithStore.
(** [self.vector_store.similarity_search_with_score] of the Chroma
    store: its answer may depend on the calls received so far, the
    current one included; [None] when it raises. *)
Variable similarity_search_with_score :
  list request -> string -> Z -> option (gmap string MetaValue) ->
  option (list (DocObj * float)).

Definition call_store (query : string) (k : Z)
    (filter : option (gmap string MetaValue))
  : M t (list (DocObj * float)) :=
  fun self =>
    match similarity_search_with_score (requests self) query k filter with
    | Some r => (self, Ok r)
    | None => (self, Raise ProviderError)
    end.

Definition search_with_scores (query : string) (k : Z)
    (filter_dict : option (gmap string MetaValue))
  : M t (list (DocObj * float)) :=
  fun self =>
    let self' := mk (requests self ++ [mkRequest query k filter_dict]) in
    (if blank query then ret []
     else
       try_except
         (if dict_truthy filter_dict
          then call_store query k filter_dict
          else call_store query k None)
         (fun _ => ret [])) self'.
End WithStore.

End VectorDatabase.

(** ** retrieval.py *)

Module RetrievalSystem.

Import VectorDatabase.

(** [sorted(items, key=key, reverse=True)]: a stable sort, largest key
    first; items with equal keys keep their order. The sort compares
    keys with [<] only. On keys that are numbers (no NaN) [<] is a strict
    weak order and every stable sort gives the one result that the
    insertion below computes. *)
Section Sorted.
Context {A : Type} (key : A -> binary64).

Fixpoint insert_desc (x : A) (l : list A) : list A :=
  match l with
  | [] => [x]
  | y :: l' =>
      if PrimFloat.ltb (key x) (key y) then y :: insert_desc x l'
      else x :: y :: l'
  end.

Definition sorted_reverse (l : list A) : list A :=
  fold_right insert_desc [] l.

End Sorted.

(** [doc_scores.get(doc_id, 0)] *)
Definition score_of (doc_scores : gmap nat binary64) (doc_id : nat)
  : binary64 :=
  default 0%float (doc_scores !! doc_id).

(** The [float] of a list position or length. Below [2^53], where the
    positions and lengths of every list that fits in memory are, the
    conversion is exact and the quotient [idx / len] of the two [int]s is
    the quotient of the two floats. *)
Definition float_of_nat (n : nat) : binary64 :=
  PrimFloat.of_uint63 (Uint63.of_Z (Z.of_nat n)).

(** [1.0 - idx / len(results)] *)
Definition rank_term (idx len : nat) : binary64 :=
  (1 - float_of_nat idx / float_of_nat len)%float.

Definition semantic_step (semantic_weight : binary64) (len : nat)
    (doc_scores : gmap nat binary64) (it : nat * DocObj)
  : gmap nat binary64 :=
  let '(idx, doc) := it in
  let doc_id := obj_id doc in
  let doc_scores :=
    <[doc_id := (score_of doc_scores doc_id
                 + semantic_weight * rank_term idx len)%float]> doc_scores in
  <[doc_id := (score_of doc_scores doc_id + semantic_weight)%float]>
    doc_scores.

Definition keyword_step (keyword_weight : binary64) (len : nat)
    (doc_scores : gmap nat binary64) (it : nat * DocObj)
  : gmap nat binary64 :=
  let '(idx, doc) := it in
  let doc_id := obj_id doc in
  <[doc_id := (score_of doc_scores doc_id
               + keyword_weight * rank_term idx len)%float]> doc_scores.

(** The score dictionary after the two scoring loops. *)
Definition merged_scores (semantic_results keyword_results : list DocObj)
    (semantic_weight keyword_weight : binary64) : gmap nat binary64 :=
  let doc_scores : gmap nat binary64 := ∅ in
  let doc_scores :=
    fold_left (semantic_step semantic_weight (length semantic_results))
              (enumerate semantic_results) doc_scores in
  fold_left (keyword_step keyword_weight (length keyword_results))
            (enumerate keyword_results) doc_scores.

(** The document map, in insertion order. *)
Definition merged_doc_map (semantic_results keyword_results : list DocObj)
  : dict nat DocObj :=
  fold_left (fun doc_map doc => dict_setitem (obj_id doc) doc doc_map)
            (semantic_results ++ keyword_results) [].

Definition _merge_results (semantic_results keyword_results : list DocObj)
    (semantic_weight keyword_weight : binary64) : list DocObj :=
  let doc_scores :=
    merged_scores semantic_results keyword_results
                  semantic_weight keyword_weight in
  let doc_map := merged_doc_map semantic_results keyword_results in
  let sorted_docs :=
    sorted_reverse (fun x : nat * DocObj => score_of doc_scores (fst x))
                   (dict_items doc_map) in
  map snd sorted_docs.

(** *** Scores and orders, for the statements

    The candidates the score filter of [semantic_search] keeps. *)
Definition kept (min_score : float) (candidates : list (DocObj * float))
  : list DocObj :=
  fst <$> filter (fun ds : DocObj * float => Qle_bool min_score (snd ds))
                 candidates.





Section WithStore.
Variable similarity_search_with_score :
  list request -> string -> Z -> option (gmap string MetaValue) ->
  option (list (DocObj * float)).
(** [re.findall(r'\b\w+\b', s)], a library call. *)
Variable findall_words : string -> list string.
(** [str.lower] *)
Variable lower : string -> string.

Definition semantic_search (query : string) (k : Z) (min_score : float)
    (filter_dict : option (gmap string MetaValue))
  : M VectorDatabase.t (list DocObj) :=
  if blank query then ret []
  else
    let* results_with_scores :=
      search_with_scores similarity_search_with_score
                         query (k * 2) filter_dict in
    let filtered_results :=
      slice_to k
        (map fst
           (filter (fun ds : DocObj * float => Qle_bool min_score (snd ds))
                   results_with_scores)) in
    ret filtered_results.

Definition _keyword_search (query : string)
    (filter_dict : option (gmap string MetaValue))
  : M VectorDatabase.t (list DocObj) :=
  let keywords := findall_words (lower query) in
  semantic_search query 10 0%Q filter_dict.

(** The default weights of [hybrid_search], [0.7] and [0.3], as the
    binary64 numbers these literals denote. *)
Definition default_semantic_weight : binary64 := 0x1.6666666666666p-1%float.
Definition default_keyword_weight : binary64 := 0x1.3333333333333p-2%float.

Definition hybrid_search (query : string) (k : Z)
    (semantic_weight keyword_weight : binary64)
    (filter_dict : option (gmap string MetaValue))
  : M VectorDatabase.t (list DocObj) :=
  let* semantic_results :=
    semantic_search query (k * 2) 0%Q filter_dict in
  let* keyword_results := _keyword_search query filter_dict in
  let combined :=
    _merge_results semantic_results keyword_results
                   semantic_weight keyword_weight in
  ret (slice_to k combined).

(** [doc.metadata.get("source", "Unknown")] *)
Definition source_of (doc : DocObj) : MetaValue :=
  default (VStr "Unknown") (metadata (obj_doc doc) !! "source").

(** [(source, doc.page_content)] *)
Definition regulation_of (doc : DocObj) : MetaValue * string :=
  (source_of doc, page_content (obj_doc doc)).

(** The documents of [results] that are the first of their source, the
    sources in [seen] excluded, as (label, text) pairs. *)
Fixpoint keep_first (seen : gset MetaValue) (results : list DocObj)
  : list (MetaValue * string) :=
  match results with
  | [] => []
  | doc :: results' =>
      if bool_decide (source_of doc ∈ seen) then keep_first seen results'
      else regulation_of doc
           :: keep_first (seen ∪ {[source_of doc]}) results'
  end.

(** The loop that keeps the first document of each source; the
    accumulator is [(regulations, seen_sources)]. *)
Definition dedup_step
    (acc : list (MetaValue * string) * gset MetaValue) (doc : DocObj)
  : list (MetaValue * string) * gset MetaValue :=
  let '(regulations, seen_sources) := acc in
  let source := source_of doc in
  if bool_decide (source ∈ seen_sources) then acc
  else (regulations ++ [(source, page_content (obj_doc doc))],
        seen_sources ∪ {[source]}).

Definition retrieve_relevant_regulations (user_document : string)
    (k : Z) (use_hybrid : bool)
  : M VectorDatabase.t (list (MetaValue * string)) :=
  if blank user_document then ret []
  else
    let query :=
      if (500 <? String.length user_document)%nat
      then substring 0 500 user_document
      else user_document in
    let* results :=
      if use_hybrid then
        hybrid_search query k default_semantic_weight default_keyword_weight
                      None
      else semantic_search query k 0%Q None in
    ret (fst (fold_left dedup_step results ([], ∅))).

(** The query [retrieve_relevant_regulations] builds from a document:
    its leading 500 characters. *)
Definition query_of (user_document : string) : string :=
  if (500 <? String.length user_document)%nat
  then substring 0 500 user_document
  else user_document.

(** The search [retrieve_relevant_regulations] runs for that query. *)
Definition search_for (query : string) (k : Z) (use_hybrid : bool)
  : M VectorDatabase.t (list DocObj) :=
  if use_hybrid then
    hybrid_search query k default_semantic_weight default_keyword_weight None
  else semantic_search query k 0%Q None.
End WithStore.

End RetrievalSystem.

(** ** Sample data *)

Module Samples.

(** A provider that fails on its second request and otherwise answers
    each text with a one-entry vector holding the text's length. *)
Definition flaky_provider (h : list EmbeddingGenerator.provider_call)
    (l : list string) : option (list Vec) :=
  if (length h =? 1)%nat then None
  else Some (map (fun s => [inject_Z (Z.of_nat (String.length s))]) l).

(** A splitter that cuts nothing, and a reader that finds the text "abc"
    in every file. *)
Definition one_chunk (text : string) : list string := [text].
Definition read_ok (path : string) : option string := Some "abc".

Definition sample_doc (id : nat) (source text : string) : DocObj :=
  mkDocObj id (mkDocument text {[ "source" := VStr source ]}).

Definition doc_a1 : DocObj := sample_doc 0 "Act-A" "a1".
Definition doc_b : DocObj := sample_doc 1 "Act-B" "b".
Definition doc_a2 : DocObj := sample_doc 2 "Act-A" "a2".

(** A store of three chunks, two of them from the source Act-A, that
    answers every query with its [k] best chunks. *)
Definition sample_store (_ : list VectorDatabase.request) (_ : string)
    (k : Z) (_ : option (gmap string MetaValue))
  : option (list (DocObj * float)) :=
  Some (take (Z.to_nat k)
             [(doc_a1, 9 # 10); (doc_b, 8 # 10); (doc_a2, 7 # 10)]%Q).

(** A keyword extraction that finds nothing. *)
Definition no_words (_ : string) : list string := [].

End Samples.

(** ** embeddings.py: cache maintenance *)

Module EmbeddingGeneratorOps.
Import EmbeddingGenerator.

Definition clear_cache : M t unit :=
  fun self => (mk ∅ (provider_calls self), Ok tt).

Definition get_cache_size (self : t) : Z :=
  Z.of_nat (size (_embedding_cache self)).

(** The provider answers every request, with one vector per text. *)
Definition reliable
    (embed_documents : list provider_call -> list string -> option (list Vec))
  : Prop :=
  forall h l, exists vs, embed_documents h l = Some vs /\ length vs = length l.

End EmbeddingGeneratorOps.

(** ** Python strings: [split] and [join] *)

Module PyStr.

(** [w] put in front of the words [ws], unless it is empty. *)
Definition cons_word (w : string) (ws : list string) : list string :=
  match w with
  | EmptyString => ws
  | _ => w :: ws
  end.

(** The scan behind [str.split()]: the word the string starts with (empty
    when it starts with white space) and the words after it. *)
Fixpoint split_go (s : string) : string * list string :=
  match s with
  | EmptyString => (EmptyString, [])
  | String a s' =>
      let '(w, ws) := split_go s' in
      if is_space a then (EmptyString, cons_word w ws)
      else (String a w, ws)
  end.

(** [s.split()]: the maximal runs of characters that are not white
    space. *)
Definition split (s : string) : list string :=
  let '(w, ws) := split_go s in cons_word w ws.

(** [sep.join(l)] *)
Definition join (sep : string) (l : list string) : string :=
  String.concat sep l.

(** A word: not empty, and without white space. *)
Definition word (w : string) : Prop :=
  w <> EmptyString
  /\ Forall (fun a => is_space a = false) (list_ascii_of_string w).

End PyStr.

(** ** document_processor.py: the other methods *)

Module DocumentProcessorOps.
Import DocumentProcessor.

Section WithSplitter.
Variable split_text : string -> list string.
Variable extract_text_from_path : string -> option string.
Variable basename : string -> string.

(** [source_labels[idx] if source_labels and idx < len(source_labels)
    else None] *)
Definition label_at (source_labels : option (list string)) (idx : nat)
  : option string :=
  match source_labels with
  | Some ((_ :: _) as labels) =>
      if (idx <? length labels)%nat then labels !! idx else None
  | _ => None
  end.

Definition process_multiple_files (file_paths : list string)
    (source_labels : option (list string)) : list Document :=
  fold_left
    (fun all_documents '(idx, file_path) =>
       let label := label_at source_labels idx in
       let documents :=
         process_file split_text extract_text_from_path basename
                      file_path label None in
       all_documents ++ documents)
    (enumerate file_paths) [].
End WithSplitter.

Definition preprocess_text (text : string) : string :=
  let text := PyStr.join " " (PyStr.split text) in
  strip text.

End DocumentProcessorOps.

(** ** doc_utils.py *)

Module DocUtils.

Definition SUPPORTED_EXTENSIONS : list string := [".txt"; ".pdf"; ".docx"].

(** [', '.join(sorted(SUPPORTED_EXTENSIONS))] *)
Definition supported_list : string := ".docx, .pdf, .txt".

(** What a call of [extract_text_from_path] comes to: the text, a
    [ValueError] with its message, or another exception, raised by a
    reader. *)
Inductive outcome : Type :=
| Returns (text : string)
| RaisesValueError (message : string)
| RaisesOther.

(** The line feed, ["\n"]. *)
Definition newline : string := String "010" EmptyString.

(** Truth value of an optional [str]. *)
Definition text_truthy (t : option string) : bool :=
  match t with
  | Some s => truthy s
  | None => false
  end.

Section WithFiles.
(** [os.path.splitext], [str.lower] and [os.path.basename]. *)
Variable splitext : string -> string * string.
Variable lower : string -> string.
Variable basename : string -> string.
(** The readers: [open(path, "r", encoding="utf-8").read()], the texts of
    the paragraphs of [docx.Document(path)], and [page.extract_text()] for
    the pages of [PdfReader(path)]; [None] when the reader raises. *)
Variable read_text : string -> option string.
Variable docx_paragraphs : string -> option (list string).
Variable pdf_page_texts : string -> option (list (option string)).

Definition is_supported_file_type (path : string) : bool * option string :=
  let '(_, ext) := splitext path in
  let ext := lower ext in
  if negb (bool_decide (ext ∈ SUPPORTED_EXTENSIONS)) then
    let warning :=
      ("⚠️ WARNING: Unsupported file type '" ++ ext ++ "' for file '"
       ++ basename path ++ "'. "
       ++ "Only the following file types are supported: "
       ++ supported_list ++ ". "
       ++ "This file will be skipped.")%string in
    (false, Some warning)
  else (true, None).

Definition read_file (path : string) : outcome :=
  match read_text path with
  | Some text => Returns text
  | None => RaisesOther
  end.

Definition extract_text_from_path (path : string) (show_warning : bool)
  : outcome :=
  let '(_, ext) := splitext path in
  let ext := lower ext in
  if negb (bool_decide (ext ∈ SUPPORTED_EXTENSIONS)) then
    if show_warning then
      RaisesValueError
        ("⚠️ WARNING: Unsupported file type '" ++ ext ++ "' for file '"
         ++ basename path ++ "'. "
         ++ "Only the following file types are supported: "
         ++ supported_list ++ ". "
         ++ "Please use a .txt, .pdf, or .docx file instead.")%string
    else RaisesValueError ("Unsupported file type: " ++ ext)%string
  else if bool_decide (ext = ".txt") then read_file path
  else if bool_decide (ext = ".docx") then
    match docx_paragraphs path with
    | Some paragraphs => Returns (strip (PyStr.join newline paragraphs))
    | None => RaisesOther
    end
  else if bool_decide (ext = ".pdf") then
    match pdf_page_texts path with
    | Some pages =>
        let texts :=
          omap (fun page_text : option string =>
                  if text_truthy page_text then page_text else None)
               pages in
        Returns (strip (PyStr.join newline texts))
    | None => RaisesOther
    end
  else read_file path.

(** The extraction as [process_file] sees it: the text, or [None] for
    any exception ([show_warning=False]). *)
Definition extracted (path : string) : option string :=
  match extract_text_from_path path false with
  | Returns text => Some text
  | _ => None
  end.
End WithFiles.

End DocUtils.

(** ** vector_db.py: the write path, and [search] *)

Module VectorStore.

(** A call on the Chroma store, [self.vector_store], or the re-creation
    of the store by [clear_collection]. *)
Inductive store_call : Type :=
| AddDocuments (batch : list Document)
| Persist
| Delete (ids : list string)
| Get
| SimilaritySearch (query : string) (k : Z)
    (filter : option (gmap string MetaValue))
| Recreate.

(** The database handle; [store_calls] records the calls made on the
    store, oldest first. *)
Record t : Type := mk {
  store_calls : list store_call
}.

(** [for x in l: acc = f(acc, x)], stopped by the first exception. *)
Fixpoint for_each {S A B} (f : B -> A -> M S B) (acc : B) (l : list A)
  : M S B :=
  match l with
  | [] => ret acc
  | x :: l' => let* acc' := f acc x in for_each f acc' l'
  end.

(** Truth value of an optional list argument. *)
Definition list_truthy {A} (l : option (list A)) : bool :=
  match l with
  | Some (_ :: _) => true
  | _ => false
  end.

Section WithStore.
(** The answers of the store, which may depend on the calls made before;
    [None], or [false] for a call without a result, when the call
    raises. *)
Variable store_add_documents :
  list store_call -> list Document -> option (list string).
Variable store_persist : list store_call -> bool.
Variable store_delete : list store_call -> list string -> bool.
Variable store_get : list store_call -> bool.
Variable similarity_search :
  list store_call -> string -> Z -> option (gmap string MetaValue) ->
  option (list Document).
(** [shutil.rmtree], [mkdir] and [_initialize_database] in
    [clear_collection]; [false] when one of them raises. *)
Variable recreate : list store_call -> bool.

(** The call [c] on the store, answered by [answer]. *)
Definition call {A} (c : store_call) (answer : option A) : M t A :=
  fun self =>
    let self' := mk (store_calls self ++ [c]) in
    match answer with
    | Some a => (self', Ok a)
    | None => (self', Raise ProviderError)
    end.

(** The answer of a call without a result. *)
Definition done_or_raises (ok : bool) : option unit :=
  if ok then Some tt else None.

Definition call_add_documents (batch : list Document)
  : M t (list string) :=
  fun self =>
    call (AddDocuments batch) (store_add_documents (store_calls self) batch)
         self.

Definition call_persist : M t unit :=
  fun self =>
    call Persist (done_or_raises (store_persist (store_calls self))) self.

(** One round of the loop of [add_documents]. *)
Definition add_batch (documents : list Document) (batch_size : Z)
    (ids : list string) (i : Z) : M t (list string) :=
  let batch := slice i (i + batch_size) documents in
  try_except
    (let* batch_ids := call_add_documents batch in
     ret (ids ++ batch_ids))
    (fun _ => ret ids).

Definition add_documents (documents : list Document) (batch_size : Z)
  : M t (list string) :=
  match documents with
  | [] => ret []
  | _ =>
      match range 0 (Z.of_nat (length documents)) batch_size with
      | None => raise ValueError
      | Some starts =>
          let* ids := for_each (add_batch documents batch_size) [] starts in
          let* _ := call_persist in
          ret ids
      end
  end.

(** For the statements: the batches the loop sends, and the ids the
    store answers them with, a batch that is refused giving none. *)
Definition batches (documents : list Document) (batch_size : Z)
  : list (list Document) :=
  map (fun i => slice i (i + batch_size) documents)
      (default [] (range 0 (Z.of_nat (length documents)) batch_size)).

Definition answers (calls : list store_call) (bs : list (list Document))
  : list (list string) :=
  imap (fun j b =>
          default []
            (store_add_documents (calls ++ (AddDocuments <$> take j bs)) b))
       bs.

Definition call_similarity_search (query : string) (k : Z)
    (filter : option (gmap string MetaValue)) : M t (list Document) :=
  fun self =>
    call (SimilaritySearch query k filter)
         (similarity_search (store_calls self) query k filter) self.

Definition search (query : string) (k : Z)
    (filter_dict : option (gmap string MetaValue)) : M t (list Document) :=
  if blank query then ret []
  else
    try_except
      (if dict_truthy filter_dict
       then call_similarity_search query k filter_dict
       else call_similarity_search query k None)
      (fun _ => ret []).

Definition delete_documents (ids : option (list string))
    (filter_dict : option (gmap string MetaValue)) : M t bool :=
  try_except
    (let* _ :=
       if list_truthy ids then
         fun self =>
           call (Delete (default [] ids))
                (done_or_raises
                   (store_delete (store_calls self) (default [] ids)))
                self
       else if dict_truthy filter_dict then
         fun self =>
           call Get (done_or_raises (store_get (store_calls self))) self
       else ret tt in
     let* _ := call_persist in
     ret true)
    (fun _ => ret false).

Definition clear_collection : M t bool :=
  fun self =>
    (mk (store_calls self ++ [Recreate]), Ok (recreate (store_calls self))).
End WithStore.

End VectorStore.

(** ** database_manager.py *)

Module DatabaseManager.
Import DocumentProcessor VectorStore.

(** The dictionary [results] of [index_reference_documents]. *)
Record results : Type := mkResults {
  indexed : Z;
  failed : Z;
  errors : list string
}.

Section WithFiles.
Variable splitext : string -> string * string.
Variable lower : string -> string.
Variable basename : string -> string.
Variable read_text : string -> option string.
Variable docx_paragraphs : string -> option (list string).
Variable pdf_page_texts : string -> option (list (option string)).
(** The splitter of the document processor; it is taken not to raise. *)
Variable split_text : string -> list string.
(** [os.path.isdir], [os.listdir], [os.path.join] and
    [os.path.isfile]. *)
Variable isdir : string -> bool.
Variable listdir : string -> list string.
Variable path_join : string -> string -> string.
Variable isfile : string -> bool.
Variable store_add_documents :
  list store_call -> list Document -> option (list string).
Variable store_persist : list store_call -> bool.
Variable recreate : list store_call -> bool.
(** [str(e)], the message of an exception. *)
Variable str_of_exn : exn -> string.

Definition is_valid (path : string) : bool :=
  (DocUtils.is_supported_file_type splitext lower basename path).1.

Definition process_file (file_path : string)
    (source_label : option string) : list Document :=
  DocumentProcessor.process_file split_text
    (DocUtils.extracted splitext lower basename read_text docx_paragraphs
       pdf_page_texts)
    basename file_path source_label None.

(** For the statements: the file is accepted and yields a chunk. *)
Definition indexable (file_path : string) : bool :=
  is_valid file_path
  && match process_file file_path (Some (basename file_path)) with
     | [] => false
     | _ :: _ => true
     end.

Definition _get_reference_files (reference_dir : string) : list string :=
  if negb (isdir reference_dir) then []
  else
    fold_left
      (fun files name =>
         let full_path := path_join reference_dir name in
         if isfile full_path then
           if is_valid full_path then files ++ [full_path] else files
         else files)
      (listdir reference_dir) [].

(** One round of the loop over the files to index, on [results] and
    [all_documents]. Nothing in the round raises here, the splitter being
    taken not to, so the handler of the round is left out. *)
Definition index_file (acc : results * list Document) (file_path : string)
  : results * list Document :=
  let '(res, all_documents) := acc in
  if negb (is_valid file_path) then
    (mkResults (indexed res) (failed res + 1)
       (errors res ++ [("Unsupported file type: " ++ file_path)%string]),
     all_documents)
  else
    let label := basename file_path in
    let documents := process_file file_path (Some label) in
    match documents with
    | _ :: _ =>
        (mkResults (indexed res + 1) (failed res) (errors res),
         all_documents ++ documents)
    | [] =>
        (mkResults (indexed res) (failed res + 1)
           (errors res ++ [("No content extracted: " ++ file_path)%string]),
         all_documents)
    end.

Definition index_reference_documents (reference_dir : string)
    (force_reindex : bool) (file_paths : option (list string))
  : M VectorStore.t results :=
  let* _ := if force_reindex then clear_collection recreate
            else ret false in
  let files_to_index :=
    if list_truthy file_paths then default [] file_paths
    else _get_reference_files reference_dir in
  match files_to_index with
  | [] => ret (mkResults 0 0 [])
  | _ =>
      let '(res, all_documents) :=
        fold_left index_file files_to_index (mkResults 0 0 [], []) in
      match all_documents with
      | [] => ret res
      | _ =>
          try_except
            (let* _ := add_documents store_add_documents store_persist
                         all_documents 100 in
             ret res)
            (fun e =>
               ret (mkResults (indexed res) (failed res)
                      (errors res
                       ++ [("Failed to add documents to database: "
                            ++ str_of_exn e)%string])))
      end
  end.

Definition index_text (text source_label : string)
    (text_metadata : option (gmap string MetaValue))
  : M VectorStore.t bool :=
  try_except
    (let documents :=
       process_text split_text text source_label text_metadata in
     match documents with
     | _ :: _ =>
         let* _ := add_documents store_add_documents store_persist
                     documents 100 in
         ret true
     | [] => ret false
     end)
    (fun _ => ret false).
End WithFiles.

End DatabaseManager.

(** ** More sample data *)

Module MoreSamples.

(** A provider that answers each text with a one-entry vector holding
    the text's length. *)
Definition length_provider (_ : list EmbeddingGenerator.provider_call)
    (s : string) : option Vec :=
  Some [inject_Z (Z.of_nat (String.length s))].
Definition length_documents (_ : list EmbeddingGenerator.provider_call)
    (l : list string) : option (list Vec) :=
  Some (map (fun s => [inject_Z (Z.of_nat (String.length s))]) l).


(** A chunk without metadata; a store that names each document after its
    text, and calls that always succeed. *)
Definition chunk (text : string) : Document := mkDocument text ∅.
Definition naming_store (_ : list VectorStore.store_call)
    (batch : list Document) : option (list string) :=
  Some (page_content <$> batch).
Definition always (_ : list VectorStore.store_call) : bool := true.

(** Five chunks of five sources, for the rank fusion. *)
Definition doc_a : DocObj := Samples.sample_doc 0 "Act-A" "a".
Definition doc_x : DocObj := Samples.sample_doc 1 "Act-X" "x".
Definition doc_y : DocObj := Samples.sample_doc 2 "Act-Y" "y".
Definition doc_b : DocObj := Samples.sample_doc 3 "Act-B" "b".
Definition doc_c : DocObj := Samples.sample_doc 4 "Act-C" "c".

(** A document that opens with 500 spaces. *)
Definition padded_document : string :=
  fold_right String.append "Section 1" (repeat " " 500%nat).

End MoreSamples.

(** * Properties *)

(** Unfolds the operations of the method monad. *)
Ltac unfold_monad :=
  unfold bind, ret, raise, get_self, put_self, try_except.

(** ** Slices, ranges and enumerations *)

Lemma slice_nonneg {A} (i j : Z) (l : list A) :
  0 <= i → 0 <= j →
  slice i j l = take (Z.to_nat j - Z.to_nat i) (drop (Z.to_nat i) l).
Proof.
  intros Hi Hj. unfold slice, clamp_index.
  destruct (Z.ltb_spec i 0); [lia|]. destruct (Z.ltb_spec j 0); [lia|].
  destruct (Nat.le_gt_cases (length l) (Z.to_nat i)) as [Hge|Hlt].
  - rewrite (Nat.min_r (Z.to_nat i)) by done. rewrite !drop_ge by done.
    by rewrite !take_nil.
  - rewrite (Nat.min_l (Z.to_nat i)) by lia.
    destruct (Nat.le_gt_cases (Z.to_nat j) (length l)) as [Hj'|Hj'].
    + by rewrite Nat.min_l by done.
    + rewrite Nat.min_r by lia.
      rewrite !take_ge; [done| |]; rewrite length_drop; lia.
Qed.

Lemma slice_to_nonneg {A} (k : Z) (l : list A) :
  0 <= k → slice_to k l = take (Z.to_nat k) l.
Proof.
  intros Hk. unfold slice_to. rewrite slice_nonneg by lia.
  simpl. by rewrite Nat.sub_0_r.
Qed.

Lemma range_pos (n : nat) (step : Z) :
  0 < step →
  range 0 (Z.of_nat n) step
  = Some (map (fun j => Z.of_nat j * step)
              (seq 0 (Z.to_nat ((Z.of_nat n + step - 1) / step)))).
Proof.
  intros Hs. unfold range.
  destruct (Z.eqb_spec step 0); [lia|].
  destruct (Z.ltb_spec 0 step); [|lia].
  by rewrite Z.sub_0_r.
Qed.

Lemma enumerate_from_cons {A} n (x : A) l :
  enumerate_from n (x :: l) = (n, x) :: enumerate_from (S n) l.
Proof. reflexivity. Qed.

Lemma enumerate_from_0 {A} (l : list A) : enumerate l = enumerate_from 0 l.
Proof. reflexivity. Qed.

Lemma enumerate_from_lookup {A} n (l : list A) i :
  enumerate_from n l !! i = (fun x => ((n + i)%nat, x)) <$> l !! i.
Proof.
  revert n i. induction l as [|x l IH]; intros n i; [by destruct i|].
  rewrite enumerate_from_cons. destruct i as [|i]; simpl.
  - by rewrite Nat.add_0_r.
  - rewrite IH. by rewrite Nat.add_succ_r.
Qed.

Lemma enumerate_from_length {A} n (l : list A) :
  length (enumerate_from n l) = length l.
Proof.
  unfold enumerate_from. rewrite length_combine, length_seq. lia.
Qed.


(** ** Facts about insertion-ordered dictionaries *)

Section DictFacts.
Context {K V : Type} `{EqDecision K}.
Implicit Types (d : dict K V) (k : K) (v : V).
Implicit Types (es : list (K * V)) (e : K * V).

Lemma dict_get_setitem_eq k v d : dict_get k (dict_setitem k v d) = Some v.
Proof.
  induction d as [|[k' v'] d IH]; simpl.
  - by rewrite decide_True.
  - destruct (decide (k = k')) as [->|Hne]; simpl.
    + by rewrite decide_True.
    + by rewrite decide_False.
Qed.

Lemma dict_get_setitem_ne k k' v d :
  k ≠ k' → dict_get k' (dict_setitem k v d) = dict_get k' d.
Proof.
  intros Hne. induction d as [|[k0 v0] d IH]; simpl.
  - by rewrite decide_False.
  - destruct (decide (k = k0)) as [->|Hne0]; simpl.
    + by rewrite !decide_False.
    + by rewrite IH.
Qed.

Lemma dict_setitem_fresh k v d :
  k ∉ dict_keys d → dict_setitem k v d = d ++ [(k, v)].
Proof.
  induction d as [|[k' v'] d IH]; simpl; [done|].
  intros Hnin. apply not_elem_of_cons in Hnin as [Hne Hnin].
  rewrite decide_False by done. by rewrite IH.
Qed.

Lemma dict_setitem_length_le k v d :
  (length (dict_setitem k v d) ≤ S (length d))%nat.
Proof.
  induction d as [|[k' v'] d IH]; simpl; [lia|].
  destruct (decide (k = k')); simpl; lia.
Qed.

Lemma dict_get_None k d : k ∉ dict_keys d → dict_get k d = None.
Proof.
  induction d as [|[k' v'] d IH]; simpl; [done|].
  intros Hnin. apply not_elem_of_cons in Hnin as [Hne Hnin].
  rewrite decide_False by done. auto.
Qed.

Lemma dict_get_Some k v d :
  NoDup (dict_keys d) → (k, v) ∈ d → dict_get k d = Some v.
Proof.
  induction d as [|[k' v'] d IH]; simpl; intros Hnd Hin.
  - by apply elem_of_nil in Hin.
  - apply NoDup_cons in Hnd as [Hk' Hnd].
    apply elem_of_cons in Hin as [Heq|Hin].
    + injection Heq as -> ->. by rewrite decide_True.
    + destruct (decide (k = k')) as [->|Hne]; [|auto].
      exfalso. apply Hk'. apply list_elem_of_fmap. by exists (k', v).
Qed.

Lemma dict_delitem_first k v d : dict_delitem k ((k, v) :: d) = Some d.
Proof. simpl. by rewrite decide_True. Qed.

Lemma fifo_set_bound bound k v d d' :
  0 <= bound → dict_len d <= bound → fifo_set bound k v d = Some d' →
  dict_len d' <= bound.
Proof.
  unfold fifo_set, dict_len. intros Hb Hd.
  destruct (Z.geb_spec (Z.of_nat (length d)) bound) as [Hge|Hlt].
  - destruct d as [|e d0]; [done|]. intros [= <-].
    pose proof (dict_setitem_length_le k v d0). simpl in *. lia.
  - intros [= <-]. pose proof (dict_setitem_length_le k v d). lia.
Qed.

Lemma fifo_run_snoc bound es e d :
  fifo_run bound (es ++ [e]) d
  = default (fifo_run bound es d)
            (fifo_set bound (fst e) (snd e) (fifo_run bound es d)).
Proof. unfold fifo_run. by rewrite fold_left_app. Qed.

(** With distinct keys, the namespace holds the last [bound] entries
    stored, oldest first. *)
Lemma fifo_run_distinct bound es :
  0 <= bound → NoDup (map fst es) →
  fifo_run bound es [] = skipn (length es - Z.to_nat bound) es.
Proof.
  intros Hb. induction es as [|e es IH] using rev_ind; [done|].
  rewrite map_app. intros Hnd.
  apply NoDup_app in Hnd as (Hnd & Hfresh & _).
  rewrite fifo_run_snoc, IH by done. clear IH.
  assert (Hnin : fst e ∉ dict_keys (skipn (length es - Z.to_nat bound) es)).
  { intros Hin. apply (Hfresh (fst e)); [|simpl; left].
    unfold dict_keys in Hin. apply list_elem_of_fmap in Hin as (x & -> & Hx).
    apply list_elem_of_fmap. exists x. split; [done|].
    by eapply subseteq_drop. }
  unfold fifo_set, dict_len. rewrite length_skipn, length_app. simpl.
  destruct (Z.geb_spec (Z.of_nat (length es - (length es - Z.to_nat bound)))
                       bound) as [Hge|Hlt].
  - assert (Hlen : (Z.to_nat bound ≤ length es)%nat) by lia.
    destruct (skipn (length es - Z.to_nat bound) es) as [|x rest] eqn:Hsk.
    + simpl. apply (f_equal (@length _)) in Hsk. rewrite length_skipn in Hsk.
      simpl in Hsk. assert (bound = 0) by lia. subst bound. simpl.
      symmetry. apply drop_ge. rewrite length_app. simpl. lia.
    + simpl. rewrite dict_setitem_fresh.
      2:{ intros Hin. apply Hnin. simpl. by right. }
      replace (length es + 1 - Z.to_nat bound)%nat
        with (S (length es - Z.to_nat bound)) by lia.
      assert (Hrest : rest = skipn (S (length es - Z.to_nat bound)) es).
      { change (S ?n) with (1 + n)%nat. rewrite <- skipn_skipn, Hsk. done. }
      rewrite Hrest, skipn_app.
      replace (S (length es - Z.to_nat bound) - length es)%nat with 0%nat.
      2:{ apply (f_equal (@length _)) in Hsk. rewrite length_skipn in Hsk.
          simpl in Hsk. lia. }
      by destruct e.
  - simpl. rewrite dict_setitem_fresh by done.
    replace (length es - Z.to_nat bound)%nat with 0%nat by lia.
    replace (length es + 1 - Z.to_nat bound)%nat with 0%nat by lia.
    by destruct e.
Qed.
End DictFacts.


(** ** White space *)

Lemma lstrip_whitespace_only s : whitespace_only (lstrip s) ↔ whitespace_only s.
Proof.
  unfold whitespace_only. induction s as [|a s IH]; simpl; [done|].
  destruct (is_space a) eqn:Ha; [|done].
  rewrite IH. split; [by constructor|]. by inversion 1.
Qed.

Lemma rstrip_empty s : rstrip s = "" ↔ whitespace_only s.
Proof.
  unfold whitespace_only. induction s as [|a s IH]; simpl.
  - split; [constructor|done].
  - destruct (rstrip s) as [|b r] eqn:Hr.
    + destruct (is_space a) eqn:Ha.
      * split; [|done]. intros _. constructor; [done|]. by apply IH.
      * split; [done|]. inversion 1; congruence.
    + split; [done|]. inversion 1 as [|? ? _ Hs]. by apply IH in Hs.
Qed.

Lemma strip_empty s : strip s = "" ↔ whitespace_only s.
Proof. unfold strip. by rewrite rstrip_empty, lstrip_whitespace_only. Qed.

(** The guard [not text or not text.strip()] holds exactly of the
    strings that are empty or white space only. *)
Lemma blank_spec s : blank s = true ↔ whitespace_only s.
Proof.
  rewrite <- strip_empty. unfold blank.
  destruct s as [|a s]; [done|]. simpl truthy at 1. simpl negb at 1.
  rewrite orb_false_l. destruct (strip (String a s)); simpl; split; done.
Qed.

Lemma blank_false_spec s : blank s = false ↔ strip s ≠ "".
Proof.
  rewrite strip_empty, <- blank_spec. by destruct (blank s).
Qed.


(** ** The cache manager *)

Module CacheManagerFacts.
Import CacheManager.

Section Setters.
Variable md5_hexdigest : string -> string.
Local Abbreviation key := (_generate_key md5_hexdigest).
Local Abbreviation set_embedding := (set_embedding md5_hexdigest).
Local Abbreviation set_search_result := (set_search_result md5_hexdigest).
Local Abbreviation do_set := (do_set md5_hexdigest).
Local Abbreviation run_sets := (run_sets md5_hexdigest).
Local Abbreviation outcomes := (outcomes md5_hexdigest).
Local Abbreviation keyed := (keyed md5_hexdigest).

Lemma set_embedding_fifo text e self :
  set_embedding text e self =
  match fifo_set (max_size self) (key text) e (_embedding_cache self) with
  | Some c => (with_embedding_cache c self, Ok tt)
  | None => (self, Raise StopIteration)
  end.
Proof.
  destruct self as [m ec sc rc].
  unfold CacheManager.set_embedding, fifo_set. unfold_monad. simpl.
  destruct (dict_len ec >=? m); [|done].
  destruct ec as [|[k v] ec]; simpl; [done|].
  by rewrite decide_True.
Qed.

Lemma set_search_result_fifo query r self :
  set_search_result query r self =
  match fifo_set (max_size self) (key query) r (_search_cache self) with
  | Some c => (with_search_cache c self, Ok tt)
  | None => (self, Raise StopIteration)
  end.
Proof.
  destruct self as [m ec sc rc].
  unfold CacheManager.set_search_result, fifo_set. unfold_monad. simpl.
  destruct (dict_len sc >=? m); [|done].
  destruct sc as [|[k v] sc]; simpl; [done|].
  by rewrite decide_True.
Qed.

Lemma do_set_bounded op self :
  0 <= max_size self → bounded self →
  max_size (fst (do_set op self)) = max_size self
  ∧ bounded (fst (do_set op self)).
Proof.
  intros Hm (He & Hs & Hr). destruct op as [text e|query r]; simpl.
  - rewrite set_embedding_fifo.
    destruct (fifo_set _ _ _ _) as [c|] eqn:Hf; simpl; [|done].
    split; [done|]. split; [|done]. by eapply fifo_set_bound.
  - rewrite set_search_result_fifo.
    destruct (fifo_set _ _ _ _) as [c|] eqn:Hf; simpl; [|done].
    split; [done|]. split; [done|]. split; [|done].
    by eapply fifo_set_bound.
Qed.

Lemma run_sets_bounded ops self :
  0 <= max_size self → bounded self →
  max_size (run_sets ops self) = max_size self
  ∧ bounded (run_sets ops self).
Proof.
  revert self. induction ops as [|op ops IH]; intros self Hm Hb; [done|].
  unfold CacheManager.run_sets. simpl.
  destruct (do_set_bounded op self Hm Hb) as [Hm' Hb'].
  destruct (IH (fst (do_set op self))) as [Hm'' Hb'']; [lia|done|].
  unfold CacheManager.run_sets in *. split; [congruence|done].
Qed.

Lemma run_embedding_sets es self :
  run_sets (embedding_sets es) self
  = with_embedding_cache
      (fifo_run (max_size self) (keyed es) (_embedding_cache self)) self.
Proof.
  revert self. induction es as [|[t e] es IH]; intros self.
  - by destruct self.
  - unfold CacheManager.run_sets in *. simpl. rewrite set_embedding_fifo.
    simpl. destruct (fifo_set _ _ _ _) as [c|]; simpl.
    + rewrite IH. by destruct self.
    + by rewrite IH.
Qed.

Lemma run_search_sets es self :
  run_sets (search_sets es) self
  = with_search_cache
      (fifo_run (max_size self) (keyed es) (_search_cache self)) self.
Proof.
  revert self. induction es as [|[t e] es IH]; intros self.
  - by destruct self.
  - unfold CacheManager.run_sets in *. simpl.
    rewrite set_search_result_fifo.
    simpl. destruct (fifo_set _ _ _ _) as [c|]; simpl.
    + rewrite IH. by destruct self.
    + by rewrite IH.
Qed.

Lemma keyed_fst {V} (es : list (string * V)) :
  map fst (keyed es) = map (fun e => key (fst e)) es.
Proof. unfold CacheManager.keyed. rewrite map_map. done. Qed.

(** What a namespace holds after [bound + 1] entries with distinct
    keys were stored in it, starting empty. *)
Lemma fifo_overflow {V} bound (es : list (string * V)) :
  0 <= bound → NoDup (map (fun e => key (fst e)) es) →
  Z.of_nat (length es) = bound + 1 →
  let d := fifo_run bound (keyed es) [] in
  dict_len d = bound
  ∧ (∀ e, head es = Some e → dict_get (key (fst e)) d = None)
  ∧ (∀ e, e ∈ tail es → dict_get (key (fst e)) d = Some (snd e)).
Proof.
  intros Hb Hnd Hlen d. subst d.
  rewrite fifo_run_distinct by (by rewrite ?keyed_fst).
  assert (Hk : length (keyed es) = length es) by apply length_map.
  rewrite Hk.
  replace (length es - Z.to_nat bound)%nat with 1%nat by lia.
  destruct es as [|e0 es]; [simpl in Hlen; lia|].
  change (keyed (e0 :: es)) with ((key (fst e0), snd e0) :: keyed es).
  simpl in *. rewrite drop_0. apply NoDup_cons in Hnd as [Hfresh Hnd].
  assert (Hkeys : dict_keys (keyed es) = map (fun e => key (fst e)) es)
    by apply keyed_fst.
  split; [|split].
  - unfold dict_len. simpl in Hk. lia.
  - intros e [= <-]. apply dict_get_None. by rewrite Hkeys.
  - intros e He. apply dict_get_Some.
    + by rewrite Hkeys.
    + unfold CacheManager.keyed. apply list_elem_of_fmap. by exists e.
Qed.
End Setters.



Section Eviction.
Variable md5_hexdigest : string -> string.
Local Abbreviation key := (_generate_key md5_hexdigest).

Lemma fifo_set_is_Some {K V} `{EqDecision K} bound (k : K) (v : V) d :
  1 <= bound → is_Some (fifo_set bound k v d).
Proof.
  intros Hb. unfold fifo_set, dict_len.
  destruct (Z.geb_spec (Z.of_nat (length d)) bound); [|done].
  destruct d; [simpl in *; lia|done].
Qed.

Lemma do_set_ok op self :
  1 <= max_size self →
  snd (do_set md5_hexdigest op self) = Ok tt
  ∧ max_size (fst (do_set md5_hexdigest op self)) = max_size self.
Proof.
  intros Hm. destruct op as [text e|query r]; simpl.
  - rewrite set_embedding_fifo.
    destruct (fifo_set_is_Some (max_size self) (key text) e
                (_embedding_cache self) Hm) as [c ->]. done.
  - rewrite set_search_result_fifo.
    destruct (fifo_set_is_Some (max_size self) (key query) r
                (_search_cache self) Hm) as [c ->]. done.
Qed.

Lemma outcomes_ok ops self :
  1 <= max_size self →
  Forall (fun r => r = Ok tt) (outcomes md5_hexdigest ops self).
Proof.
  revert self. induction ops as [|op ops IH]; intros self Hm; simpl.
  - constructor.
  - destruct (do_set_ok op self Hm) as [Hr Hm'].
    destruct (do_set md5_hexdigest op self) as [s' r]. simpl in *.
    constructor; [done|]. apply IH. lia.
Qed.

(** C5. Starting from an empty cache with bound [max_size >= 0], storing
    [max_size + 1] entries under distinct keys in a namespace (embeddings,
    search results) leaves exactly [max_size] entries in it: the entry
    stored first is gone and every other one is returned by the getter.
    After any sequence of setter calls every namespace holds at most
    [max_size] entries; with [max_size >= 1] no setter call raises. *)
Theorem cache_fifo_eviction_and_bound
    (max_size : Z)
    (embs : list (string * Vec)) (srs : list (string * list Document))
    (ops : list set_op) :
  0 <= max_size →
  NoDup (map (fun e => key (fst e)) embs) →
  Z.of_nat (length embs) = max_size + 1 →
  NoDup (map (fun e => key (fst e)) srs) →
  Z.of_nat (length srs) = max_size + 1 →
  let se := run_sets md5_hexdigest (embedding_sets embs) (__init__ max_size) in
  let ss := run_sets md5_hexdigest (search_sets srs) (__init__ max_size) in
  let so := run_sets md5_hexdigest ops (__init__ max_size) in
  (dict_len (_embedding_cache se) = max_size
   ∧ (∀ e, head embs = Some e →
           get_embedding md5_hexdigest se (fst e) = None)
   ∧ (∀ e, e ∈ tail embs →
           get_embedding md5_hexdigest se (fst e) = Some (snd e)))
  ∧ (dict_len (_search_cache ss) = max_size
     ∧ (∀ e, head srs = Some e →
             get_search_result md5_hexdigest ss (fst e) = None)
     ∧ (∀ e, e ∈ tail srs →
             get_search_result md5_hexdigest ss (fst e) = Some (snd e)))
  ∧ (dict_len (_embedding_cache so) <= max_size
     ∧ dict_len (_search_cache so) <= max_size
     ∧ dict_len (_regulation_cache so) <= max_size)
  ∧ (1 <= max_size →
     Forall (fun r => r = Ok tt)
            (outcomes md5_hexdigest ops (__init__ max_size))).
Proof.
  intros Hm Hnd1 Hlen1 Hnd2 Hlen2 se ss so.
  split; [|split; [|split]].
  - subst se. rewrite run_embedding_sets. simpl.
    exact (fifo_overflow md5_hexdigest max_size embs Hm Hnd1 Hlen1).
  - subst ss. rewrite run_search_sets. simpl.
    exact (fifo_overflow md5_hexdigest max_size srs Hm Hnd2 Hlen2).
  - subst so.
    destruct (run_sets_bounded md5_hexdigest ops (__init__ max_size))
      as [Hmax Hb]; [done| |].
    + unfold bounded, dict_len. simpl. lia.
    + unfold bounded in Hb. rewrite Hmax in Hb. exact Hb.
  - intros Hm1. by apply outcomes_ok.
Qed.
End Eviction.

(** The theorem at bound 2 with three entries per namespace, the
    identity as key derivation. *)
Lemma cache_fifo_eviction_and_bound_witness :
  let emb (q : Q) : Vec := [q] in
  let doc s := mkDocument s ∅ in
  let embs := [("a", emb 1%Q); ("b", emb 2%Q); ("c", emb 3%Q)] in
  let srs := [("q1", [doc "x"]); ("q2", []); ("q3", [doc "y"; doc "z"])] in
  let se := CacheManager.run_sets id (CacheManager.embedding_sets embs)
              (CacheManager.__init__ 2) in
  dict_len (CacheManager._embedding_cache se) = 2
  ∧ CacheManager.get_embedding id se "a" = None
  ∧ CacheManager.get_embedding id se "c" = Some (emb 3%Q).
Proof.
  intros emb doc embs srs se.
  assert (Hnd : ∀ l : list string, bool_decide (NoDup l) = true → NoDup l)
    by (intros l; apply bool_decide_eq_true_1).
  destruct (cache_fifo_eviction_and_bound id 2 embs srs
              (CacheManager.embedding_sets embs
               ++ CacheManager.search_sets srs))
    as ((Hlen & Hfirst & Hrest) & _).
  - lia.
  - apply Hnd. vm_compute. reflexivity.
  - reflexivity.
  - apply Hnd. vm_compute. reflexivity.
  - reflexivity.
  - split; [exact Hlen|]. split.
    + exact (Hfirst ("a", emb 1%Q) eq_refl).
    + apply (Hrest ("c", emb 3%Q)). simpl. set_solver.
Defined.

(** C10. A [cache_type] that is none of "embedding", "search" and
    "regulation" ([None] and misspellings included) empties all three
    namespaces, and the call does not raise. *)
Theorem clear_cache_unrecognized_clears_all
    (cache_type : option string) (self : CacheManager.t) :
  cache_type ≠ Some "embedding" →
  cache_type ≠ Some "search" →
  cache_type ≠ Some "regulation" →
  CacheManager.clear_cache cache_type self
  = (CacheManager.mk (CacheManager.max_size self) [] [] [], Ok tt).
Proof.
  intros H1 H2 H3. unfold CacheManager.clear_cache. unfold_monad.
  rewrite !decide_False by done. reflexivity.
Qed.

Lemma clear_cache_unrecognized_clears_all_witness :
  let self := CacheManager.mk 5 [("k1", [1%Q])] [("k2", [])] [("k3", "r")] in
  CacheManager.clear_cache (Some "embeddings") self
  = (CacheManager.mk 5 [] [] [], Ok tt)
  ∧ CacheManager.clear_cache None self = (CacheManager.mk 5 [] [] [], Ok tt).
Proof.
  intros self. split.
  - apply (clear_cache_unrecognized_clears_all (Some "embeddings") self);
      discriminate.
  - apply (clear_cache_unrecognized_clears_all None self); discriminate.
Defined.

End CacheManagerFacts.

(** ** The embedding generator *)

Module EmbeddingFacts.
Import EmbeddingGenerator.

Section SplitBatch.
Variables (use_cache : bool) (cache : gmap string Vec).
Local Abbreviation hit := (cache_hit use_cache cache).
Local Abbreviation missP := (fun it : nat * string => hit (snd it) = None).

Lemma split_fold (its : list (nat * string)) cached uncached uncached_indices :
  fold_left (split_step use_cache cache) its
            (cached, uncached, uncached_indices)
  = (cached ++ omap (fun it => hit (snd it)) its,
     uncached ++ (snd <$> filter missP its),
     uncached_indices ++ (fst <$> filter missP its)).
Proof.
  revert cached uncached uncached_indices.
  induction its as [|[idx t] its IH]; intros c u ui; simpl.
  - by rewrite !app_nil_r.
  - rewrite filter_cons. simpl.
    destruct (hit t) as [v|] eqn:Hh.
    + rewrite IH. rewrite decide_False by done. by rewrite <- app_assoc.
    + rewrite IH. rewrite decide_True by done. simpl.
      by rewrite <- !app_assoc.
Qed.

Lemma omap_enumerate_from n (batch : list string) :
  omap (fun it : nat * string => hit (snd it)) (enumerate_from n batch)
  = omap hit batch.
Proof.
  revert n. induction batch as [|t b IH]; intros n; [done|].
  rewrite enumerate_from_cons. simpl. rewrite IH. done.
Qed.

Lemma filter_enumerate_from_snd n (batch : list string) :
  snd <$> filter missP (enumerate_from n batch)
  = uncached_of use_cache cache batch.
Proof.
  unfold uncached_of. revert n.
  induction batch as [|t b IH]; intros n; [done|].
  rewrite enumerate_from_cons, !filter_cons. simpl.
  destruct (decide (hit t = None)); simpl; by rewrite IH.
Qed.

Lemma elem_of_filter_enumerate_from_fst n (batch : list string) idx :
  idx ∈ fst <$> filter missP (enumerate_from n batch)
  ↔ ∃ t, (n ≤ idx)%nat ∧ batch !! (idx - n)%nat = Some t ∧ hit t = None.
Proof.
  rewrite list_elem_of_fmap. split.
  - intros ([i t] & -> & Hin). apply list_elem_of_filter in Hin as [Hm Hin].
    apply list_elem_of_lookup in Hin as [j Hj].
    rewrite enumerate_from_lookup in Hj.
    destruct (batch !! j) as [t'|] eqn:Ht; simplify_eq/=.
    exists t. split; [lia|]. split; [|done].
    by replace (n + j - n)%nat with j by lia.
  - intros (t & Hle & Ht & Hm). exists (idx, t). split; [done|].
    apply list_elem_of_filter. split; [done|].
    apply list_elem_of_lookup. exists (idx - n)%nat.
    rewrite enumerate_from_lookup, Ht. simpl. f_equal. f_equal. lia.
Qed.

Lemma split_batch_spec (batch : list string) :
  ∃ uncached_indices,
    split_batch use_cache cache batch
    = (omap hit batch, uncached_of use_cache cache batch, uncached_indices)
    ∧ ∀ idx, idx ∈ uncached_indices
             ↔ ∃ t, batch !! idx = Some t ∧ hit t = None.
Proof.
  exists (fst <$> filter missP (enumerate_from 0 batch)). split.
  - unfold split_batch. rewrite enumerate_from_0, split_fold. simpl.
    by rewrite omap_enumerate_from, filter_enumerate_from_snd.
  - intros idx. rewrite elem_of_filter_enumerate_from_fst.
    rewrite Nat.sub_0_r. split.
    + intros (t & _ & ? & ?). eauto.
    + intros (t & ? & ?). exists t. split; [lia|done].
Qed.

Lemma uncached_of_app b1 b2 :
  uncached_of use_cache cache (b1 ++ b2)
  = uncached_of use_cache cache b1 ++ uncached_of use_cache cache b2.
Proof. unfold uncached_of. apply filter_app. Qed.

Lemma uncached_of_length_le b :
  (length (uncached_of use_cache cache b) ≤ length b)%nat.
Proof. unfold uncached_of. apply length_filter. Qed.

Lemma uncached_of_take_S (batch : list string) n t :
  batch !! n = Some t →
  uncached_of use_cache cache (take (S n) batch)
  = uncached_of use_cache cache (take n batch)
    ++ (if decide (hit t = None) then [t] else []).
Proof.
  intros Ht. rewrite (take_S_r batch n t Ht), uncached_of_app.
  unfold uncached_of at 2. rewrite filter_cons.
  destruct (decide (hit t = None)); by rewrite filter_nil.
Qed.

Lemma hits_take_S (batch : list string) n t :
  batch !! n = Some t →
  omap hit (take (S n) batch)
  = omap hit (take n batch) ++ option_list (hit t).
Proof.
  intros Ht. rewrite (take_S_r batch n t Ht), omap_app. simpl.
  by destruct (hit t).
Qed.

Lemma uncached_of_take_le (batch : list string) n :
  (length (uncached_of use_cache cache (take n batch))
   ≤ length (uncached_of use_cache cache batch))%nat.
Proof.
  rewrite <- (take_drop n batch) at 2. rewrite uncached_of_app, length_app.
  lia.
Qed.

Lemma hits_lookup (batch : list string) n t v :
  batch !! n = Some t → hit t = Some v →
  omap hit batch !! length (omap hit (take n batch)) = Some v.
Proof.
  intros Ht Hh.
  replace (omap hit batch)
    with (omap hit (take n batch) ++ omap hit (drop n batch))
    by (by rewrite <- omap_app, take_drop).
  rewrite lookup_app_r by lia. rewrite Nat.sub_diag.
  rewrite (drop_S batch t n Ht). simpl. by rewrite Hh.
Qed.

(** The rebuilding loop fills every slot with its expected vector, when
    the provider's answer is long enough. *)
Lemma reconstruct_spec (batch : list string) uncached_indices
    (batch_embeddings : list Vec) :
  (∀ idx, idx ∈ uncached_indices
          ↔ ∃ t, batch !! idx = Some t ∧ hit t = None) →
  (length (uncached_of use_cache cache batch) ≤ length batch_embeddings)%nat →
  ∀ (k n : nat), (n + k)%nat = length batch →
  reconstruct (seq n k) uncached_indices (omap hit batch) batch_embeddings
    (take n (imap (expected_slot use_cache cache batch batch_embeddings) batch)
       ++ repeat None k,
     length (omap hit (take n batch)),
     length (uncached_of use_cache cache (take n batch)))
  = Ok (imap (expected_slot use_cache cache batch batch_embeddings) batch).
Proof.
  intros Hui Hlen. induction k as [|k IH]; intros n Hn; simpl.
  - rewrite app_nil_r, take_ge; [done|]. rewrite length_imap. lia.
  - assert (Hlt : (n < length batch)%nat) by lia.
    destruct (lookup_lt_is_Some_2 batch n Hlt) as [t Ht].
    set (E := imap (expected_slot use_cache cache batch batch_embeddings) batch).
    assert (HE : E !! n = Some (expected_slot use_cache cache batch
                                  batch_embeddings n t)).
    { subst E. rewrite list_lookup_imap, Ht. done. }
    assert (Hins : ∀ x, E !! n = Some x →
              <[n := x]> (take n E ++ None :: repeat None k)
              = take (S n) E ++ repeat None k).
    { intros x Hx. rewrite (take_S_r E n x Hx), <- app_assoc. simpl.
      assert (Hl : length (take n E) = n).
      { rewrite length_take. subst E. rewrite length_imap. lia. }
      rewrite insert_app_r_alt by lia. rewrite Hl, Nat.sub_diag. done. }
    specialize (IH (S n) ltac:(lia)).
    rewrite (hits_take_S batch n t Ht), (uncached_of_take_S batch n t Ht),
      !length_app in IH.
    pose proof (uncached_of_take_le batch (S n)) as Hle.
    rewrite (uncached_of_take_S batch n t Ht), length_app in Hle.
    destruct (hit t) as [v|] eqn:Hh.
    + rewrite bool_decide_eq_false_2.
      2:{ rewrite Hui. intros (t' & Ht' & Hm). congruence. }
      rewrite (hits_lookup batch n t v Ht Hh). rewrite Hins.
      2:{ rewrite HE. unfold expected_slot. by rewrite Hh. }
      case_decide; [done|]. simpl in IH.
      rewrite Nat.add_0_r, Nat.add_1_r in IH. exact IH.
    + rewrite bool_decide_eq_true_2 by (rewrite Hui; eauto).
      case_decide; [|done]. simpl in Hle, IH.
      destruct (lookup_lt_is_Some_2 batch_embeddings
                  (length (uncached_of use_cache cache (take n batch))))
        as [v Hv]; [lia|].
      rewrite Hv. rewrite Hins.
      2:{ rewrite HE. unfold expected_slot. by rewrite Hh, Hv. }
      rewrite Nat.add_0_r, Nat.add_1_r in IH. exact IH.
Qed.

Lemma uncached_of_lookup (batch : list string) idx t :
  batch !! idx = Some t → hit t = None →
  uncached_of use_cache cache batch
    !! length (uncached_of use_cache cache (take idx batch)) = Some t.
Proof.
  intros Ht Hh.
  replace (uncached_of use_cache cache batch)
    with (uncached_of use_cache cache (take idx batch)
          ++ uncached_of use_cache cache (drop idx batch))
    by (by rewrite <- uncached_of_app, take_drop).
  rewrite lookup_app_r by lia. rewrite Nat.sub_diag.
  rewrite (drop_S batch t idx Ht). unfold uncached_of at 1.
  rewrite filter_cons, decide_True by done. done.
Qed.

Lemma expected_slot_is_Some (batch : list string) be idx t :
  (length (uncached_of use_cache cache batch) ≤ length be)%nat →
  batch !! idx = Some t →
  is_Some (expected_slot use_cache cache batch be idx t).
Proof.
  intros Hlen Ht. unfold expected_slot.
  destruct (hit t) eqn:Hh; [done|].
  apply lookup_lt_is_Some_2.
  pose proof (lookup_lt_Some _ _ _ (uncached_of_lookup batch idx t Ht Hh)).
  lia.
Qed.
End SplitBatch.

Lemma all_Some_fmap {A} (l : list (option A)) :
  (∀ i x, l !! i = Some x → is_Some x) → ∃ vs, l = Some <$> vs.
Proof.
  induction l as [|x l IH]; intros Hall.
  - by exists [].
  - destruct (Hall 0%nat x eq_refl) as [v ->].
    destruct IH as [vs ->]; [intros i y Hy; by apply (Hall (S i))|].
    by exists (v :: vs).
Qed.

Section BatchBody.
Variable embed_documents :
  list provider_call -> list string -> option (list Vec).
Hypothesis provider_length :
  ∀ h l vs, embed_documents h l = Some vs → length vs = length l.

Lemma batch_body_spec (batch : list string) (use_cache : bool) (self : t) :
  ∃ self' vs,
    batch_body embed_documents batch use_cache self = (self', Ok (Some <$> vs))
    ∧ length vs = length batch
    ∧ ∀ idx t, batch !! idx = Some t →
        slot_spec embed_documents use_cache self batch idx t (vs !! idx).
Proof.
  set (cache := _embedding_cache self).
  destruct (split_batch_spec use_cache cache batch) as (ui & Hsplit & Hui).
  set (uncached := uncached_of use_cache cache batch).
  (* the vectors handed to the rebuilding loop *)
  set (be := match uncached with
             | [] => []
             | _ => match embed_documents (provider_calls self) uncached with
                    | Some a => a
                    | None => repeat zero_vector (length uncached)
                    end
             end).
  assert (Hbe : (length uncached ≤ length be)%nat).
  { subst be. destruct uncached as [|u us] eqn:Hu; [done|].
    destruct (embed_documents _ _) as [a|] eqn:Ha.
    - by rewrite (provider_length _ _ _ Ha).
    - by rewrite repeat_length. }
  pose proof (reconstruct_spec use_cache cache batch ui be Hui Hbe
                (length batch) 0%nat eq_refl) as Hrec.
  rewrite take_0 in Hrec. simpl in Hrec.
  destruct (all_Some_fmap
              (imap (expected_slot use_cache cache batch be) batch))
    as [vs Hvs].
  { intros i x Hx. rewrite list_lookup_imap in Hx.
    destruct (batch !! i) as [t|] eqn:Ht; [|done]. simpl in Hx.
    injection Hx as <-. by apply expected_slot_is_Some. }
  assert (Hslots : ∀ idx t, batch !! idx = Some t →
            slot_spec embed_documents use_cache self batch idx t (vs !! idx)).
  { intros idx t Ht.
    assert (Hl : Some <$> vs !! idx
                 = Some (expected_slot use_cache cache batch be idx t)).
    { rewrite <- list_lookup_fmap, <- Hvs, list_lookup_imap, Ht. done. }
    unfold slot_spec. fold cache. unfold expected_slot in Hl.
    destruct (cache_hit use_cache cache t) as [v|] eqn:Hh.
    - destruct (vs !! idx); simplify_eq/=. done.
    - pose proof (uncached_of_lookup use_cache cache batch idx t Ht Hh) as Hu.
      split; [done|]. fold uncached in Hu |- *.
      subst be. destruct uncached as [|u us] eqn:Heq; [done|].
      destruct (embed_documents _ _) as [a|] eqn:Ha.
      + destruct (vs !! idx) as [v|] eqn:Hv; simpl in Hl.
        * split; [done|]. congruence.
        * done.
      + destruct (vs !! idx) as [v|] eqn:Hv; simpl in Hl; [|done].
        injection Hl as Hl. symmetry in Hl.
        apply list_elem_of_lookup_2, list_elem_of_In in Hl.
        apply (repeat_spec (length (u :: us))) in Hl. by subst v. }
  assert (Hlen : length vs = length batch).
  { apply (f_equal length) in Hvs. rewrite length_imap, length_fmap in Hvs.
    done. }
  unfold batch_body, bind, get_self. fold cache. rewrite Hsplit.
  fold uncached. subst be.
  destruct uncached as [|u us] eqn:Hu.
  - unfold ret at 1. rewrite Hrec. unfold ret. rewrite Hvs. eauto.
  - unfold try_except, bind, call_embed_documents.
    destruct (embed_documents _ _) as [a|] eqn:Ha.
    + destruct use_cache; unfold cache_fill, ret; simpl;
        rewrite Hrec; unfold ret; rewrite Hvs; eauto.
    + unfold ret. rewrite Hrec, Hvs. eauto.
Qed.
End BatchBody.




Section BatchLoop.
Variable embed_documents :
  list provider_call -> list string -> option (list Vec).

Lemma batch_loop_app s1 s2 texts use_cache batch_size results self :
  batch_loop embed_documents (s1 ++ s2) texts use_cache batch_size results self
  = match batch_loop embed_documents s1 texts use_cache batch_size
            results self with
    | (self', Ok r) =>
        batch_loop embed_documents s2 texts use_cache batch_size r self'
    | (self', Raise e) => (self', Raise e)
    end.
Proof.
  revert results self. induction s1 as [|i s1 IH]; intros results self.
  - reflexivity.
  - simpl. unfold bind.
    destruct (batch_body embed_documents _ use_cache self) as [s' [r|e]];
      [apply IH|reflexivity].
Qed.

Lemma sub_batch_take_drop texts batch_size J :
  0 < batch_size →
  sub_batch texts batch_size J
  = take (Z.to_nat batch_size) (drop (J * Z.to_nat batch_size) texts).
Proof.
  intros Hb. unfold sub_batch. rewrite slice_nonneg by nia.
  f_equal; [nia|]. f_equal. nia.
Qed.

Lemma batch_count_covers (n : nat) (batch_size : Z) :
  0 < batch_size →
  (n ≤ Z.to_nat ((Z.of_nat n + batch_size - 1) / batch_size)
       * Z.to_nat batch_size)%nat.
Proof.
  intros Hb.
  pose proof (Z.div_mod (Z.of_nat n + batch_size - 1) batch_size
                ltac:(lia)) as Hdm.
  pose proof (Z.mod_pos_bound (Z.of_nat n + batch_size - 1) batch_size Hb).
  assert (0 <= (Z.of_nat n + batch_size - 1) / batch_size)
    by (apply Z.div_pos; lia).
  nia.
Qed.

Hypothesis provider_length :
  ∀ h l vs, embed_documents h l = Some vs → length vs = length l.

Lemma batch_loop_prefix (texts : list string) use_cache batch_size self :
  0 < batch_size →
  ∀ J, (J ≤ length (batch_starts (length texts) batch_size))%nat →
  ∃ self' vs,
    batch_loop embed_documents
      (take J (batch_starts (length texts) batch_size))
      texts use_cache batch_size [] self = (self', Ok (Some <$> vs))
    ∧ length vs = length (take (J * Z.to_nat batch_size) texts)
    ∧ ∀ i t, (i < length vs)%nat → texts !! i = Some t →
        let J' := (i / Z.to_nat batch_size)%nat in
        slot_spec embed_documents use_cache
          (state_at_batch embed_documents texts use_cache batch_size self J')
          (sub_batch texts batch_size J')
          (i mod Z.to_nat batch_size) t (vs !! i).
Proof.
  intros Hb. set (b := Z.to_nat batch_size).
  assert (Hbpos : (0 < b)%nat) by lia.
  set (starts := batch_starts (length texts) batch_size).
  assert (Hstarts : ∀ J, (J < length starts)%nat →
            starts !! J = Some (Z.of_nat J * batch_size)).
  { intros J HJ. subst starts. unfold batch_starts in *.
    rewrite range_pos in * by done. simpl in *.
    rewrite length_map, length_seq in HJ.
    rewrite list_lookup_fmap, lookup_seq_lt by done. done. }
  induction J as [|J IH]; intros HJ.
  - exists self, []. simpl. split; [done|]. split; [done|].
    intros i t Hi. simpl in Hi. lia.
  - destruct IH as (sJ & vsJ & Hrun & Hlen & Hslots); [lia|].
    rewrite (take_S_r starts J _ (Hstarts J ltac:(lia))).
    rewrite batch_loop_app, Hrun. simpl. unfold bind.
    fold (sub_batch texts batch_size J).
    destruct (batch_body_spec embed_documents provider_length
                (sub_batch texts batch_size J) use_cache sJ)
      as (s' & vs & Hbody & Hvlen & Hvslots).
    rewrite Hbody. unfold ret.
    exists s', (vsJ ++ vs). rewrite fmap_app. split; [done|].
    assert (Hsb : sub_batch texts batch_size J = take b (drop (J * b) texts))
      by (by apply sub_batch_take_drop).
    split.
    + rewrite length_app, Hlen, Hvlen, Hsb, <- length_app, take_take_drop.
      f_equal. f_equal. lia.
    + intros i t Hi Ht.
      destruct (Nat.lt_ge_cases i (length vsJ)) as [Hold|Hnew].
      * rewrite lookup_app_l by done. by apply Hslots.
      * rewrite lookup_app_r by done.
        rewrite length_app, Hvlen in Hi.
        assert (Hne : (0 < length (sub_batch texts batch_size J))%nat) by lia.
        rewrite Hsb, length_take, length_drop in Hne.
        assert (HlenJ : length vsJ = (J * b)%nat).
        { rewrite Hlen, length_take. lia. }
        assert (Hidx : (i - length vsJ < b)%nat).
        { rewrite Hsb, length_take in Hi. lia. }
        fold b.
        assert (HJ' : (i / b)%nat = J).
        { rewrite HlenJ in *.
          replace i with ((i - J * b) + J * b)%nat by lia.
          rewrite Nat.div_add by lia. rewrite Nat.div_small by lia. done. }
        assert (Hmod : (i mod b = i - length vsJ)%nat).
        { rewrite HlenJ in *.
          replace i with ((i - J * b) + J * b)%nat at 1 by lia.
          rewrite Nat.Div0.mod_add. apply Nat.mod_small. lia. }
        rewrite HJ', Hmod.
        assert (Hst : state_at_batch embed_documents texts use_cache batch_size self J = sJ).
        { unfold state_at_batch. fold starts. by rewrite Hrun. }
        rewrite Hst. apply Hvslots.
        rewrite Hsb, lookup_take_lt by done. rewrite lookup_drop.
        rewrite <- Ht. f_equal. lia.
Qed.
End BatchLoop.

(** C7. With a positive [batch_size] and a provider that answers a
    request with one vector per text or fails, the batch call returns
    normally, with one vector per input text, in input order: the vector
    at position [i] is the one of the text at [i] in its sub-batch, the
    cached vector if the text was in the cache when the sub-batch was
    reached, else the provider's answer for that text, and the zero
    vector of length 768 if the provider's call for the sub-batch failed. *)
Theorem generate_embeddings_batch_ordered_total
    (embed_documents : list provider_call -> list string -> option (list Vec))
    (texts : list string) (use_cache : bool) (batch_size : Z) (self : t) :
  0 < batch_size →
  (∀ h l vs, embed_documents h l = Some vs → length vs = length l) →
  ∃ self' vs,
    generate_embeddings_batch embed_documents texts use_cache batch_size self
    = (self', Ok (Some <$> vs))
    ∧ length vs = length texts
    ∧ length zero_vector = 768%nat
    ∧ Forall (fun x => x = 0%Q) zero_vector
    ∧ ∀ i t, texts !! i = Some t →
        let J := (i / Z.to_nat batch_size)%nat in
        slot_spec embed_documents use_cache
          (state_at_batch embed_documents texts use_cache batch_size self J)
          (sub_batch texts batch_size J)
          (i mod Z.to_nat batch_size) t (vs !! i).
Proof.
  intros Hb Hprov.
  destruct (batch_loop_prefix embed_documents Hprov texts use_cache
              batch_size self Hb
              (length (batch_starts (length texts) batch_size)) ltac:(lia))
    as (self' & vs & Hrun & Hlen & Hslots).
  rewrite take_ge in Hrun by lia.
  assert (Hcover : length vs = length texts).
  { rewrite Hlen, length_take. unfold batch_starts.
    rewrite range_pos by done. simpl. rewrite length_map, length_seq.
    pose proof (batch_count_covers (length texts) batch_size Hb). lia. }
  exists self', vs. split; [|split; [done|split; [|split]]].
  - unfold generate_embeddings_batch. unfold batch_starts in Hrun.
    rewrite range_pos in * by done. exact Hrun.
  - apply repeat_length.
  - apply Forall_forall. intros x Hx. apply list_elem_of_In in Hx.
    by apply repeat_spec in Hx.
  - intros i t Ht. apply Hslots; [|done].
    rewrite Hcover. by eapply lookup_lt_Some.
Qed.


(** C9. For an empty or whitespace-only text, [generate_embedding]
    returns the all-zero vector of length 768 and leaves the generator as
    it was: no request is sent to the provider and the cache is unchanged,
    whatever the cache holds and whether or not [use_cache] is set. *)
Theorem generate_embedding_blank_is_zero_vector
    (embed_query :
       list EmbeddingGenerator.provider_call -> string -> option Vec)
    (text : string) (use_cache : bool) (self : EmbeddingGenerator.t) :
  whitespace_only text →
  EmbeddingGenerator.generate_embedding embed_query text use_cache self
  = (self, Ok EmbeddingGenerator.zero_vector)
  ∧ length EmbeddingGenerator.zero_vector = 768%nat
  ∧ Forall (fun x => x = 0%Q) EmbeddingGenerator.zero_vector.
Proof.
  intros Hws. apply blank_spec in Hws.
  unfold EmbeddingGenerator.generate_embedding. rewrite Hws.
  split; [done|]. split.
  - apply repeat_length.
  - apply Forall_forall. intros x Hx. apply list_elem_of_In in Hx.
    by apply repeat_spec in Hx.
Qed.

(** The theorem at a text of blanks, tab and newline that is also a key
    of the cache, with a provider that would answer. *)
Lemma generate_embedding_blank_is_zero_vector_witness :
  let text := String " " (String "009" (String "010" " ")) in
  let self := EmbeddingGenerator.mk {[ text := [1%Q] ]} [] in
  EmbeddingGenerator.generate_embedding (fun _ _ => Some [2%Q]) text true self
  = (self, Ok EmbeddingGenerator.zero_vector)
  ∧ EmbeddingGenerator.generate_embedding (fun _ _ => Some [2%Q]) "" true self
    = (self, Ok EmbeddingGenerator.zero_vector).
Proof.
  intros text self. split.
  - apply (generate_embedding_blank_is_zero_vector
             (fun _ _ => Some [2%Q]) text true self).
    repeat constructor.
  - apply (generate_embedding_blank_is_zero_vector
             (fun _ _ => Some [2%Q]) "" true self).
    constructor.
Defined.

(** The theorem at five texts in sub-batches of two, the second request
    failing: the text sent in it gets the zero vector, the repeated text
    is served from the cache. *)
Lemma generate_embeddings_batch_ordered_total_witness :
  ∃ self' vs,
    EmbeddingGenerator.generate_embeddings_batch Samples.flaky_provider
      ["a"; "bb"; "a"; "ccc"; "dd"] true 2 (EmbeddingGenerator.mk ∅ [])
    = (self', Ok (Some <$> vs))
    ∧ length vs = 5%nat
    ∧ vs !! 2%nat = Some [1%Q]
    ∧ vs !! 3%nat = Some EmbeddingGenerator.zero_vector.
Proof.
  destruct (generate_embeddings_batch_ordered_total
              Samples.flaky_provider ["a"; "bb"; "a"; "ccc"; "dd"] true 2
              (EmbeddingGenerator.mk ∅ []))
    as (self' & vs & Hrun & Hlen & _ & _ & Hslots).
  - lia.
  - intros h l vs. unfold Samples.flaky_provider.
    destruct (length h =? 1)%nat; [discriminate|].
    intros [= <-]. apply length_map.
  - exists self', vs. split; [exact Hrun|]. split; [exact Hlen|]. split.
    + exact (Hslots 2%nat "a" eq_refl).
    + exact (proj2 (Hslots 3%nat "ccc" eq_refl)).
Defined.

End EmbeddingFacts.

(** ** The chunker's metadata *)

Module ChunkerFacts.
Import DocumentProcessor.

Lemma update_metadata_union doc_metadata metadata :
  update_metadata doc_metadata metadata = supplied metadata ∪ doc_metadata.
Proof.
  unfold update_metadata, supplied, dict_truthy.
  destruct metadata as [m|]; simpl.
  - case_bool_decide; simpl; [|done]. subst m. by rewrite (left_id_L ∅ (∪)).
  - by rewrite (left_id_L ∅ (∪)).
Qed.

Lemma lookup_update_metadata doc_metadata metadata k :
  update_metadata doc_metadata metadata !! k
  = match supplied metadata !! k with
    | Some v => Some v
    | None => doc_metadata !! k
    end.
Proof.
  rewrite update_metadata_union, lookup_union.
  destruct (supplied metadata !! k), (doc_metadata !! k); done.
Qed.

Section WithSplitter.
Variable split_text : string -> list string.
Variable extract_text_from_path : string -> option string.
Variable basename : string -> string.

Lemma process_text_elem text source_label metadata d :
  d ∈ process_text split_text text source_label metadata →
  ∃ idx chunk_text,
    split_text text !! idx = Some chunk_text
    ∧ d = mkDocument chunk_text
            (update_metadata
               (generated_text_metadata source_label idx
                  (length (split_text text)))
               metadata).
Proof.
  unfold process_text. destruct (blank text); [by intros ?%elem_of_nil|].
  intros Hd. apply list_elem_of_fmap in Hd as ([idx chunk] & -> & Hin).
  apply list_elem_of_lookup in Hin as [i Hi].
  rewrite enumerate_from_0, enumerate_from_lookup in Hi.
  destruct (split_text text !! i) as [c|] eqn:Hc; simplify_eq/=.
  eauto.
Qed.

Lemma process_file_elem file_path source_label metadata d :
  d ∈ process_file split_text extract_text_from_path basename
        file_path source_label metadata →
  ∃ text idx chunk_text,
    extract_text_from_path file_path = Some text
    ∧ split_text text !! idx = Some chunk_text
    ∧ d = mkDocument chunk_text
            (update_metadata
               (generated_file_metadata
                  (default (basename file_path) source_label) file_path idx
                  (length (split_text text)))
               metadata).
Proof.
  unfold process_file.
  destruct (extract_text_from_path file_path) as [text|];
    [|by intros ?%elem_of_nil].
  destruct (blank text); [by intros ?%elem_of_nil|].
  intros Hd. apply list_elem_of_fmap in Hd as ([idx chunk] & -> & Hin).
  apply list_elem_of_lookup in Hin as [i Hi].
  rewrite enumerate_from_0, enumerate_from_lookup in Hi.
  destruct (split_text text !! i) as [c|] eqn:Hc; simplify_eq/=.
  do 3 eexists. split; [done|]. split; [done|].
  by destruct source_label.
Qed.

(** C3, as the code has it. Every chunk of [process_text] and of
    [process_file] carries the generated keys overridden by the caller's
    mapping on every key the caller supplies, [source] included: the
    [source] key holds the caller's value when the caller's mapping has
    that key, and the source label (for [process_file] the file's base
    name when no label is given) only when it has not. *)
Theorem chunk_metadata_caller_overrides_all_keys
    (text file_path source_label : string)
    (file_label : option string)
    (caller_metadata : option (gmap string MetaValue)) :
  (∀ d, d ∈ process_text split_text text source_label caller_metadata →
     ∃ idx chunk_text,
       split_text text !! idx = Some chunk_text
       ∧ page_content d = chunk_text
       ∧ (∀ k, metadata d !! k
               = match supplied caller_metadata !! k with
                 | Some v => Some v
                 | None => generated_text_metadata source_label idx
                             (length (split_text text)) !! k
                 end)
       ∧ metadata d !! "source"
         = Some (default (VStr source_label) (supplied caller_metadata !! "source")))
  ∧ (∀ d, d ∈ process_file split_text extract_text_from_path basename
                 file_path file_label caller_metadata →
     ∃ text' idx chunk_text,
       extract_text_from_path file_path = Some text'
       ∧ split_text text' !! idx = Some chunk_text
       ∧ page_content d = chunk_text
       ∧ (∀ k, metadata d !! k
               = match supplied caller_metadata !! k with
                 | Some v => Some v
                 | None => generated_file_metadata
                             (default (basename file_path) file_label)
                             file_path idx (length (split_text text')) !! k
                 end)
       ∧ metadata d !! "source"
         = Some (default (VStr (default (basename file_path) file_label))
                         (supplied caller_metadata !! "source"))).
Proof.
  split.
  - intros d Hd.
    apply process_text_elem in Hd as (idx & chunk & Hc & ->).
    exists idx, chunk. split; [done|]. split; [done|]. simpl. split.
    + intros k. apply lookup_update_metadata.
    + rewrite lookup_update_metadata.
      by destruct (supplied caller_metadata !! "source").
  - intros d Hd.
    apply process_file_elem in Hd as (text' & idx & chunk & He & Hc & ->).
    exists text', idx, chunk. split; [done|]. split; [done|].
    split; [done|]. simpl. split.
    + intros k. apply lookup_update_metadata.
    + rewrite lookup_update_metadata.
      by destruct (supplied caller_metadata !! "source").
Qed.
End WithSplitter.

(** C3 as stated fails: with a [source] key in the caller's metadata the
    chunk's [source] is the caller's value, not the source label. *)
Lemma caller_source_overrides_label :
  let caller : option (gmap string MetaValue) :=
    Some {[ "source" := VStr "Other" ]} in
  (fun d => metadata d !! "source")
    <$> process_text Samples.one_chunk "abc" "Act-A" caller
  = [Some (VStr "Other")]
  ∧ (fun d => metadata d !! "source")
      <$> process_file Samples.one_chunk Samples.read_ok id "a.txt" (Some "Act-A") caller
    = [Some (VStr "Other")]
  ∧ Some (VStr "Other") ≠ Some (VStr "Act-A").
Proof. split; [|split]; [vm_compute; reflexivity..|discriminate]. Qed.

(** The theorem at a caller's mapping that overrides [chunk_index] and
    has no [source] key. *)
Lemma chunk_metadata_caller_overrides_all_keys_witness :
  let caller : option (gmap string MetaValue) :=
    Some {[ "chunk_index" := VInt 7 ]} in
  Forall (fun d => metadata d !! "source" = Some (VStr "Act-A")
                   ∧ metadata d !! "chunk_index" = Some (VInt 7))
         (process_text Samples.one_chunk "abc" "Act-A" caller).
Proof.
  intros caller. apply Forall_forall. intros d Hd.
  destruct (chunk_metadata_caller_overrides_all_keys
              Samples.one_chunk Samples.read_ok id
              "abc" "a.txt" "Act-A" None caller) as [Htext _].
  destruct (Htext d Hd) as (idx & chunk & _ & _ & Hkeys & Hsource).
  split; [exact Hsource|]. rewrite Hkeys. reflexivity.
Defined.

End ChunkerFacts.

(** ** Rank fusion *)

Module MergeFacts.
Import RetrievalSystem Samples.

(** *** The order of binary64 numbers

    The comparisons of the kernel's floats are those of their
    specification, [SFcompare], a lexicographic comparison of sign,
    exponent and mantissa. *)











(** *** The sort *)

Section Sorting.
Context {A : Type} (key : A -> binary64).

Lemma insert_desc_perm x l : Permutation (insert_desc key x l) (x :: l).
Proof.
  induction l as [|y l IH]; simpl; [done|].
  destruct (PrimFloat.ltb (key x) (key y)); [|done].
  rewrite IH. apply perm_swap.
Qed.

Lemma sorted_reverse_perm l : Permutation (sorted_reverse key l) l.
Proof.
  induction l as [|x l IH]; simpl; [done|].
  rewrite insert_desc_perm. by constructor.
Qed.




End Sorting.


(** *** The score dictionary *)






(** *** The document map *)



Lemma elem_of_dict_setitem {V} (k : nat) (v : V) (d : dict nat V) k' v' :
  (k', v') ∈ dict_setitem k v d → (k', v') = (k, v) ∨ (k', v') ∈ d.
Proof.
  induction d as [|[k0 v0] d IH]; simpl.
  - intros ?%list_elem_of_singleton. by left.
  - destruct (decide (k = k0)) as [->|Hne].
    + intros [?|?]%elem_of_cons; [by left|right; by apply list_elem_of_further].
    + intros [->|Hin]%elem_of_cons; [right; apply list_elem_of_here|].
      destruct (IH Hin); [by left|right; by apply list_elem_of_further].
Qed.

Lemma doc_map_items (docs : list DocObj) (doc_map : dict nat DocObj) k d :
  (k, d) ∈ fold_left (fun dm doc => dict_setitem (obj_id doc) doc dm)
                     docs doc_map →
  (obj_id d = k ∧ d ∈ docs) ∨ (k, d) ∈ doc_map.
Proof.
  revert doc_map. induction docs as [|doc docs IH]; intros dm; simpl.
  - by right.
  - intros Hin. destruct (IH _ Hin) as [[? ?]|Hin'].
    + left. split; [done|]. by apply list_elem_of_further.
    + apply elem_of_dict_setitem in Hin' as [[= -> ->]|?]; [|by right].
      left. split; [done|]. apply list_elem_of_here.
Qed.





(** *** On sample data *)


(** Rounding decides the order. With both weights 0.5, the second result
    of three semantic results and the third, found again as the third of
    three keyword results, both score 5/6 in exact arithmetic; the
    binary64 sums differ in the last place, and the third ranks first. *)
Lemma rounding_decides_the_order :
  let scores :=
    merged_scores [MoreSamples.doc_a; MoreSamples.doc_x; MoreSamples.doc_y]
      [MoreSamples.doc_b; MoreSamples.doc_c; MoreSamples.doc_y] 0.5 0.5 in
  PrimFloat.ltb (score_of scores 1) (score_of scores 2) = true
  ∧ _merge_results
      [MoreSamples.doc_a; MoreSamples.doc_x; MoreSamples.doc_y]
      [MoreSamples.doc_b; MoreSamples.doc_c; MoreSamples.doc_y] 0.5 0.5
    = [MoreSamples.doc_a; MoreSamples.doc_y; MoreSamples.doc_x;
       MoreSamples.doc_b; MoreSamples.doc_c].
Proof.
  intros scores. split; vm_compute; reflexivity.
Qed.


End MergeFacts.

(** ** Search and retrieval *)

Module SearchFacts.
Import VectorDatabase RetrievalSystem Samples.

Lemma elem_of_slice {A} (i j : Z) (l : list A) x : x ∈ slice i j l → x ∈ l.
Proof.
  unfold slice. intros Hx.
  eapply subseteq_drop, subseteq_take, Hx.
Qed.

Lemma slice_to_length {A} (k : Z) (l : list A) :
  0 <= k → Z.of_nat (length (slice_to k l)) <= k.
Proof.
  intros Hk. rewrite slice_to_nonneg, length_take by done. lia.
Qed.

Section WithStore.
Variable similarity_search_with_score :
  list request -> string -> Z -> option (gmap string MetaValue) ->
  option (list (DocObj * float)).
Variable findall_words : string -> list string.
Variable lower : string -> string.
Local Abbreviation search_with_scores :=
  (search_with_scores similarity_search_with_score).
Local Abbreviation semantic_search :=
  (semantic_search similarity_search_with_score).
Local Abbreviation _keyword_search :=
  (_keyword_search similarity_search_with_score findall_words lower).
Local Abbreviation hybrid_search :=
  (hybrid_search similarity_search_with_score findall_words lower).
Local Abbreviation search_for :=
  (search_for similarity_search_with_score findall_words lower).
Local Abbreviation retrieve_relevant_regulations :=
  (retrieve_relevant_regulations similarity_search_with_score
     findall_words lower).

(** The store call never raises, and records the request. *)
Lemma search_with_scores_total query k filter_dict self :
  ∃ candidates,
    search_with_scores query k filter_dict self
    = (mk (requests self ++ [mkRequest query k filter_dict]), Ok candidates).
Proof.
  unfold VectorDatabase.search_with_scores.
  destruct (blank query); [by eexists|].
  unfold try_except, call_store, ret.
  destruct (dict_truthy filter_dict);
    destruct (similarity_search_with_score _ _ _ _); by eexists.
Qed.

Lemma semantic_search_nonblank query k min_score filter_dict self :
  blank query = false →
  ∃ candidates,
    search_with_scores query (k * 2) filter_dict self
    = (mk (requests self ++ [mkRequest query (k * 2) filter_dict]),
       Ok candidates)
    ∧ semantic_search query k min_score filter_dict self
      = (mk (requests self ++ [mkRequest query (k * 2) filter_dict]),
         Ok (slice_to k (kept min_score candidates))).
Proof.
  intros Hb.
  destruct (search_with_scores_total query (k * 2) filter_dict self)
    as [candidates Hc].
  exists candidates. split; [done|].
  unfold RetrievalSystem.semantic_search, bind. by rewrite Hb, Hc.
Qed.

Lemma semantic_search_total query k min_score filter_dict self :
  ∃ self' results,
    semantic_search query k min_score filter_dict self = (self', Ok results)
    ∧ (0 <= k → Z.of_nat (length results) <= k).
Proof.
  destruct (blank query) eqn:Hb.
  - exists self, []. unfold RetrievalSystem.semantic_search. rewrite Hb.
    split; [done|]. simpl. lia.
  - destruct (semantic_search_nonblank query k min_score filter_dict self Hb)
      as (candidates & _ & ->).
    do 2 eexists. split; [done|]. apply slice_to_length.
Qed.

Lemma elem_of_kept min_score candidates d :
  d ∈ kept min_score candidates
  ↔ ∃ s, (d, s) ∈ candidates ∧ (min_score <= s)%Q.
Proof.
  unfold kept. rewrite list_elem_of_fmap. split.
  - intros ([d' s] & -> & Hin). apply list_elem_of_filter in Hin as [Hs Hin].
    exists s. split; [done|]. by apply Qle_bool_iff, Is_true_true.
  - intros (s & Hin & Hs). exists (d, s). split; [done|].
    apply list_elem_of_filter. split; [|done].
    by apply Is_true_true, Qle_bool_iff.
Qed.

(** C4, as the code has it. For a query that is neither empty nor white
    space only, [semantic_search] sends exactly one request to the vector
    store, for [2k] candidates with scores and with the given filter,
    keeps the candidates whose score is at least [min_score], and
    returns the slice [[:k]] of them, at most [k] results for [k >= 0].
    When [min_score] exceeds every returned score the result is the empty
    list, returned normally. *)
Theorem semantic_search_requests_filters_truncates
    (query : string) (k : Z) (min_score : float)
    (filter_dict : option (gmap string MetaValue)) (self : VectorDatabase.t) :
  ¬ whitespace_only query →
  ∃ candidates,
    let after := mk (requests self ++ [mkRequest query (k * 2) filter_dict]) in
    let results := slice_to k (kept min_score candidates) in
    search_with_scores query (k * 2) filter_dict self = (after, Ok candidates)
    ∧ semantic_search query k min_score filter_dict self = (after, Ok results)
    ∧ (∀ d, d ∈ results → ∃ s, (d, s) ∈ candidates ∧ (min_score <= s)%Q)
    ∧ (0 <= k →
       results = take (Z.to_nat k) (kept min_score candidates)
       ∧ Z.of_nat (length results) <= k)
    ∧ ((∀ d s, (d, s) ∈ candidates → (s < min_score)%Q) → results = []).
Proof.
  intros Hq. assert (Hb : blank query = false).
  { destruct (blank query) eqn:Hb; [|done]. by apply blank_spec in Hb. }
  destruct (semantic_search_nonblank query k min_score filter_dict self Hb)
    as (candidates & Hstore & Hsearch).
  exists candidates. simpl. split; [done|]. split; [done|].
  split; [|split].
  - intros d Hd. apply elem_of_kept. by eapply elem_of_slice.
  - intros Hk. split; [by apply slice_to_nonneg|by apply slice_to_length].
  - intros Hlow.
    assert (Hnil : kept min_score candidates = []).
    { destruct (kept min_score candidates) as [|d l] eqn:Hkept; [done|].
      assert (Hd : d ∈ kept min_score candidates)
        by (rewrite Hkept; apply list_elem_of_here).
      apply elem_of_kept in Hd as (s & Hin & Hs).
      exfalso. eapply Qlt_not_le; [by eapply Hlow|done]. }
    rewrite Hnil. unfold slice_to, slice. by rewrite drop_nil, take_nil.
Qed.

(** C8. The keyword search of a query with a filter is the semantic
    search of that query with [k = 10], the default [min_score] and the
    same filter: same result, same request to the store, whatever the
    keyword extraction returns. *)
Theorem keyword_search_is_semantic_search
    (query : string) (filter_dict : option (gmap string MetaValue))
    (self : VectorDatabase.t) :
  _keyword_search query filter_dict self
  = semantic_search query 10 0%Q filter_dict self.
Proof. reflexivity. Qed.

Lemma merge_results_subset semantic_results keyword_results sw kw d :
  d ∈ _merge_results semantic_results keyword_results sw kw →
  d ∈ semantic_results ∨ d ∈ keyword_results.
Proof.
  unfold _merge_results. intros Hd.
  apply list_elem_of_fmap in Hd as ([k d'] & -> & Hin).
  rewrite MergeFacts.sorted_reverse_perm in Hin.
  apply MergeFacts.doc_map_items in Hin as [[_ Hin]|Hin].
  - by apply elem_of_app in Hin.
  - by apply elem_of_nil in Hin.
Qed.

Lemma keyword_search_unfold query filter_dict self :
  _keyword_search query filter_dict self
  = semantic_search query 10 0%Q filter_dict self.
Proof. reflexivity. Qed.

(** C6, as the code has it. [hybrid_search] returns normally; every
    document it returns is one of the semantic candidates or one of the
    keyword candidates, and for [k >= 0] it returns at most [k]
    documents. *)
Theorem hybrid_search_within_candidates
    (query : string) (k : Z) (semantic_weight keyword_weight : binary64)
    (filter_dict : option (gmap string MetaValue)) (self : VectorDatabase.t) :
  ∃ self1 semantic_results self2 keyword_results fused,
    semantic_search query (k * 2) 0%Q filter_dict self
    = (self1, Ok semantic_results)
    ∧ _keyword_search query filter_dict self1 = (self2, Ok keyword_results)
    ∧ hybrid_search query k semantic_weight keyword_weight filter_dict self
      = (self2, Ok fused)
    ∧ (∀ d, d ∈ fused → d ∈ semantic_results ∨ d ∈ keyword_results)
    ∧ (0 <= k → Z.of_nat (length fused) <= k).
Proof.
  destruct (semantic_search_total query (k * 2) 0%Q filter_dict self)
    as (self1 & semantic_results & Hsem & _).
  destruct (semantic_search_total query 10 0%Q filter_dict self1)
    as (self2 & keyword_results & Hkw & _).
  exists self1, semantic_results, self2, keyword_results.
  eexists. split; [done|]. split; [done|]. split.
  { unfold RetrievalSystem.hybrid_search, bind.
    rewrite Hsem. rewrite keyword_search_unfold, Hkw. done. }
  split.
  - intros d Hd. eapply merge_results_subset, elem_of_slice, Hd.
  - apply slice_to_length.
Qed.

(** *** Deduplication by source *)

Lemma dedup_loop_spec results regulations seen_sources :
  fst (fold_left dedup_step results (regulations, seen_sources))
  = regulations ++ keep_first seen_sources results.
Proof.
  revert regulations seen_sources.
  induction results as [|doc results IH]; intros regs seen; simpl.
  - by rewrite app_nil_r.
  - case_bool_decide; [apply IH|].
    rewrite IH, <- app_assoc. done.
Qed.

Lemma keep_first_not_seen seen results label :
  label ∈ fst <$> keep_first seen results → label ∉ seen.
Proof.
  revert seen. induction results as [|doc results IH]; intros seen; simpl.
  - by intros ?%elem_of_nil.
  - case_bool_decide as Hs; [apply IH|].
    rewrite fmap_cons. intros [->|Hin]%elem_of_cons; [done|].
    apply IH in Hin. set_solver.
Qed.

Lemma keep_first_NoDup seen results :
  NoDup (fst <$> keep_first seen results).
Proof.
  revert seen. induction results as [|doc results IH]; intros seen; simpl.
  - constructor.
  - case_bool_decide; [apply IH|].
    rewrite fmap_cons. constructor; [|apply IH].
    intros Hin%keep_first_not_seen. set_solver.
Qed.

Lemma keep_first_sublist seen results :
  sublist (keep_first seen results) (regulation_of <$> results).
Proof.
  revert seen. induction results as [|doc results IH]; intros seen; simpl.
  - constructor.
  - case_bool_decide; [by apply sublist_cons|by apply sublist_skip].
Qed.

(** A pair is kept exactly when it comes from the first document of its
    source, and that source was not seen before. *)
Lemma elem_of_keep_first seen results label text :
  (label, text) ∈ keep_first seen results
  ↔ (label ∉ seen)
    ∧ ∃ i doc,
        results !! i = Some doc
        ∧ regulation_of doc = (label, text)
        ∧ ∀ j doc', (j < i)%nat → results !! j = Some doc' →
                    source_of doc' ≠ label.
Proof.
  revert seen. induction results as [|doc0 results IH]; intros seen; simpl.
  - split; [by intros ?%elem_of_nil|]. by intros (_ & i & doc & ? & _).
  - case_bool_decide as Hs.
    + rewrite IH. split.
      * intros (Hl & i & doc & Hi & Hr & Hfirst). split; [done|].
        exists (S i), doc. split; [done|]. split; [done|].
        intros [|j] doc' Hj Hd'; simpl in Hd'.
        -- injection Hd' as <-. congruence.
        -- apply (Hfirst j); [lia|done].
      * intros (Hl & [|i] & doc & Hi & Hr & Hfirst); simpl in Hi.
        -- injection Hi as <-. injection Hr as Hr _. congruence.
        -- split; [done|]. exists i, doc. split; [done|]. split; [done|].
           intros j doc' Hj Hd'. apply (Hfirst (S j)); [lia|done].
    + rewrite elem_of_cons, IH. split.
      * intros [Heq|(Hl & i & doc & Hi & Hr & Hfirst)].
        -- split; [injection Heq as -> _; done|].
           exists 0%nat, doc0. split; [done|]. split; [done|]. lia.
        -- split; [intros ?; apply Hl; by apply elem_of_union_l|].
           exists (S i), doc. split; [done|]. split; [done|].
           intros [|j] doc' Hj Hd'; simpl in Hd'.
           ++ injection Hd' as <-. intros <-. apply Hl.
              by apply elem_of_union_r, elem_of_singleton.
           ++ apply (Hfirst j); [lia|done].
      * intros (Hl & [|i] & doc & Hi & Hr & Hfirst); simpl in Hi.
        -- injection Hi as <-. by left.
        -- right. split.
           ++ pose proof (Hfirst 0%nat doc0 ltac:(lia) eq_refl).
              intros [?|?%elem_of_singleton]%elem_of_union; [done|congruence].
           ++ exists i, doc. split; [done|]. split; [done|].
              intros j doc' Hj Hd'. apply (Hfirst (S j)); [lia|done].
Qed.

Lemma search_for_total query k use_hybrid self :
  ∃ self' results, search_for query k use_hybrid self = (self', Ok results).
Proof.
  unfold RetrievalSystem.search_for. destruct use_hybrid.
  - unfold RetrievalSystem.hybrid_search, bind.
    destruct (semantic_search_total query (k * 2) 0%Q None self)
      as (self1 & sem & -> & _).
    rewrite keyword_search_unfold.
    destruct (semantic_search_total query 10 0%Q None self1)
      as (self2 & kw & -> & _).
    by do 2 eexists.
  - destruct (semantic_search_total query k 0%Q None self)
      as (self1 & sem & -> & _).
    by do 2 eexists.
Qed.

(** C1. [retrieve_relevant_regulations] returns normally a list of
    (label, text) pairs in which no two entries have the same label. For
    a document that is not blank the entries are, in ranked order, those
    of the search results that are the first of their source: a result
    whose source an earlier result has is dropped. *)
Theorem retrieve_no_duplicate_sources
    (user_document : string) (k : Z) (use_hybrid : bool)
    (self : VectorDatabase.t) :
  ∃ self' regulations,
    retrieve_relevant_regulations user_document k use_hybrid self
    = (self', Ok regulations)
    ∧ NoDup (fst <$> regulations)
    ∧ if blank user_document then regulations = [] ∧ self' = self
      else
        ∃ results,
          search_for (query_of user_document) k use_hybrid self
          = (self', Ok results)
          ∧ sublist regulations (regulation_of <$> results)
          ∧ ∀ label text,
              (label, text) ∈ regulations
              ↔ ∃ i doc,
                  results !! i = Some doc
                  ∧ regulation_of doc = (label, text)
                  ∧ ∀ j doc', (j < i)%nat → results !! j = Some doc' →
                              source_of doc' ≠ label.
Proof.
  unfold RetrievalSystem.retrieve_relevant_regulations.
  destruct (blank user_document).
  - exists self, []. split; [done|]. split; [constructor|done].
  - destruct (search_for_total (query_of user_document) k use_hybrid self)
      as (self' & results & Hsearch).
    unfold bind. fold (query_of user_document).
    change (if use_hybrid
            then hybrid_search (query_of user_document) k
                   default_semantic_weight default_keyword_weight None
            else semantic_search (query_of user_document) k 0%Q None)
      with (search_for (query_of user_document) k use_hybrid).
    rewrite Hsearch. unfold ret. rewrite dedup_loop_spec. simpl.
    do 2 eexists. split; [done|]. split; [apply keep_first_NoDup|].
    exists results. split; [done|]. split; [apply keep_first_sublist|].
    intros label text. rewrite elem_of_keep_first. split.
    + by intros [_ ?].
    + intros ?. split; [set_solver|done].
Qed.
End WithStore.


(** *** On sample data *)

(** C4 as stated fails: a query of one blank is not empty, and no
    request is sent for it; the same store answers the query "x". *)
Lemma semantic_search_whitespace_query_sends_no_request :
  " " ≠ ""
  ∧ semantic_search sample_store " " 5 0%Q None (mk []) = (mk [], Ok [])
  ∧ semantic_search sample_store "x" 5 0%Q None (mk [])
    = (mk [mkRequest "x" 10 None], Ok [doc_a1; doc_b; doc_a2]).
Proof. split; [discriminate|]. split; vm_compute; reflexivity. Qed.

(** The theorem at the query "x", [k = 1] and [min_score = 0.85]. *)
Lemma semantic_search_requests_filters_truncates_witness :
  ∃ candidates,
    search_with_scores sample_store "x" 2 None (mk [])
    = (mk [mkRequest "x" 2 None], Ok candidates)
    ∧ semantic_search sample_store "x" 1 (85 # 100)%Q None (mk [])
      = (mk [mkRequest "x" 2 None],
         Ok (slice_to 1 (kept (85 # 100)%Q candidates))).
Proof.
  destruct (semantic_search_requests_filters_truncates
              sample_store "x" 1 (85 # 100)%Q None (mk []))
    as (candidates & Hstore & Hsearch & _).
  - unfold whitespace_only. simpl. inversion 1 as [|? ? Hx _]. discriminate.
  - exists candidates. split; [exact Hstore|exact Hsearch].
Defined.

(** The theorem at the sample store. *)
Lemma keyword_search_is_semantic_search_witness :
  _keyword_search sample_store no_words id "x" None (mk [])
  = (mk [mkRequest "x" 20 None], Ok [doc_a1; doc_b; doc_a2]).
Proof.
  rewrite (keyword_search_is_semantic_search
             sample_store no_words id "x" None (mk [])).
  vm_compute. reflexivity.
Defined.

(** C6 as stated fails for a negative [k]: the slice [[:k]] then drops
    from the end. At [k = -1] the sample store gives the keyword search
    three candidates, the fused list has three, and two are returned:
    more than [k]. *)
Lemma hybrid_search_negative_k_exceeds_k :
  let run :=
    hybrid_search sample_store no_words id "x" (-1)
      default_semantic_weight default_keyword_weight None (mk []) in
  ∃ fused,
    snd run = Ok fused
    ∧ fused = [doc_a1; doc_b]
    ∧ ¬ (Z.of_nat (length fused) <= -1).
Proof.
  intros run. exists [doc_a1; doc_b].
  split; [vm_compute; reflexivity|]. split; [reflexivity|]. simpl. lia.
Qed.

(** The theorem at the sample store, [k = 2]. *)
Lemma hybrid_search_within_candidates_witness :
  ∃ self' fused,
    hybrid_search sample_store no_words id "x" 2
      default_semantic_weight default_keyword_weight None (mk [])
    = (self', Ok fused)
    ∧ Z.of_nat (length fused) <= 2.
Proof.
  destruct (hybrid_search_within_candidates
              sample_store no_words id "x" 2
              default_semantic_weight default_keyword_weight None (mk []))
    as (s1 & sem & s2 & kw & fused & _ & _ & Hrun & _ & Hlen).
  exists s2, fused. split; [exact Hrun|]. apply Hlen. lia.
Defined.

(** The theorem at the sample store: of the three chunks found, the two
    that are first of their source are returned. *)
Lemma retrieve_no_duplicate_sources_witness :
  ∃ self' regulations,
    retrieve_relevant_regulations sample_store no_words id
      "any text" 3 false (mk [])
    = (self', Ok regulations)
    ∧ NoDup (fst <$> regulations)
    ∧ regulations = [(VStr "Act-A", "a1"); (VStr "Act-B", "b")].
Proof.
  destruct (retrieve_no_duplicate_sources
              sample_store no_words id "any text" 3 false (mk []))
    as (self' & regulations & Hrun & Hnd & _).
  exists self', regulations. split; [exact Hrun|]. split; [exact Hnd|].
  assert (Hcomp :
    retrieve_relevant_regulations sample_store no_words id
      "any text" 3 false (mk [])
    = (mk [mkRequest "any text" 6 None],
       Ok [(VStr "Act-A", "a1"); (VStr "Act-B", "b")]))
    by (vm_compute; reflexivity).
  rewrite Hcomp in Hrun. by injection Hrun as _ <-.
Defined.

End SearchFacts.

(** ** More on the embedding generator *)

Module EmbeddingMoreFacts.
Import EmbeddingGenerator EmbeddingGeneratorOps EmbeddingFacts.

Section SingleText.
Variable embed_query : list provider_call -> string -> option Vec.
Local Abbreviation generate_embedding := (generate_embedding embed_query).

(** X1. A text that is not blank and not in the cache is sent to the
    provider once; the answer is returned and stored under the text, and
    a second call with the same text returns the same vector from the
    cache, without a request, whatever the provider would answer then. *)
Theorem generate_embedding_miss_then_hit
    (text : string) (v : Vec) (self : t) :
  ¬ whitespace_only text →
  _embedding_cache self !! text = None →
  embed_query (provider_calls self) text = Some v →
  let self1 := mk (<[text := v]> (_embedding_cache self))
                  (provider_calls self ++ [EmbedQuery text]) in
  generate_embedding text true self = (self1, Ok v)
  ∧ generate_embedding text true self1 = (self1, Ok v).
Proof.
  intros Hq Hmiss Hans self1.
  assert (Hb : blank text = false).
  { destruct (blank text) eqn:Hb; [|done]. by apply blank_spec in Hb. }
  unfold EmbeddingGenerator.generate_embedding. rewrite Hb.
  unfold_monad. unfold cache_hit, call_embed_query, cache_store. split.
  - rewrite Hmiss, Hans. done.
  - subst self1. simpl. by rewrite lookup_insert_eq.
Qed.

(** X2. When the provider fails on a text that is not blank and not
    served from the cache, the call returns the zero vector normally and
    stores nothing: the cache is as before, so a later call asks the
    provider again. *)
Theorem generate_embedding_failure_is_zero_and_not_cached
    (text : string) (use_cache : bool) (self : t) :
  ¬ whitespace_only text →
  cache_hit use_cache (_embedding_cache self) text = None →
  embed_query (provider_calls self) text = None →
  generate_embedding text use_cache self
  = (mk (_embedding_cache self) (provider_calls self ++ [EmbedQuery text]),
     Ok zero_vector).
Proof.
  intros Hq Hmiss Hans.
  assert (Hb : blank text = false).
  { destruct (blank text) eqn:Hb; [|done]. by apply blank_spec in Hb. }
  unfold EmbeddingGenerator.generate_embedding. rewrite Hb.
  unfold_monad. unfold call_embed_query. by rewrite Hmiss, Hans.
Qed.

(** X3. With [use_cache] off the cache is neither read nor written: a
    text that is not blank is sent to the provider even when the cache
    holds a vector for it, the answer (the zero vector on failure) is
    returned, and the cache is unchanged. *)
Theorem generate_embedding_without_cache_bypasses_it
    (text : string) (self : t) :
  ¬ whitespace_only text →
  generate_embedding text false self
  = (mk (_embedding_cache self) (provider_calls self ++ [EmbedQuery text]),
     Ok (default zero_vector (embed_query (provider_calls self) text))).
Proof.
  intros Hq.
  assert (Hb : blank text = false).
  { destruct (blank text) eqn:Hb; [|done]. by apply blank_spec in Hb. }
  unfold EmbeddingGenerator.generate_embedding. rewrite Hb.
  unfold_monad. unfold call_embed_query. simpl.
  by destruct (embed_query (provider_calls self) text).
Qed.
End SingleText.


(** *** Batches *)

(** X4. A [batch_size] that is not positive breaks the batch call: with
    0 it raises [ValueError] (from [range]), and with a negative one the
    loop does not run and the empty list is returned, whatever the texts;
    in both cases nothing is sent to the provider and the cache is
    unchanged. *)
Theorem generate_embeddings_batch_nonpositive_batch_size
    (embed_documents : list provider_call -> list string -> option (list Vec))
    (texts : list string) (use_cache : bool) (batch_size : Z) (self : t) :
  batch_size <= 0 →
  generate_embeddings_batch embed_documents texts use_cache batch_size self
  = (self, if batch_size =? 0 then Raise ValueError else Ok []).
Proof.
  intros Hb. unfold generate_embeddings_batch, range.
  destruct (Z.eqb_spec batch_size 0) as [->|Hne]; [done|].
  destruct (Z.ltb_spec 0 batch_size); [lia|].
  set (q := (0 - Z.of_nat (length texts) - batch_size - 1) / - batch_size).
  assert (Hq : q < 1).
  { apply Z.div_lt_upper_bound; lia. }
  replace (Z.to_nat q) with 0%nat by lia. done.
Qed.

Section BatchInvariant.
Variable embed_documents :
  list provider_call -> list string -> option (list Vec).
Variables (texts : list string) (use_cache : bool) (batch_size : Z).
Hypothesis batch_size_pos : 0 < batch_size.
Local Abbreviation starts := (batch_starts (length texts) batch_size).

Lemma batch_starts_lookup J :
  (J < length starts)%nat → starts !! J = Some (Z.of_nat J * batch_size).
Proof.
  unfold batch_starts. rewrite range_pos by done. simpl.
  rewrite length_map, length_seq. intros HJ.
  by rewrite list_lookup_fmap, lookup_seq_lt.
Qed.

Lemma batch_starts_cover :
  (length texts ≤ length starts * Z.to_nat batch_size)%nat.
Proof.
  unfold batch_starts. rewrite range_pos by done. simpl.
  rewrite length_map, length_seq. by apply batch_count_covers.
Qed.

Lemma generate_embeddings_batch_is_loop self :
  generate_embeddings_batch embed_documents texts use_cache batch_size self
  = batch_loop embed_documents starts texts use_cache batch_size [] self.
Proof.
  unfold generate_embeddings_batch, batch_starts.
  by rewrite range_pos by done.
Qed.

(** A property of the generator and of the results so far that every
    sub-batch carries one step further holds when the loop ends. *)
Lemma batch_loop_invariant (P : nat → t → list (option Vec) → Prop) self :
  P 0%nat self [] →
  (∀ J s r, (J < length starts)%nat → P J s r →
     ∃ s' r',
       batch_body embed_documents (sub_batch texts batch_size J) use_cache s
       = (s', Ok r')
       ∧ P (S J) s' (r ++ r')) →
  ∃ s r,
    batch_loop embed_documents starts texts use_cache batch_size [] self
    = (s, Ok r)
    ∧ P (length starts) s r.
Proof.
  intros H0 Hstep.
  assert (Hprefix : ∀ J, (J ≤ length starts)%nat →
            ∃ s r,
              batch_loop embed_documents (take J starts) texts use_cache
                         batch_size [] self = (s, Ok r)
              ∧ P J s r).
  { induction J as [|J IH]; intros HJ.
    - by exists self, [].
    - destruct IH as (s & r & Hrun & HP); [lia|].
      rewrite (take_S_r starts J _ (batch_starts_lookup J ltac:(lia))).
      rewrite batch_loop_app, Hrun. simpl. unfold bind.
      fold (sub_batch texts batch_size J).
      destruct (Hstep J s r ltac:(lia) HP) as (s' & r' & -> & HP').
      by exists s', (r ++ r'). }
  destruct (Hprefix (length starts) ltac:(lia)) as (s & r & Hrun & HP).
  rewrite take_ge in Hrun by lia. eauto.
Qed.
End BatchInvariant.

Section BatchCache.
Variable embed_documents :
  list provider_call -> list string -> option (list Vec).

(** A sub-batch whose texts are all in the cache is served from it. *)
Lemma batch_body_all_cached (batch : list string) (self : t) :
  (∀ t, t ∈ batch → is_Some (_embedding_cache self !! t)) →
  batch_body embed_documents batch true self
  = (self, Ok ((fun t => _embedding_cache self !! t) <$> batch)).
Proof.
  intros Hall. set (cache := _embedding_cache self).
  destruct (split_batch_spec true cache batch) as (ui & Hsplit & Hui).
  assert (Hnone : uncached_of true cache batch = []).
  { destruct (uncached_of true cache batch) as [|t l] eqn:Hu; [done|].
    assert (Ht : t ∈ uncached_of true cache batch)
      by (rewrite Hu; apply list_elem_of_here).
    apply list_elem_of_filter in Ht as [Hmiss Ht]. simpl in Hmiss.
    destruct (Hall t Ht) as [v Hv]. fold cache in Hv. congruence. }
  pose proof (reconstruct_spec true cache batch ui [] Hui
                ltac:(rewrite Hnone; done) (length batch) 0%nat eq_refl)
    as Hrec.
  rewrite take_0 in Hrec. simpl in Hrec.
  unfold batch_body, bind, get_self. fold cache. rewrite Hsplit, Hnone.
  unfold ret at 1. rewrite Hrec. unfold ret. f_equal. f_equal.
  apply list_eq. intros i. rewrite list_lookup_imap, list_lookup_fmap.
  destruct (batch !! i) as [t|] eqn:Ht; [|done]. simpl. f_equal.
  unfold expected_slot. simpl.
  destruct (Hall t) as [v Hv]; [by eapply list_elem_of_lookup_2|].
  fold cache in Hv. by rewrite Hv.
Qed.

Lemma elem_of_sub_batch (texts : list string) batch_size J t :
  0 < batch_size → t ∈ sub_batch texts batch_size J → t ∈ texts.
Proof.
  intros Hb. rewrite sub_batch_take_drop by done. intros Ht.
  eapply subseteq_drop, subseteq_take, Ht.
Qed.

Lemma all_cached_run (texts : list string) (batch_size : Z) (self : t) :
  0 < batch_size →
  (∀ t, t ∈ texts → is_Some (_embedding_cache self !! t)) →
  generate_embeddings_batch embed_documents texts true batch_size self
  = (self, Ok ((fun t => _embedding_cache self !! t) <$> texts)).
Proof.
  intros Hb Hall. rewrite generate_embeddings_batch_is_loop by done.
  set (b := Z.to_nat batch_size).
  destruct (batch_loop_invariant embed_documents texts true batch_size Hb
              (fun J s r =>
                 s = self
                 ∧ r = (fun t => _embedding_cache self !! t)
                         <$> take (J * b) texts) self)
    as (s & r & Hrun & -> & ->).
  - done.
  - intros J s r HJ [-> ->].
    exists self. eexists. split.
    + apply batch_body_all_cached. intros t Ht.
      by eapply Hall, elem_of_sub_batch.
    + split; [done|]. rewrite sub_batch_take_drop by done. fold b.
      rewrite <- fmap_app, take_take_drop. f_equal. f_equal. lia.
  - rewrite Hrun. f_equal. f_equal. f_equal. apply take_ge.
    pose proof (batch_starts_cover texts batch_size Hb). by fold b in H.
Qed.

(** X5. When every text is in the cache, the batch call with
    [use_cache] on sends nothing to the provider and changes nothing: it
    returns the cached vectors, in input order. *)
Theorem generate_embeddings_batch_all_cached
    (texts : list string) (batch_size : Z) (self : t) :
  0 < batch_size →
  (∀ t, t ∈ texts → is_Some (_embedding_cache self !! t)) →
  generate_embeddings_batch embed_documents texts true batch_size self
  = (self, Ok ((fun t => _embedding_cache self !! t) <$> texts)).
Proof. apply all_cached_run. Qed.

Lemma cache_fill_lookup (ps : list (string * Vec)) (c : gmap string Vec) t :
  is_Some (fold_left (fun c '(text, embedding) => <[text := embedding]> c)
                     ps c !! t)
  ↔ is_Some (c !! t) ∨ t ∈ fst <$> ps.
Proof.
  revert c. induction ps as [|[t' e] ps IH]; intros c; simpl.
  - split; [by left|]. intros [?|Hin]; [done|]. by apply elem_of_nil in Hin.
  - rewrite IH, lookup_insert, elem_of_cons.
    destruct (decide (t' = t)) as [->|Hne]; simpl.
    + split; [intros _; right; by left|intros _; by left].
    + split.
      * intros [?|?]; [by left|right; by right].
      * intros [?|[?|?]]; [by left|congruence|by right].
Qed.

Lemma fst_combine_le {A B} (l : list A) (k : list B) :
  (length l ≤ length k)%nat → fst <$> combine l k = l.
Proof.
  revert k. induction l as [|x l IH]; intros [|y k] Hlen; simpl in *;
    [done|done|lia|].
  rewrite IH; [done|lia].
Qed.

Lemma batch_body_warms (batch : list string) (self : t) :
  reliable embed_documents →
  ∃ self' r,
    batch_body embed_documents batch true self = (self', Ok r)
    ∧ (∀ t, is_Some (_embedding_cache self !! t) →
            is_Some (_embedding_cache self' !! t))
    ∧ (∀ t, t ∈ batch → is_Some (_embedding_cache self' !! t)).
Proof.
  intros Hrel. set (cache := _embedding_cache self).
  destruct (split_batch_spec true cache batch) as (ui & Hsplit & Hui).
  set (uncached := uncached_of true cache batch).
  assert (Hcases : ∀ t, t ∈ batch → is_Some (cache !! t) ∨ t ∈ uncached).
  { intros t Ht. destruct (cache !! t) eqn:Hc; [by left|right].
    apply list_elem_of_filter. by split. }
  unfold batch_body, bind, get_self. fold cache. rewrite Hsplit.
  fold uncached. destruct uncached as [|u us] eqn:Hu.
  - pose proof (reconstruct_spec true cache batch ui [] Hui
                  ltac:(fold uncached; rewrite Hu; done)
                  (length batch) 0%nat eq_refl) as Hrec.
    rewrite take_0 in Hrec. simpl in Hrec.
    unfold ret at 1. rewrite Hrec. unfold ret.
    do 2 eexists. split; [done|]. split; [done|].
    intros t Ht. destruct (Hcases t Ht) as [?|Hin]; [done|].
    by apply elem_of_nil in Hin.
  - destruct (Hrel (provider_calls self) (u :: us)) as (vs & Hans & Hlen).
    pose proof (reconstruct_spec true cache batch ui vs Hui
                  ltac:(fold uncached; rewrite Hu, Hlen; done)
                  (length batch) 0%nat eq_refl) as Hrec.
    rewrite take_0 in Hrec. simpl in Hrec.
    unfold try_except, bind, call_embed_documents. rewrite Hans.
    unfold cache_fill, ret. cbn [_embedding_cache provider_calls].
    rewrite Hrec.
    do 2 eexists. split; [done|]. cbn [_embedding_cache]. split.
    + intros t Ht. apply cache_fill_lookup. by left.
    + intros t Ht. apply cache_fill_lookup.
      rewrite fst_combine_le by (rewrite Hlen; done).
      destruct (Hcases t Ht); [by left|by right].
Qed.

(** X6. With a provider that answers every request, a batch call with
    [use_cache] on leaves every input text in the cache, so that the same
    call made again sends nothing to the provider, changes nothing and
    returns the cached vectors. *)
Theorem generate_embeddings_batch_warms_cache
    (texts : list string) (batch_size : Z) (self : t) :
  0 < batch_size →
  reliable embed_documents →
  ∃ self1 r,
    generate_embeddings_batch embed_documents texts true batch_size self
    = (self1, Ok r)
    ∧ (∀ t, t ∈ texts → is_Some (_embedding_cache self1 !! t))
    ∧ generate_embeddings_batch embed_documents texts true batch_size self1
      = (self1, Ok ((fun t => _embedding_cache self1 !! t) <$> texts)).
Proof.
  intros Hb Hrel. rewrite generate_embeddings_batch_is_loop by done.
  set (b := Z.to_nat batch_size).
  destruct (batch_loop_invariant embed_documents texts true batch_size Hb
              (fun J s r =>
                 ∀ t, t ∈ take (J * b) texts →
                      is_Some (_embedding_cache s !! t)) self)
    as (s & r & Hrun & Hall).
  - intros t Ht. by apply elem_of_nil in Ht.
  - intros J s r HJ HP.
    destruct (batch_body_warms (sub_batch texts batch_size J) s Hrel)
      as (s' & r' & Hbody & Hmono & Hnew).
    exists s', r'. split; [done|]. intros t Ht.
    replace (S J * b)%nat with (J * b + b)%nat in Ht by lia.
    rewrite <- take_take_drop in Ht. apply elem_of_app in Ht as [Ht|Ht].
    + by apply Hmono, HP.
    + apply Hnew. by rewrite sub_batch_take_drop.
  - assert (Hall' : ∀ t, t ∈ texts → is_Some (_embedding_cache s !! t)).
    { intros t Ht. apply Hall. rewrite take_ge; [done|].
      pose proof (batch_starts_cover texts batch_size Hb). by fold b in H. }
    exists s, r. split; [done|]. split; [done|].
    by apply all_cached_run.
Qed.
End BatchCache.

(** X7. [clear_cache] empties the cache and keeps the record of the
    requests sent: the size is 0 afterwards, and a text that is not
    blank, cached or not before, is sent to the provider again. *)
Theorem clear_cache_forgets_every_text
    (embed_query : list provider_call -> string -> option Vec)
    (text : string) (self : t) :
  ¬ whitespace_only text →
  let cleared := fst (clear_cache self) in
  get_cache_size cleared = 0
  ∧ provider_calls cleared = provider_calls self
  ∧ provider_calls (fst (generate_embedding embed_query text true cleared))
    = provider_calls self ++ [EmbedQuery text].
Proof.
  intros Hq cleared.
  assert (Hb : blank text = false).
  { destruct (blank text) eqn:Hb; [|done]. by apply blank_spec in Hb. }
  split; [done|]. split; [done|].
  unfold generate_embedding. rewrite Hb. unfold_monad.
  unfold call_embed_query, cache_store, cache_hit. simpl.
  rewrite lookup_empty.
  by destruct (embed_query (provider_calls cleared) text).
Qed.

(** *** On sample data *)

Lemma abc_not_blank : ¬ whitespace_only "abc".
Proof. unfold whitespace_only. simpl. inversion 1. discriminate. Qed.

Lemma generate_embedding_miss_then_hit_witness :
  let self1 := mk {[ "abc" := [3%Q] ]} [EmbedQuery "abc"] in
  generate_embedding MoreSamples.length_provider "abc" true (mk ∅ [])
  = (self1, Ok [3%Q])
  ∧ generate_embedding MoreSamples.length_provider "abc" true self1
    = (self1, Ok [3%Q]).
Proof.
  exact (generate_embedding_miss_then_hit MoreSamples.length_provider
           "abc" [3%Q] (mk ∅ []) abc_not_blank eq_refl eq_refl).
Defined.

Lemma generate_embedding_failure_is_zero_and_not_cached_witness :
  generate_embedding (fun _ _ => None) "abc" true (mk ∅ [])
  = (mk ∅ [EmbedQuery "abc"], Ok zero_vector).
Proof.
  exact (generate_embedding_failure_is_zero_and_not_cached
           (fun _ _ => None) "abc" true (mk ∅ [])
           abc_not_blank eq_refl eq_refl).
Defined.

Lemma generate_embedding_without_cache_bypasses_it_witness :
  generate_embedding MoreSamples.length_provider "abc" false
                     (mk {[ "abc" := [7%Q] ]} [])
  = (mk {[ "abc" := [7%Q] ]} [EmbedQuery "abc"], Ok [3%Q]).
Proof.
  exact (generate_embedding_without_cache_bypasses_it
           MoreSamples.length_provider "abc" (mk {[ "abc" := [7%Q] ]} [])
           abc_not_blank).
Defined.

Lemma generate_embeddings_batch_nonpositive_batch_size_witness :
  generate_embeddings_batch Samples.flaky_provider ["a"; "b"] true 0 (mk ∅ [])
  = (mk ∅ [], Raise ValueError)
  ∧ generate_embeddings_batch Samples.flaky_provider ["a"; "b"] true (-3)
                              (mk ∅ [])
    = (mk ∅ [], Ok []).
Proof.
  split.
  - apply (generate_embeddings_batch_nonpositive_batch_size
             Samples.flaky_provider ["a"; "b"] true 0 (mk ∅ [])). lia.
  - apply (generate_embeddings_batch_nonpositive_batch_size
             Samples.flaky_provider ["a"; "b"] true (-3) (mk ∅ [])). lia.
Defined.

Lemma generate_embeddings_batch_all_cached_witness :
  let self := mk (<["a" := [1%Q]]> (<["b" := [2%Q]]> ∅)) [] in
  generate_embeddings_batch (fun _ _ => None) ["a"; "b"; "a"] true 2 self
  = (self, Ok [Some [1%Q]; Some [2%Q]; Some [1%Q]]).
Proof.
  intros self.
  refine (generate_embeddings_batch_all_cached (fun _ _ => None)
            ["a"; "b"; "a"] 2 self _ _); [lia|].
  intros t Ht.
  repeat (apply elem_of_cons in Ht as [->|Ht]); try (by eexists).
  by apply elem_of_nil in Ht.
Defined.

Lemma generate_embeddings_batch_warms_cache_witness :
  ∃ self1 r,
    generate_embeddings_batch MoreSamples.length_documents
      ["a"; "bb"; "a"] true 2 (mk ∅ [])
    = (self1, Ok r)
    ∧ generate_embeddings_batch MoreSamples.length_documents
        ["a"; "bb"; "a"] true 2 self1
      = (self1, Ok ((fun t => _embedding_cache self1 !! t)
                      <$> ["a"; "bb"; "a"])).
Proof.
  destruct (generate_embeddings_batch_warms_cache MoreSamples.length_documents
              ["a"; "bb"; "a"] 2 (mk ∅ []))
    as (self1 & r & Hrun & _ & Hagain).
  - lia.
  - intros h l. eexists. split; [reflexivity|]. apply length_map.
  - by exists self1, r.
Defined.

Lemma clear_cache_forgets_every_text_witness :
  let self := mk {[ "abc" := [7%Q] ]} [] in
  get_cache_size (fst (clear_cache self)) = 0
  ∧ provider_calls
      (fst (generate_embedding MoreSamples.length_provider "abc" true
              (fst (clear_cache self))))
    = [EmbedQuery "abc"].
Proof.
  intros self.
  destruct (clear_cache_forgets_every_text MoreSamples.length_provider
              "abc" self abc_not_blank) as (Hsize & _ & Hcalls).
  split; [exact Hsize|exact Hcalls].
Defined.

End EmbeddingMoreFacts.

(** ** More on the cache manager *)

Module CacheMoreFacts.
Import CacheManager CacheManagerFacts.

Section FifoSet.
Context {K V : Type} `{EqDecision K}.
Implicit Types (d : dict K V) (k : K) (v : V).

Lemma dict_keys_setitem_gen k v d :
  dict_keys (dict_setitem k v d)
  = if decide (k ∈ dict_keys d) then dict_keys d else dict_keys d ++ [k].
Proof.
  induction d as [|[k' v'] d IH].
  - reflexivity.
  - change (dict_keys ((k', v') :: d)) with (k' :: dict_keys d).
    simpl dict_setitem.
    destruct (decide (k = k')) as [->|Hne].
    + rewrite decide_True by apply list_elem_of_here. done.
    + change (dict_keys ((k', v') :: dict_setitem k v d))
        with (k' :: dict_keys (dict_setitem k v d)).
      rewrite IH. destruct (decide (k ∈ dict_keys d)) as [Hin|Hnin].
      * by rewrite decide_True by (by apply list_elem_of_further).
      * rewrite decide_False; [done|].
        intros [?|?]%elem_of_cons; done.
Qed.

(** A store returns its value under the key, and keeps every other
    entry but the evicted one. *)
Lemma fifo_set_lookup bound k v d d' :
  fifo_set bound k v d = Some d' →
  dict_get k d' = Some v
  ∧ ∀ k', k' ≠ k →
      ¬ (bound <= dict_len d ∧ dict_first_key d = Some k') →
      dict_get k' d' = dict_get k' d.
Proof.
  unfold fifo_set, dict_len.
  destruct (Z.geb_spec (Z.of_nat (length d)) bound) as [Hge|Hlt].
  - destruct d as [|[k0 v0] d0]; [done|]. intros [= <-].
    split; [apply dict_get_setitem_eq|].
    intros k' Hne Hfirst. rewrite dict_get_setitem_ne by done. simpl.
    rewrite decide_False; [done|]. intros ->. apply Hfirst. done.
  - intros [= <-]. split; [apply dict_get_setitem_eq|].
    intros k' Hne _. by rewrite dict_get_setitem_ne.
Qed.

(** At the bound, storing under a key that is present, and not the
    oldest, still deletes the oldest entry. *)
Lemma fifo_set_update_at_bound bound k v d k0 :
  NoDup (dict_keys d) →
  dict_len d = bound →
  dict_first_key d = Some k0 → k0 ≠ k → k ∈ dict_keys d →
  ∃ d',
    fifo_set bound k v d = Some d'
    ∧ dict_keys d' = tail (dict_keys d)
    ∧ dict_len d' = bound - 1
    ∧ dict_get k0 d' = None
    ∧ dict_get k d' = Some v.
Proof.
  intros Hnd Hlen Hfirst Hne Hin. unfold fifo_set.
  destruct (Z.geb_spec (dict_len d) bound); [|lia].
  destruct d as [|[k0' v0] d0]; [done|]. injection Hfirst as ->.
  change (dict_keys ((k0, v0) :: d0)) with (k0 :: dict_keys d0) in *.
  apply NoDup_cons in Hnd as [Hk0 Hnd].
  apply elem_of_cons in Hin as [->|Hin]; [done|].
  eexists. split; [done|].
  assert (Hkeys : dict_keys (dict_setitem k v d0) = dict_keys d0).
  { rewrite dict_keys_setitem_gen. by rewrite decide_True. }
  split; [done|]. split; [|split].
  - unfold dict_len in *. apply (f_equal (@length _)) in Hkeys.
    unfold dict_keys in Hkeys. rewrite !length_map in Hkeys.
    simpl in Hlen. lia.
  - apply dict_get_None. by rewrite Hkeys.
  - apply dict_get_setitem_eq.
Qed.
End FifoSet.

Section WithHash.
Variable md5_hexdigest : string -> string.
Local Abbreviation key := (_generate_key md5_hexdigest).

(** X8. With a bound of at least 1, a setter never raises and the
    getter then returns the value stored, for the text and for every text
    with the same key; every other entry of the namespace is still
    returned as before, except the oldest one when the namespace was
    full; the other namespaces are untouched. *)
Theorem set_then_get
    (text : string) (embedding : Vec) (results : list Document) (self : t) :
  1 <= max_size self →
  let se := set_embedding md5_hexdigest text embedding self in
  let ss := set_search_result md5_hexdigest text results self in
  (snd se = Ok tt
   ∧ (∀ text', key text' = key text →
               get_embedding md5_hexdigest (fst se) text' = Some embedding)
   ∧ (∀ text', key text' ≠ key text →
        ¬ (max_size self <= dict_len (_embedding_cache self)
           ∧ dict_first_key (_embedding_cache self) = Some (key text')) →
        get_embedding md5_hexdigest (fst se) text'
        = get_embedding md5_hexdigest self text')
   ∧ _search_cache (fst se) = _search_cache self
   ∧ _regulation_cache (fst se) = _regulation_cache self)
  ∧ (snd ss = Ok tt
     ∧ (∀ text', key text' = key text →
                 get_search_result md5_hexdigest (fst ss) text' = Some results)
     ∧ (∀ text', key text' ≠ key text →
          ¬ (max_size self <= dict_len (_search_cache self)
             ∧ dict_first_key (_search_cache self) = Some (key text')) →
          get_search_result md5_hexdigest (fst ss) text'
          = get_search_result md5_hexdigest self text')
     ∧ _embedding_cache (fst ss) = _embedding_cache self
     ∧ _regulation_cache (fst ss) = _regulation_cache self).
Proof.
  intros Hm se ss. split.
  - subst se. rewrite set_embedding_fifo.
    destruct (fifo_set_is_Some (max_size self) (key text) embedding
                (_embedding_cache self) Hm) as [c Hc].
    rewrite Hc. simpl. apply fifo_set_lookup in Hc as [Hget Hother].
    split; [done|]. unfold get_embedding. simpl. split; [|split; [|done]].
    + intros text' ->. done.
    + intros text' Hne Hfirst. by apply Hother.
  - subst ss. rewrite set_search_result_fifo.
    destruct (fifo_set_is_Some (max_size self) (key text) results
                (_search_cache self) Hm) as [c Hc].
    rewrite Hc. simpl. apply fifo_set_lookup in Hc as [Hget Hother].
    split; [done|]. unfold get_search_result. simpl.
    split; [|split; [|done]].
    + intros text' ->. done.
    + intros text' Hne Hfirst. by apply Hother.
Qed.

Lemma do_set_zero_bound op (bound : Z) :
  bound <= 0 →
  do_set md5_hexdigest op (__init__ bound)
  = (__init__ bound, Raise StopIteration).
Proof.
  intros Hb. destruct op as [text e|query r]; simpl.
  - rewrite set_embedding_fifo. unfold fifo_set, dict_len.
    cbn [__init__ max_size _embedding_cache length Z.of_nat].
    destruct (Z.geb_spec (Z.of_nat 0) bound) as [|Hlt];
      [reflexivity|simpl in Hlt; lia].
  - rewrite set_search_result_fifo. unfold fifo_set, dict_len.
    cbn [__init__ max_size _search_cache length Z.of_nat].
    destruct (Z.geb_spec (Z.of_nat 0) bound) as [|Hlt];
      [reflexivity|simpl in Hlt; lia].
Qed.

(** X9. A manager built with a bound that is not positive caches
    nothing: every setter call raises [StopIteration] (there is no oldest
    entry to evict) and the manager stays empty. *)
Theorem nonpositive_bound_caches_nothing (bound : Z) (ops : list set_op) :
  bound <= 0 →
  run_sets md5_hexdigest ops (__init__ bound) = __init__ bound
  ∧ Forall (fun r => r = Raise StopIteration)
           (outcomes md5_hexdigest ops (__init__ bound)).
Proof.
  intros Hb. induction ops as [|op ops [IHrun IHout]].
  - split; [done|constructor].
  - unfold run_sets in *. simpl. rewrite do_set_zero_bound by done. simpl.
    split; [done|]. by constructor.
Qed.

(** X10. Storing under a key that is already present does not spare
    the oldest entry: in a full namespace (keys distinct, as in any
    dictionary) whose oldest key is another one, the setter deletes the
    oldest entry and updates the present one in place, so the namespace
    ends one entry below the bound. *)
Theorem update_in_full_cache_evicts_oldest
    (text : string) (embedding : Vec) (self : t) (oldest : string) :
  NoDup (dict_keys (_embedding_cache self)) →
  dict_len (_embedding_cache self) = max_size self →
  dict_first_key (_embedding_cache self) = Some oldest →
  oldest ≠ key text →
  key text ∈ dict_keys (_embedding_cache self) →
  let self' := fst (set_embedding md5_hexdigest text embedding self) in
  snd (set_embedding md5_hexdigest text embedding self) = Ok tt
  ∧ dict_keys (_embedding_cache self')
    = tail (dict_keys (_embedding_cache self))
  ∧ dict_len (_embedding_cache self') = max_size self - 1
  ∧ dict_get oldest (_embedding_cache self') = None
  ∧ get_embedding md5_hexdigest self' text = Some embedding.
Proof.
  intros Hnd Hlen Hfirst Hne Hin self'. subst self'.
  rewrite set_embedding_fifo.
  destruct (fifo_set_update_at_bound (max_size self) (key text) embedding
              (_embedding_cache self) oldest Hnd Hlen Hfirst Hne Hin)
    as (d' & -> & Hkeys & Hlen' & Hold & Hnew).
  done.
Qed.
End WithHash.

Lemma do_set_keeps_regulations md5_hexdigest op self :
  _regulation_cache (do_set md5_hexdigest op self).1
  = _regulation_cache self
  ∧ max_size (do_set md5_hexdigest op self).1 = max_size self.
Proof.
  destruct op as [text e|q r]; simpl;
    unfold set_embedding, set_search_result; unfold_monad.
  - destruct (dict_len (_embedding_cache self) >=? max_size self);
      [|done].
    destruct (dict_first_key _); [|done].
    by destruct (dict_delitem _ _).
  - destruct (dict_len (_search_cache self) >=? max_size self); [|done].
    destruct (dict_first_key _); [|done].
    by destruct (dict_delitem _ _).
Qed.

(** X11 ([set_embedding], [set_search_result] and [get_cache_stats],
    cache_manager.py). No setter writes the regulation namespace or the
    bound: after any run of setter calls both are as before, so a manager
    that starts empty always reports a regulation cache of size 0. *)
Theorem setters_never_fill_the_regulation_cache
    (md5_hexdigest : string -> string) (ops : list set_op) (self : t) :
  _regulation_cache (run_sets md5_hexdigest ops self)
  = _regulation_cache self
  ∧ max_size (run_sets md5_hexdigest ops self) = max_size self
  ∧ ∀ bound,
      (get_cache_stats (run_sets md5_hexdigest ops (__init__ bound))).1.2
      = 0
      ∧ (get_cache_stats (run_sets md5_hexdigest ops (__init__ bound))).2
        = bound.
Proof.
  assert (∀ s, _regulation_cache (run_sets md5_hexdigest ops s)
               = _regulation_cache s
               ∧ max_size (run_sets md5_hexdigest ops s) = max_size s)
    as Hkeep.
  { unfold run_sets. induction ops as [|op ops IH]; intros s; [done|].
    cbn [fold_left]. destruct (IH (do_set md5_hexdigest op s).1) as [-> ->].
    apply do_set_keeps_regulations. }
  destruct (Hkeep self) as [Hr Hm]. split; [done|]. split; [done|].
  intros bound. destruct (Hkeep (__init__ bound)) as [Hr' Hm'].
  unfold get_cache_stats. cbn [fst snd]. by rewrite Hr', Hm'.
Qed.

(** *** On sample data *)

Lemma set_then_get_witness :
  let self := mk 2 [("a", [1%Q]); ("b", [2%Q])] [] [] in
  let se := set_embedding id "c" [3%Q] self in
  snd se = Ok tt
  ∧ get_embedding id (fst se) "c" = Some [3%Q]
  ∧ get_embedding id (fst se) "b" = Some [2%Q]
  ∧ get_embedding id (fst se) "a" = None.
Proof.
  intros self se.
  destruct (set_then_get id "c" [3%Q] [] self ltac:(simpl; lia))
    as ((Hok & Hget & Hother & _) & _).
  split; [exact Hok|]. split; [exact (Hget "c" eq_refl)|].
  split; [|reflexivity].
  refine (eq_trans (Hother "b" _ _) _); [discriminate| |reflexivity].
  intros [_ Hfirst]. discriminate.
Defined.

Lemma nonpositive_bound_caches_nothing_witness :
  run_sets id [SetEmbedding "a" [1%Q]; SetSearchResult "q" []] (__init__ 0)
  = __init__ 0
  ∧ outcomes id [SetEmbedding "a" [1%Q]; SetSearchResult "q" []] (__init__ 0)
    = [Raise StopIteration; Raise StopIteration].
Proof.
  destruct (nonpositive_bound_caches_nothing id 0
              [SetEmbedding "a" [1%Q]; SetSearchResult "q" []] ltac:(lia))
    as [Hrun _].
  split; [exact Hrun|reflexivity].
Defined.

Lemma update_in_full_cache_evicts_oldest_witness :
  let self := mk 2 [("a", [1%Q]); ("b", [2%Q])] [] [] in
  let self' := fst (set_embedding id "b" [5%Q] self) in
  dict_len (_embedding_cache self') = 1
  ∧ get_embedding id self' "a" = None
  ∧ get_embedding id self' "b" = Some [5%Q].
Proof.
  intros self self'.
  destruct (update_in_full_cache_evicts_oldest id "b" [5%Q] self "a")
    as (_ & _ & Hlen & Hold & Hnew).
  - apply (bool_decide_unpack _). vm_compute. exact I.
  - reflexivity.
  - reflexivity.
  - discriminate.
  - apply (bool_decide_unpack _). vm_compute. exact I.
  - split; [exact Hlen|]. split; [exact Hold|exact Hnew].
Defined.

End CacheMoreFacts.

(** ** [str.split], [str.join] and the normaliser of the chunker *)

Module PyStrFacts.
Import PyStr.

Lemma string_app_cons a (s t : string) :
  (String a s ++ t)%string = String a (s ++ t)%string.
Proof. reflexivity. Qed.

Lemma string_app_nil_l (s : string) : ("" ++ s)%string = s.
Proof. reflexivity. Qed.

Lemma string_app_nil_r (s : string) : (s ++ "")%string = s.
Proof.
  induction s as [|a s IH]; [done|]. by rewrite string_app_cons, IH.
Qed.

Lemma cons_word_nil w ws : cons_word w ws = [] ↔ w = EmptyString ∧ ws = [].
Proof.
  destruct w; simpl.
  - split; [by intros ->|by intros [_ ->]].
  - split; [done|by intros [? _]].
Qed.

Lemma cons_word_words w ws :
  Forall (fun a => is_space a = false) (list_ascii_of_string w) →
  Forall word ws → Forall word (cons_word w ws).
Proof.
  intros Hw Hws. destruct w as [|a w]; simpl; [done|].
  constructor; [|done]. split; [done|exact Hw].
Qed.

Lemma split_go_spec s :
  Forall (fun a => is_space a = false) (list_ascii_of_string (split_go s).1)
  ∧ Forall word (split_go s).2.
Proof.
  induction s as [|a s [IHw IHws]]; simpl; [by split|].
  destruct (split_go s) as [w ws]; simpl in *.
  destruct (is_space a) eqn:Ha; simpl.
  - split; [constructor|]. by apply cons_word_words.
  - split; [|done]. by constructor.
Qed.

Lemma split_words s : Forall word (split s).
Proof.
  unfold split. pose proof (split_go_spec s) as [Hw Hws].
  destruct (split_go s) as [w ws]. by apply cons_word_words.
Qed.

Lemma split_go_nil s :
  (split_go s).1 = EmptyString ∧ (split_go s).2 = [] ↔ whitespace_only s.
Proof.
  unfold whitespace_only.
  induction s as [|a s IH]; simpl; [by split; [constructor|]|].
  destruct (split_go s) as [w ws]; simpl in *.
  rewrite Forall_cons, <- IH.
  destruct (is_space a) eqn:Ha; simpl.
  - rewrite cons_word_nil. split; [by intros [_ ?]|by intros [_ ?]].
  - split; [by intros [? _]|by intros [? _]].
Qed.

Lemma split_nil s : split s = [] ↔ whitespace_only s.
Proof.
  rewrite <- split_go_nil. unfold split.
  destruct (split_go s) as [w ws]. apply cons_word_nil.
Qed.

Lemma split_go_app_word w s :
  Forall (fun a => is_space a = false) (list_ascii_of_string w) →
  split_go (w ++ s) = ((w ++ (split_go s).1)%string, (split_go s).2).
Proof.
  induction w as [|a w IH]; intros Hw.
  - rewrite !string_app_nil_l. by destruct (split_go s).
  - apply Forall_cons in Hw as [Ha Hw].
    rewrite !string_app_cons. simpl. rewrite (IH Hw), Ha. done.
Qed.

Lemma split_app_word w s :
  word w → split (w ++ " " ++ s) = w :: split s.
Proof.
  intros [Hne Hw]. unfold split.
  rewrite (split_go_app_word _ _ Hw).
  rewrite string_app_cons, string_app_nil_l. simpl.
  destruct (split_go s) as [w' ws]. simpl.
  rewrite string_app_nil_r. by destruct w.
Qed.

Lemma split_word w : word w → split w = [w].
Proof.
  intros [Hne Hw]. unfold split.
  rewrite <- (string_app_nil_r w) at 1.
  rewrite (split_go_app_word _ _ Hw). simpl.
  rewrite string_app_nil_r. by destruct w.
Qed.

Lemma join_cons sep w w' ws :
  join sep (w :: w' :: ws) = (w ++ sep ++ join sep (w' :: ws))%string.
Proof. done. Qed.

(** Joining words with a space and splitting again gives the words
    back. *)
Lemma split_join ws : Forall word ws → split (join " " ws) = ws.
Proof.
  induction ws as [|w ws IH]; [done|].
  intros [Hw Hws]%Forall_cons. destruct ws as [|w' ws].
  - by apply split_word.
  - rewrite join_cons, (split_app_word _ _ Hw). by rewrite (IH Hws).
Qed.

Lemma join_words_nonempty ws :
  Forall word ws → ws ≠ [] → join " " ws ≠ EmptyString.
Proof.
  intros Hws Hne. destruct ws as [|w ws]; [done|].
  apply Forall_cons in Hws as [[Hw _] _].
  destruct w as [|a w]; [done|].
  destruct ws; [done|]. by rewrite join_cons, string_app_cons.
Qed.

Lemma lstrip_join ws : Forall word ws → lstrip (join " " ws) = join " " ws.
Proof.
  intros Hws. destruct ws as [|w ws]; [done|].
  apply Forall_cons in Hws as [[Hne Hw] _].
  destruct w as [|a w]; [done|].
  apply Forall_cons in Hw as [Ha _].
  destruct ws; [|rewrite join_cons, string_app_cons]; simpl; by rewrite Ha.
Qed.

Lemma rstrip_app s1 s2 :
  rstrip s2 = s2 → s2 ≠ EmptyString → rstrip (s1 ++ s2) = (s1 ++ s2)%string.
Proof.
  intros Hs2 Hne. induction s1 as [|a s1 IH]; [done|].
  rewrite string_app_cons. simpl.
  rewrite IH. destruct (s1 ++ s2)%string eqn:E; [|done].
  destruct s1; [by subst|done].
Qed.

Lemma rstrip_word w :
  Forall (fun a => is_space a = false) (list_ascii_of_string w) →
  rstrip w = w.
Proof.
  induction w as [|a w IH]; simpl; [done|].
  intros [Ha Hw]%Forall_cons. rewrite (IH Hw), Ha. by destruct w.
Qed.

Lemma rstrip_join ws : Forall word ws → rstrip (join " " ws) = join " " ws.
Proof.
  induction ws as [|w ws IH]; [done|].
  intros [Hw Hws]%Forall_cons. destruct ws as [|w' ws].
  - apply rstrip_word, Hw.
  - rewrite join_cons. apply rstrip_app.
    + apply (rstrip_app " "); [by apply IH|].
      by apply join_words_nonempty.
    + done.
Qed.

Lemma strip_join ws : Forall word ws → strip (join " " ws) = join " " ws.
Proof.
  intros Hws. unfold strip. by rewrite lstrip_join, rstrip_join.
Qed.

End PyStrFacts.

(** ** The chunker: chunks in order, several files, normalised text *)

Module ChunkerMoreFacts.
Import DocumentProcessor DocumentProcessorOps PyStrFacts.

Lemma preprocess_text_join text :
  preprocess_text text = PyStr.join " " (PyStr.split text).
Proof. unfold preprocess_text. apply strip_join, split_words. Qed.

(** X12 ([preprocess_text], document_processor.py). The normalised text
    is the words of the text, its maximal runs without white space, joined
    by single spaces: the final [strip] changes nothing. It has the same
    words as the text, normalising it again changes nothing, and it is
    empty exactly when the text holds white space only. *)
Theorem preprocess_text_normalises (text : string) :
  preprocess_text text = PyStr.join " " (PyStr.split text)
  ∧ Forall PyStr.word (PyStr.split text)
  ∧ PyStr.split (preprocess_text text) = PyStr.split text
  ∧ preprocess_text (preprocess_text text) = preprocess_text text
  ∧ (preprocess_text text = EmptyString ↔ whitespace_only text).
Proof.
  pose proof (split_words text) as Hws.
  pose proof (preprocess_text_join text) as Hj.
  assert (PyStr.split (preprocess_text text) = PyStr.split text) as Hs
    by (rewrite Hj; by apply split_join).
  repeat split; try done.
  - by rewrite (preprocess_text_join (preprocess_text text)), Hs.
  - intros He. apply split_nil. by rewrite <- Hs, He.
  - intros Hw%split_nil. by rewrite Hj, Hw.
Qed.

Section WithSplitter.
Variable split_text : string -> list string.
Variable extract_text_from_path : string -> option string.
Variable basename : string -> string.

Lemma enumerate_lookup {A} (l : list A) i :
  enumerate l !! i = (fun x => (i, x)) <$> l !! i.
Proof.
  rewrite enumerate_from_0, enumerate_from_lookup.
  by destruct (l !! i).
Qed.

Lemma snd_enumerate_from {A} n (l : list A) : (enumerate_from n l).*2 = l.
Proof.
  revert n. induction l as [|x l IH]; intros n; [done|].
  rewrite enumerate_from_cons. simpl. by rewrite IH.
Qed.

Lemma process_text_contents text source_label caller_metadata :
  page_content <$> process_text split_text text source_label caller_metadata
  = if blank text then [] else split_text text.
Proof.
  unfold process_text. destruct (blank text); [done|].
  rewrite <- list_fmap_compose.
  rewrite <- (snd_enumerate_from 0 (split_text text)) at 2.
  rewrite enumerate_from_0.
  apply list_fmap_ext. by intros _ [idx chunk] _.
Qed.

Lemma process_text_lookup text source_label caller_metadata i d :
  process_text split_text text source_label caller_metadata !! i = Some d →
  ∃ chunk_text,
    split_text text !! i = Some chunk_text
    ∧ d = mkDocument chunk_text
            (update_metadata
               (generated_text_metadata source_label i
                  (length (split_text text)))
               caller_metadata).
Proof.
  unfold process_text. destruct (blank text); [done|].
  rewrite list_lookup_fmap, enumerate_lookup.
  destruct (split_text text !! i) as [c|]; [|done].
  simpl. intros [= <-]. eauto.
Qed.

Lemma process_text_length text source_label caller_metadata :
  blank text = false →
  length (process_text split_text text source_label caller_metadata)
  = length (split_text text).
Proof.
  intros Hb.
  rewrite <- (length_fmap page_content), process_text_contents.
  by rewrite Hb.
Qed.

(** X13 ([process_text], document_processor.py). The documents are the
    chunks of the splitter in the splitter's order, none for a blank text;
    unless the caller's metadata has these keys, the document at position
    [i] carries [chunk_index = i] and as [total_chunks] the number of
    documents returned. *)
Theorem process_text_one_document_per_chunk (text source_label : string)
    (caller_metadata : option (gmap string MetaValue)) :
  let docs := process_text split_text text source_label caller_metadata in
  page_content <$> docs = (if blank text then [] else split_text text)
  ∧ ∀ i d,
      docs !! i = Some d →
      (supplied caller_metadata !! "chunk_index" = None →
       metadata d !! "chunk_index" = Some (VInt (Z.of_nat i)))
      ∧ (supplied caller_metadata !! "total_chunks" = None →
         metadata d !! "total_chunks"
         = Some (VInt (Z.of_nat (length docs)))).
Proof.
  intros docs. split; [apply process_text_contents|].
  intros i d Hd.
  assert (blank text = false) as Hb.
  { subst docs. unfold process_text in Hd. by destruct (blank text). }
  subst docs. rewrite (process_text_length _ _ _ Hb).
  apply process_text_lookup in Hd as (c & Hc & ->). simpl.
  rewrite !ChunkerFacts.lookup_update_metadata.
  split; intros ->; done.
Qed.

Lemma label_at_lookup source_labels idx :
  label_at source_labels idx = default [] source_labels !! idx.
Proof.
  unfold label_at.
  destruct source_labels as [[|l ls]|];
    [symmetry; apply lookup_nil| |symmetry; apply lookup_nil].
  change (default [] (Some (l :: ls))) with (l :: ls).
  destruct (Nat.ltb_spec idx (length (l :: ls))) as [|Hge]; [done|].
  symmetry. by apply lookup_ge_None_2.
Qed.

Lemma process_multiple_files_from all_documents n file_paths source_labels :
  fold_left
    (fun all_documents '(idx, file_path) =>
       all_documents
       ++ process_file split_text extract_text_from_path basename
            file_path (label_at source_labels idx) None)
    (enumerate_from n file_paths) all_documents
  = all_documents
    ++ mjoin (imap (fun idx file_path =>
                      process_file split_text extract_text_from_path
                        basename file_path
                        (default [] source_labels !! (n + idx)%nat) None)
                   file_paths).
Proof.
  revert all_documents n.
  induction file_paths as [|p ps IH]; intros acc n.
  - simpl. by rewrite app_nil_r.
  - rewrite enumerate_from_cons. simpl. rewrite IH.
    rewrite label_at_lookup, Nat.add_0_r, <- app_assoc.
    apply (f_equal (app acc)), (f_equal (app _)), (f_equal mjoin).
    apply imap_ext. intros i x _. simpl.
    by replace (S (n + i))%nat with (n + S i)%nat by lia.
Qed.

(** X14 ([process_multiple_files], document_processor.py). The result is
    the documents of the files, file after file in the order given, the
    file at position [idx] processed under [source_labels[idx]] when the
    label list reaches that far and without a label (so under its base
    name) otherwise; a file that yields nothing is skipped and does not
    shift the labels of the files after it. *)
Theorem process_multiple_files_concatenates (file_paths : list string)
    (source_labels : option (list string)) :
  process_multiple_files split_text extract_text_from_path basename
    file_paths source_labels
  = mjoin (imap (fun idx file_path =>
                   process_file split_text extract_text_from_path basename
                     file_path (default [] source_labels !! idx) None)
                file_paths)
  ∧ ∀ d,
      d ∈ process_multiple_files split_text extract_text_from_path
            basename file_paths source_labels →
      ∃ idx file_path,
        file_paths !! idx = Some file_path
        ∧ metadata d !! "source_file" = Some (VStr file_path)
        ∧ metadata d !! "source"
          = Some (VStr (default (basename file_path)
                          (default [] source_labels !! idx))).
Proof.
  assert (process_multiple_files split_text extract_text_from_path basename
            file_paths source_labels
          = mjoin (imap (fun idx file_path =>
                   process_file split_text extract_text_from_path basename
                     file_path (default [] source_labels !! idx) None)
                file_paths)) as Heq.
  { unfold process_multiple_files. rewrite enumerate_from_0.
    by rewrite (process_multiple_files_from [] 0). }
  split; [exact Heq|].
  intros d. rewrite Heq. intros Hd.
  apply list_elem_of_join in Hd as (docs & Hd & Hdocs).
  apply list_elem_of_lookup in Hdocs as [idx Hidx].
  rewrite list_lookup_imap in Hidx.
  destruct (file_paths !! idx) as [p|] eqn:Hp; [|done].
  simpl in Hidx. injection Hidx as <-.
  apply ChunkerFacts.process_file_elem in Hd
    as (text & i & c & _ & _ & ->).
  exists idx, p. split; [done|]. cbn [metadata].
  rewrite !ChunkerFacts.lookup_update_metadata.
  split; reflexivity.
Qed.
End WithSplitter.

End ChunkerMoreFacts.

(** ** doc_utils.py: file types and extraction *)

Module DocUtilsFacts.
Import DocumentProcessor DocUtils PyStrFacts.

Lemma rstrip_idemp s : rstrip (rstrip s) = rstrip s.
Proof.
  induction s as [|a s IH]; [done|]. simpl.
  destruct (rstrip s) as [|b r] eqn:E.
  - destruct (is_space a) eqn:Ha; [done|]. simpl. by rewrite Ha.
  - change (rstrip (String a (String b r))) with
      (match rstrip (String b r) with
       | EmptyString =>
           if is_space a then EmptyString else String a EmptyString
       | r' => String a r'
       end).
    by rewrite IH.
Qed.

Lemma lstrip_rstrip s : lstrip s = s → lstrip (rstrip s) = rstrip s.
Proof.
  destruct s as [|a s]; [done|]. simpl.
  destruct (is_space a) eqn:Ha.
  - intros Hl. exfalso.
    assert (String.length (lstrip s) <= String.length s)%nat as Hle.
    { clear. induction s as [|b s IH]; simpl; [lia|].
      destruct (is_space b); simpl; lia. }
    rewrite Hl in Hle. simpl in Hle. lia.
  - intros _. destruct (rstrip s); simpl; by rewrite Ha.
Qed.

Lemma lstrip_idemp s : lstrip (lstrip s) = lstrip s.
Proof.
  induction s as [|a s IH]; [done|]. simpl.
  destruct (is_space a) eqn:Ha; [done|]. simpl. by rewrite Ha.
Qed.

(** Stripping twice is stripping once. *)
Lemma strip_idemp s : strip (strip s) = strip s.
Proof.
  unfold strip. rewrite (lstrip_rstrip (lstrip s)) by apply lstrip_idemp.
  apply rstrip_idemp.
Qed.

Section WithFiles.
Variable splitext : string -> string * string.
Variable lower : string -> string.
Variable basename : string -> string.
Variable read_text : string -> option string.
Variable docx_paragraphs : string -> option (list string).
Variable pdf_page_texts : string -> option (list (option string)).
Variable split_text : string -> list string.

Abbreviation is_supported_file_type :=
  (is_supported_file_type splitext lower basename).
Abbreviation extract_text_from_path :=
  (extract_text_from_path splitext lower basename read_text
     docx_paragraphs pdf_page_texts).
Abbreviation extracted :=
  (extracted splitext lower basename read_text docx_paragraphs
     pdf_page_texts).

(** X15 ([is_supported_file_type] and [extract_text_from_path],
    doc_utils.py; [process_file], document_processor.py). The check and
    the extraction agree on the file type. A path the check accepts comes
    with no warning, and its extraction does not depend on
    [show_warning]. A path the check refuses comes with a warning, its
    extraction raises [ValueError] whatever [show_warning] is, and the
    chunker returns no document for it. *)
Theorem file_type_check_agrees_with_extraction (path : string)
    (show_warning : bool) (source_label : option string)
    (caller_metadata : option (gmap string MetaValue)) :
  match is_supported_file_type path with
  | (true, warning) =>
      warning = None
      ∧ extract_text_from_path path show_warning
        = extract_text_from_path path (negb show_warning)
  | (false, warning) =>
      is_Some warning
      ∧ (∃ message,
           extract_text_from_path path show_warning
           = RaisesValueError message)
      ∧ process_file split_text extracted basename path source_label
          caller_metadata = []
  end.
Proof.
  unfold DocUtils.is_supported_file_type, process_file, DocUtils.extracted,
    DocUtils.extract_text_from_path.
  destruct (splitext path) as [root ext].
  destruct (bool_decide (lower ext ∈ SUPPORTED_EXTENSIONS)); simpl.
  - split; [done|]. by destruct show_warning.
  - split; [by eexists|]. split; [|done].
    destruct show_warning; by eexists.
Qed.

(** X16 ([extract_text_from_path], doc_utils.py). The text extracted from
    a .docx or a .pdf file is stripped: stripping it again changes
    nothing, so the chunker's blank test holds for it exactly when it is
    empty. The text of a .txt file is returned as read. *)
Theorem extracted_text_is_stripped (path : string) (show_warning : bool)
    (text : string) :
  extract_text_from_path path show_warning = Returns text →
  let ext := lower (splitext path).2 in
  (ext = ".txt" → read_text path = Some text)
  ∧ (ext = ".docx" ∨ ext = ".pdf" →
     strip text = text ∧ (blank text = true ↔ text = EmptyString)).
Proof.
  unfold DocUtils.extract_text_from_path, read_file.
  destruct (splitext path) as [root ext]. simpl.
  destruct (bool_decide (lower ext ∈ SUPPORTED_EXTENSIONS)); simpl;
    [|by destruct show_warning].
  assert (∀ s, blank (strip s) = true ↔ strip s = EmptyString) as Hblank.
  { intros s. rewrite blank_spec, <- strip_empty. by rewrite strip_idemp. }
  repeat case_bool_decide.
  - intros Hr. split; [|intros [?|?]; congruence].
    intros _. by destruct (read_text path); simplify_eq.
  - destruct (docx_paragraphs path) as [ps|]; [|done].
    intros [= <-]. split; [congruence|].
    intros _. split; [apply strip_idemp|apply Hblank].
  - destruct (pdf_page_texts path) as [ps|]; [|done].
    intros [= <-]. split; [congruence|].
    intros _. split; [apply strip_idemp|apply Hblank].
  - intros _. split; [congruence|]. intros [?|?]; congruence.
Qed.

Lemma omap_no_text (pages : list (option string)) :
  Forall (fun page_text => text_truthy page_text = false) pages →
  omap (fun page_text : option string =>
          if text_truthy page_text then page_text else None) pages = [].
Proof.
  induction 1 as [|t ts Ht _ IH]; [done|].
  simpl. rewrite Ht. exact IH.
Qed.

(** X17 ([extract_text_from_path], doc_utils.py; [process_file],
    document_processor.py). A .pdf file none of whose pages yields text
    (each page gives [None] or the empty string) extracts as the empty
    text, without an exception, and the chunker returns no document for
    it. *)
Theorem pdf_without_text_gives_no_chunks (path : string)
    (show_warning : bool) (pages : list (option string))
    (source_label : option string)
    (caller_metadata : option (gmap string MetaValue)) :
  lower (splitext path).2 = ".pdf" →
  pdf_page_texts path = Some pages →
  Forall (fun page_text => text_truthy page_text = false) pages →
  extract_text_from_path path show_warning = Returns EmptyString
  ∧ process_file split_text extracted basename path source_label
      caller_metadata = [].
Proof.
  intros Hext Hpages Hnone.
  assert (∀ sw, extract_text_from_path path sw = Returns EmptyString) as He.
  { intros sw. unfold DocUtils.extract_text_from_path.
    destruct (splitext path) as [root ext]. simpl in Hext.
    rewrite Hext, Hpages, (omap_no_text _ Hnone). reflexivity. }
  split; [apply He|].
  unfold process_file, DocUtils.extracted. by rewrite He.
Qed.
End WithFiles.

Lemma extracted_text_is_stripped_witness :
  let splitext := fun _ : string => ("contract", ".DOCX") in
  let lower := fun _ : string => ".docx" in
  let paragraphs := fun _ : string => Some [" Clause 1 "; "Clause 2 "] in
  let text :=
    ("Clause 1 " ++ newline ++ "Clause 2")%string in
  extract_text_from_path splitext lower id (fun _ => None) paragraphs
    (fun _ => None) "contract.DOCX" false = Returns text
  ∧ strip text = text.
Proof.
  intros splitext lower paragraphs text.
  assert (extract_text_from_path splitext lower id (fun _ => None) paragraphs
            (fun _ => None) "contract.DOCX" false = Returns text) as He
    by reflexivity.
  split; [exact He|].
  refine (proj1 (proj2 (extracted_text_is_stripped splitext lower id
                          (fun _ => None) paragraphs (fun _ => None)
                          "contract.DOCX" false text He) _)).
  by left.
Defined.

Lemma pdf_without_text_gives_no_chunks_witness :
  let splitext := fun _ : string => ("scan", ".pdf") in
  let pages := fun _ : string => Some [None; Some EmptyString] in
  extract_text_from_path splitext id id (fun _ => None) (fun _ => None)
    pages "scan.pdf" true = Returns EmptyString
  ∧ process_file Samples.one_chunk
      (extracted splitext id id (fun _ => None) (fun _ => None) pages)
      id "scan.pdf" None None = [].
Proof.
  intros splitext pages.
  apply (pdf_without_text_gives_no_chunks splitext id id (fun _ => None)
           (fun _ => None) pages Samples.one_chunk "scan.pdf" true
           [None; Some EmptyString] None None);
    [reflexivity|reflexivity|].
  repeat constructor.
Defined.

End DocUtilsFacts.

(** ** vector_db.py: adding and deleting documents *)

Module VectorStoreFacts.
Import VectorStore.

Section Batches.
Context {A : Type}.
Implicit Types l : list A.

Lemma chunks_take l (b q : nat) :
  mjoin (map (fun J => take b (drop (J * b) l)) (seq 0 q)) = take (q * b) l.
Proof.
  induction q as [|q IH]; [done|].
  rewrite seq_S, map_app, join_app, IH. simpl.
  rewrite app_nil_r, take_take_drop. f_equal. lia.
Qed.

Lemma batch_count_last (n : nat) (batch_size : Z) (J : nat) :
  0 < batch_size →
  (J < Z.to_nat ((Z.of_nat n + batch_size - 1) / batch_size))%nat →
  (J * Z.to_nat batch_size < n)%nat.
Proof.
  intros Hb HJ.
  pose proof (Z.mul_div_le (Z.of_nat n + batch_size - 1) batch_size Hb).
  assert (0 <= (Z.of_nat n + batch_size - 1) / batch_size)
    by (apply Z.div_pos; lia).
  nia.
Qed.

Lemma slices_are_chunks l (batch_size : Z) :
  0 < batch_size →
  map (fun i => slice i (i + batch_size) l)
      (default [] (range 0 (Z.of_nat (length l)) batch_size))
  = map (fun J => take (Z.to_nat batch_size)
                       (drop (J * Z.to_nat batch_size) l))
        (seq 0 (Z.to_nat ((Z.of_nat (length l) + batch_size - 1)
                          / batch_size))).
Proof.
  intros Hb. rewrite range_pos by done. simpl.
  rewrite map_map. apply map_ext. intros J.
  rewrite slice_nonneg by nia. f_equal; [nia|]. f_equal. nia.
Qed.
End Batches.

Section WithStore.
Variable store_add_documents :
  list store_call -> list Document -> option (list string).
Variable store_persist : list store_call -> bool.
Variable store_delete : list store_call -> list string -> bool.
Variable store_get : list store_call -> bool.

Lemma batches_cover documents batch_size :
  0 < batch_size → mjoin (batches documents batch_size) = documents.
Proof.
  intros Hb. unfold batches. rewrite slices_are_chunks by done.
  rewrite chunks_take. apply take_ge.
  by apply EmbeddingFacts.batch_count_covers.
Qed.

Lemma batches_sizes documents batch_size :
  0 < batch_size →
  Forall (fun b => b ≠ [] ∧ Z.of_nat (length b) <= batch_size)
         (batches documents batch_size).
Proof.
  intros Hb. unfold batches. rewrite slices_are_chunks by done.
  apply Forall_forall. intros b Hin.
  apply list_elem_of_fmap in Hin as (J & -> & HJ).
  apply elem_of_seq in HJ as [_ HJ]. simpl in HJ.
  apply batch_count_last in HJ; [|done].
  split.
  - intros Hnil. apply (f_equal length) in Hnil.
    rewrite length_take, length_drop in Hnil. simpl in Hnil. lia.
  - rewrite length_take. lia.
Qed.

Lemma add_batch_run documents batch_size ids i self :
  add_batch store_add_documents documents batch_size ids i self
  = (mk (store_calls self
         ++ [AddDocuments (slice i (i + batch_size) documents)]),
     Ok (ids
         ++ default []
              (store_add_documents (store_calls self)
                 (slice i (i + batch_size) documents)))).
Proof.
  unfold add_batch, call_add_documents, call. unfold_monad.
  destruct (store_add_documents _ _); simpl; [done|].
  by rewrite app_nil_r.
Qed.

Lemma answers_cons calls b bs :
  answers store_add_documents calls (b :: bs)
  = default [] (store_add_documents calls b)
    :: answers store_add_documents (calls ++ [AddDocuments b]) bs.
Proof.
  unfold answers. simpl. rewrite app_nil_r. f_equal.
  apply imap_ext. intros j x _. simpl. by rewrite <- app_assoc.
Qed.

Lemma add_loop_run documents batch_size starts ids self :
  let bs := map (fun i => slice i (i + batch_size) documents) starts in
  for_each (add_batch store_add_documents documents batch_size) ids starts
    self
  = (mk (store_calls self ++ (AddDocuments <$> bs)),
     Ok (ids ++ mjoin (answers store_add_documents (store_calls self) bs))).
Proof.
  revert ids self. induction starts as [|i starts IH]; intros ids self.
  - simpl. unfold ret. rewrite !app_nil_r. by destruct self.
  - cbn [map for_each]. unfold bind at 1.
    rewrite add_batch_run, IH. cbn [store_calls].
    rewrite answers_cons, fmap_cons.
    change (mjoin (?x :: ?xs)) with (x ++ mjoin xs).
    by rewrite <- !app_assoc.
Qed.

Lemma add_documents_run documents batch_size self :
  0 < batch_size → documents ≠ [] →
  add_documents store_add_documents store_persist documents batch_size self
  = (mk ((store_calls self
          ++ (AddDocuments <$> batches documents batch_size))
         ++ [Persist]),
     if store_persist
          (store_calls self
           ++ (AddDocuments <$> batches documents batch_size))
     then Ok (mjoin (answers store_add_documents (store_calls self)
                       (batches documents batch_size)))
     else Raise ProviderError).
Proof.
  intros Hb Hne.
  unfold add_documents. destruct documents as [|d ds]; [done|].
  unfold batches.
  destruct (range 0 (Z.of_nat (length (d :: ds))) batch_size) as [starts|]
    eqn:Hr; [|by rewrite range_pos in Hr].
  unfold bind at 1. rewrite add_loop_run. simpl.
  unfold bind, call_persist, call, done_or_raises, ret. simpl.
  by destruct (store_persist _).
Qed.

(** X18 ([add_documents], vector_db.py). With a positive batch size and
    at least one document, the documents go to the store in batches that
    are never empty nor longer than the batch size and that, put end to
    end, are the documents given: each document is sent once, in order.
    The batches are followed by one [persist]. A batch the store refuses
    is passed over: the ids returned are those of the batches it accepted,
    and only a failing [persist] makes the call raise. *)
Theorem add_documents_sends_each_document_once
    (documents : list Document) (batch_size : Z) (self : t) :
  0 < batch_size → documents ≠ [] →
  let bs := batches documents batch_size in
  let sent := store_calls self ++ (AddDocuments <$> bs) in
  add_documents store_add_documents store_persist documents batch_size self
  = (mk (sent ++ [Persist]),
     if store_persist sent
     then Ok (mjoin (answers store_add_documents (store_calls self) bs))
     else Raise ProviderError)
  ∧ mjoin bs = documents
  ∧ Forall (fun b => b ≠ [] ∧ Z.of_nat (length b) <= batch_size) bs.
Proof.
  intros Hb Hne bs sent.
  split; [by apply add_documents_run|].
  split; [by apply batches_cover|by apply batches_sizes].
Qed.

(** X19 ([add_documents], vector_db.py). Without documents nothing is
    sent and the result is empty. With documents, a zero batch size raises
    [ValueError] before any call on the store, and a negative one sends no
    document at all: the store is only persisted and the result is empty,
    without an error. *)
Theorem add_documents_nonpositive_batch_size
    (documents : list Document) (batch_size : Z) (self : t) :
  batch_size <= 0 →
  add_documents store_add_documents store_persist documents batch_size self
  = match documents with
    | [] => (self, Ok [])
    | _ =>
        if batch_size =? 0 then (self, Raise ValueError)
        else (mk (store_calls self ++ [Persist]),
              if store_persist (store_calls self)
              then Ok [] else Raise ProviderError)
    end.
Proof.
  intros Hb. unfold add_documents. destruct documents as [|d ds]; [done|].
  unfold range. destruct (Z.eqb_spec batch_size 0) as [|Hnz]; [done|].
  destruct (Z.ltb_spec 0 batch_size) as [|_]; [lia|].
  set (q := (0 - Z.of_nat (length (d :: ds)) - batch_size - 1)
            / - batch_size).
  assert (q < 1) as Hq.
  { apply Z.div_lt_upper_bound; [lia|]. simpl length. lia. }
  replace (Z.to_nat q) with 0%nat by lia. simpl.
  unfold bind, call_persist, call, done_or_raises, ret. simpl.
  destruct self as [calls]. simpl.
  by destruct (store_persist calls).
Qed.

(** X20 ([delete_documents], vector_db.py). The call never raises. When
    no ids are given (none, or an empty list) no [delete] reaches the
    store, whatever the filter: with a filter the store is read and
    persisted and the result is [True] although nothing was deleted. *)
Theorem delete_documents_by_filter_deletes_nothing
    (ids : option (list string))
    (filter_dict : option (gmap string MetaValue)) (self : t) :
  let run :=
    delete_documents store_persist store_delete store_get ids filter_dict
      self in
  (∃ outcome : bool, run.2 = Ok outcome)
  ∧ (list_truthy ids = false →
     Forall (fun c => ∀ l, c ≠ Delete l)
            (drop (length (store_calls self)) (store_calls run.1))
     ∧ (dict_truthy filter_dict = true →
        store_get (store_calls self) = true →
        store_persist (store_calls self ++ [Get]) = true →
        run = (mk (store_calls self ++ [Get; Persist]), Ok true))).
Proof.
  intros run. subst run. unfold delete_documents, call_persist, call,
    done_or_raises. unfold_monad.
  destruct (list_truthy ids) eqn:Hids.
  - split; [|done]. simpl.
    destruct (store_delete _ _); simpl; [|by eexists].
    destruct (store_persist _); simpl; by eexists.
  - destruct (dict_truthy filter_dict) eqn:Hf.
    + simpl. destruct (store_get _) eqn:Hg; simpl.
      * destruct (store_persist _) eqn:Hp; simpl.
        -- split; [by eexists|]. intros _. split.
           ++ rewrite <- app_assoc, drop_app_length. simpl.
              repeat constructor; by intros l.
           ++ intros _ _ _. by rewrite <- app_assoc.
        -- split; [by eexists|]. intros _. split; [|done].
           rewrite <- app_assoc, drop_app_length.
           repeat constructor; by intros l.
      * split; [by eexists|]. intros _. split; [|done].
        rewrite drop_app_length. repeat constructor; by intros l.
    + simpl. destruct (store_persist _); simpl.
      * split; [by eexists|]. intros _. split; [|done].
        rewrite drop_app_length. repeat constructor; by intros l.
      * split; [by eexists|]. intros _. split; [|done].
        rewrite drop_app_length. repeat constructor; by intros l.
Qed.

(** X21 ([search], vector_db.py). The search never raises. A blank query
    gives no document without a call on the store. Any other query makes
    exactly one similarity search, an empty filter being sent as no
    filter at all, and gives what the store answers, or no document when
    the store raises. *)
Theorem search_fails_soft
    (similarity_search :
       list store_call -> string -> Z -> option (gmap string MetaValue) ->
       option (list Document))
    (query : string) (k : Z)
    (filter_dict : option (gmap string MetaValue)) (self : t) :
  let sent := if dict_truthy filter_dict then filter_dict else None in
  search similarity_search query k filter_dict self
  = if blank query then (self, Ok [])
    else (mk (store_calls self ++ [SimilaritySearch query k sent]),
          Ok (default []
                (similarity_search (store_calls self) query k sent))).
Proof.
  intros sent. subst sent. unfold search.
  destruct (blank query); [done|].
  unfold try_except, call_similarity_search, call, ret.
  destruct (dict_truthy filter_dict);
    by destruct (similarity_search _ _ _ _).
Qed.
End WithStore.

Lemma add_documents_sends_each_document_once_witness :
  let a := MoreSamples.chunk "a" in
  let b := MoreSamples.chunk "b" in
  let c := MoreSamples.chunk "c" in
  add_documents MoreSamples.naming_store MoreSamples.always [a; b; c] 2
    (mk [])
  = (mk [AddDocuments [a; b]; AddDocuments [c]; Persist],
     Ok ["a"; "b"; "c"]).
Proof.
  intros a b c.
  refine (proj1 (add_documents_sends_each_document_once
                   MoreSamples.naming_store MoreSamples.always [a; b; c] 2
                   (mk []) _ _)); [reflexivity|discriminate].
Defined.

Lemma add_documents_nonpositive_batch_size_witness :
  add_documents MoreSamples.naming_store MoreSamples.always
    [MoreSamples.chunk "a"] (-1) (mk [])
  = (mk [Persist], Ok []).
Proof.
  refine (add_documents_nonpositive_batch_size MoreSamples.naming_store
            MoreSamples.always [MoreSamples.chunk "a"] (-1) (mk []) _).
  discriminate.
Defined.

Lemma delete_documents_by_filter_deletes_nothing_witness :
  delete_documents MoreSamples.always (fun _ _ => true) MoreSamples.always
    (Some []) (Some {[ "source" := VStr "Act-A" ]}) (mk [])
  = (mk [Get; Persist], Ok true).
Proof.
  refine (proj2 (proj2 (delete_documents_by_filter_deletes_nothing
                          MoreSamples.always (fun _ _ => true)
                          MoreSamples.always (Some [])
                          (Some {[ "source" := VStr "Act-A" ]}) (mk []))
                   _) _ _ _); reflexivity.
Defined.

End VectorStoreFacts.

(** ** database_manager.py: indexing *)

Module DatabaseManagerFacts.
Import DocumentProcessor VectorStore DatabaseManager VectorStoreFacts.

Section WithFiles.
Variable splitext : string -> string * string.
Variable lower : string -> string.
Variable basename : string -> string.
Variable read_text : string -> option string.
Variable docx_paragraphs : string -> option (list string).
Variable pdf_page_texts : string -> option (list (option string)).
Variable split_text : string -> list string.
Variable isdir : string -> bool.
Variable listdir : string -> list string.
Variable path_join : string -> string -> string.
Variable isfile : string -> bool.
Variable store_add_documents :
  list store_call -> list Document -> option (list string).
Variable store_persist : list store_call -> bool.
Variable recreate : list store_call -> bool.
Variable str_of_exn : exn -> string.

Abbreviation is_valid := (is_valid splitext lower basename).
Abbreviation process_file :=
  (process_file splitext lower basename read_text docx_paragraphs
     pdf_page_texts split_text).
Abbreviation indexable :=
  (indexable splitext lower basename read_text docx_paragraphs
     pdf_page_texts split_text).
Abbreviation index_file :=
  (index_file splitext lower basename read_text docx_paragraphs
     pdf_page_texts split_text).
Abbreviation _get_reference_files :=
  (_get_reference_files splitext lower basename isdir listdir path_join
     isfile).
Abbreviation index_reference_documents :=
  (index_reference_documents splitext lower basename read_text
     docx_paragraphs pdf_page_texts split_text isdir listdir path_join
     isfile store_add_documents store_persist recreate str_of_exn).
Abbreviation index_text :=
  (index_text split_text store_add_documents store_persist).

(** *** The files of the reference directory *)

Lemma get_reference_files_fold reference_dir names files :
  fold_left
    (fun files name =>
       let full_path := path_join reference_dir name in
       if isfile full_path then
         if is_valid full_path then files ++ [full_path] else files
       else files)
    names files
  = files
    ++ filter (fun p => isfile p && is_valid p)
              (path_join reference_dir <$> names).
Proof.
  revert files. induction names as [|name names IH]; intros files.
  - simpl. by rewrite app_nil_r.
  - cbn [fold_left]. rewrite IH, fmap_cons, filter_cons.
    destruct (isfile (path_join reference_dir name)); simpl; [|done].
    destruct (is_valid (path_join reference_dir name)); simpl; [|done].
    by rewrite <- app_assoc.
Qed.

(** X22 ([_get_reference_files], database_manager.py). The reference
    files are the entries of the directory, in the order listed and under
    their joined paths, that are files of a supported type; there are none
    when the directory does not exist. Every one of them passes the type
    check of the indexing loop. *)
Theorem get_reference_files_are_supported_files (reference_dir : string) :
  _get_reference_files reference_dir
  = (if isdir reference_dir
     then filter (fun p => isfile p && is_valid p)
                 (path_join reference_dir <$> listdir reference_dir)
     else [])
  ∧ Forall (fun p => is_valid p = true ∧ isfile p = true)
           (_get_reference_files reference_dir).
Proof.
  assert (_get_reference_files reference_dir
          = if isdir reference_dir
            then filter (fun p => isfile p && is_valid p)
                        (path_join reference_dir <$> listdir reference_dir)
            else []) as Heq.
  { unfold DatabaseManager._get_reference_files.
    destruct (isdir reference_dir); simpl; [|done].
    by rewrite get_reference_files_fold. }
  split; [exact Heq|]. rewrite Heq.
  destruct (isdir reference_dir); [|constructor].
  apply Forall_forall. intros p [Hp _]%list_elem_of_filter.
  apply andb_prop_elim in Hp as [Hf Hv].
  split; by apply Is_true_true.
Qed.

(** *** The indexing loop *)

(** The chunks a file contributes to the index. *)
Lemma index_file_step res all_documents file_path :
  index_file (res, all_documents) file_path
  = if indexable file_path
    then (mkResults (indexed res + 1) (failed res) (errors res),
          all_documents
          ++ process_file file_path (Some (basename file_path)))
    else (mkResults (indexed res) (failed res + 1)
            (errors res
             ++ [if is_valid file_path
                 then ("No content extracted: " ++ file_path)%string
                 else ("Unsupported file type: " ++ file_path)%string]),
          all_documents).
Proof.
  unfold DatabaseManager.index_file, DatabaseManager.indexable.
  destruct (is_valid file_path); simpl; [|done].
  by destruct (process_file file_path (Some (basename file_path))).
Qed.

Lemma index_loop_spec files res all_documents :
  let out := fold_left index_file files (res, all_documents) in
  let n := Z.of_nat (length (filter (fun p => indexable p) files)) in
  indexed out.1 = indexed res + n
  ∧ failed out.1 = failed res + (Z.of_nat (length files) - n)
  ∧ Z.of_nat (length (errors out.1))
    = Z.of_nat (length (errors res)) + (Z.of_nat (length files) - n)
  ∧ out.2
    = all_documents
      ++ mjoin ((fun p => process_file p (Some (basename p)))
                <$> filter (fun p => indexable p) files).
Proof.
  revert res all_documents.
  induction files as [|p files IH]; intros res docs.
  - simpl. rewrite app_nil_r. repeat split; lia.
  - cbn [fold_left]. rewrite index_file_step, filter_cons.
    destruct (indexable p); simpl.
    + destruct (IH (mkResults (indexed res + 1) (failed res) (errors res))
                  (docs ++ process_file p (Some (basename p))))
        as (Hi & Hf & He & Hd).
      rewrite Hi, Hf, He, Hd. simpl. rewrite <- app_assoc.
      repeat split; lia.
    + destruct (IH (mkResults (indexed res) (failed res + 1)
                      (errors res
                       ++ [if is_valid p
                           then ("No content extracted: " ++ p)%string
                           else ("Unsupported file type: " ++ p)%string]))
                  docs)
        as (Hi & Hf & He & Hd).
      rewrite Hi, Hf, He, Hd. simpl. rewrite length_app. simpl.
      repeat split; lia.
Qed.

Lemma add_documents_default_total documents self :
  ∃ self' r,
    add_documents store_add_documents store_persist documents 100 self
    = (self', r)
    ∧ (r = Raise ProviderError ∨ ∃ ids, r = Ok ids).
Proof.
  destruct documents as [|d ds].
  - exists self, (Ok []). split; [done|]. right. by eexists.
  - rewrite (add_documents_run store_add_documents store_persist
               (d :: ds) 100 self) by done.
    do 2 eexists. split; [done|].
    destruct (store_persist _); [right; by eexists|by left].
Qed.

(** The whole call in closed form, over the outcome of the loop. *)
Lemma index_reference_documents_run (reference_dir : string)
    (force_reindex : bool) (file_paths : option (list string))
    (self : VectorStore.t) :
  let files :=
    if list_truthy file_paths then default [] file_paths
    else _get_reference_files reference_dir in
  let out := fold_left index_file files (mkResults 0 0 [], []) in
  let calls :=
    store_calls self ++ (if force_reindex then [Recreate] else []) in
  index_reference_documents reference_dir force_reindex file_paths self
  = match out.2 with
    | [] => (mk calls, Ok out.1)
    | _ =>
        let sent := calls ++ (AddDocuments <$> batches out.2 100) in
        (mk (sent ++ [Persist]),
         Ok (if store_persist sent then out.1
             else mkResults (indexed out.1) (failed out.1)
                    (errors out.1
                     ++ [("Failed to add documents to database: "
                          ++ str_of_exn ProviderError)%string])))
    end.
Proof.
  intros files out calls.
  unfold DatabaseManager.index_reference_documents. unfold bind at 1.
  assert ((if force_reindex then clear_collection recreate else ret false)
            self
          = (mk calls, Ok (if force_reindex
                           then recreate (store_calls self) else false)))
    as ->.
  { subst calls. destruct force_reindex; [done|].
    unfold ret. rewrite app_nil_r. by destruct self. }
  fold files. subst out. clearbody files calls.
  destruct files as [|f fs]; [done|].
  destruct (fold_left index_file (f :: fs) (mkResults 0 0 [], []))
    as [res docs].
  cbn [fst snd]. destruct docs as [|d ds]; [done|].
  unfold try_except, bind.
  rewrite (add_documents_run store_add_documents store_persist
             (d :: ds) 100) by done.
  cbn [store_calls]. by destruct (store_persist _).
Qed.


(** X24 ([index_reference_documents], database_manager.py). What reaches
    the store: with [force_reindex] the store is re-created first; then
    the chunks of all indexable files, file after file, are added in
    batches of at most 100 and the store is persisted once. When no file
    yields a chunk the store receives nothing after the re-creation. *)
Theorem index_reference_documents_store_traffic (reference_dir : string)
    (force_reindex : bool) (file_paths : option (list string))
    (self : VectorStore.t) :
  let files :=
    if list_truthy file_paths then default [] file_paths
    else _get_reference_files reference_dir in
  let all_documents :=
    mjoin ((fun p => process_file p (Some (basename p)))
           <$> filter (fun p => indexable p) files) in
  store_calls
    (index_reference_documents reference_dir force_reindex file_paths
       self).1
  = store_calls self
    ++ (if force_reindex then [Recreate] else [])
    ++ match all_documents with
       | [] => []
       | _ => (AddDocuments <$> batches all_documents 100) ++ [Persist]
       end
  ∧ mjoin (batches all_documents 100) = all_documents.
Proof.
  intros files all_documents.
  split; [|by apply batches_cover].
  rewrite index_reference_documents_run. fold files.
  pose proof (index_loop_spec files (mkResults 0 0 []) [])
    as (_ & _ & _ & Hd).
  destruct (fold_left index_file files (mkResults 0 0 [], []))
    as [res docs]. cbn [fst snd] in *. simpl in Hd.
  fold all_documents in Hd. subst docs. clearbody all_documents.
  destruct all_documents as [|d ds].
  - cbn [fst store_calls]. by rewrite app_nil_r.
  - cbn zeta. cbn [fst store_calls]. by rewrite <- !app_assoc.
Qed.

(** X25 ([index_text], database_manager.py). The call never raises. A
    text without chunks, a blank one in particular, gives [False] and
    leaves the store alone. Otherwise the chunks are added in batches and
    the store persisted; the result is [True] exactly when [persist]
    returned, whether or not the store accepted any batch. *)
Theorem index_text_result_ignores_refused_batches
    (text source_label : string)
    (text_metadata : option (gmap string MetaValue))
    (self : VectorStore.t) :
  let documents :=
    process_text split_text text source_label text_metadata in
  index_text text source_label text_metadata self
  = match documents with
    | [] => (self, Ok false)
    | _ =>
        let sent :=
          store_calls self ++ (AddDocuments <$> batches documents 100) in
        (mk (sent ++ [Persist]), Ok (store_persist sent))
    end
  ∧ (blank text = true → documents = []).
Proof.
  intros documents. split.
  - unfold DatabaseManager.index_text. fold documents.
    destruct documents as [|d ds]; [done|].
    unfold try_except, bind.
    rewrite (add_documents_run store_add_documents store_persist
               (d :: ds) 100) by done.
    by destruct (store_persist _).
  - intros Hb. subst documents. unfold process_text. by rewrite Hb.
Qed.
End WithFiles.

End DatabaseManagerFacts.

(** ** retrieval.py: requests, bounds and the query *)

Module RetrievalMoreFacts.
Import VectorDatabase RetrievalSystem SearchFacts.

Lemma substring_all (n : nat) (s : string) :
  (String.length s ≤ n)%nat → substring 0 n s = s.
Proof.
  revert n. induction s as [|a s IH]; intros n Hn.
  - by destruct n.
  - destruct n as [|n]; simpl in *; [lia|]. rewrite IH; [done|lia].
Qed.

Lemma substring_length (n : nat) (s : string) :
  String.length (substring 0 n s) = Nat.min n (String.length s).
Proof.
  revert n. induction s as [|a s IH]; intros n.
  - by destruct n.
  - destruct n as [|n]; simpl; [done|]. by rewrite IH.
Qed.

Lemma query_of_substring user_document :
  query_of user_document = substring 0 500 user_document.
Proof.
  unfold query_of.
  destruct (Nat.ltb_spec 500 (String.length user_document)); [done|].
  by rewrite substring_all.
Qed.

Section WithStore.
Variable similarity_search_with_score :
  list request -> string -> Z -> option (gmap string MetaValue) ->
  option (list (DocObj * float)).
Variable findall_words : string -> list string.
Variable lower : string -> string.
Local Abbreviation semantic_search :=
  (semantic_search similarity_search_with_score).
Local Abbreviation hybrid_search :=
  (hybrid_search similarity_search_with_score findall_words lower).
Local Abbreviation search_for :=
  (search_for similarity_search_with_score findall_words lower).
Local Abbreviation retrieve_relevant_regulations :=
  (retrieve_relevant_regulations similarity_search_with_score
     findall_words lower).

Lemma semantic_search_blank query k min_score filter_dict self :
  blank query = true →
  semantic_search query k min_score filter_dict self = (self, Ok []).
Proof.
  intros Hb. unfold RetrievalSystem.semantic_search. by rewrite Hb.
Qed.

Lemma merge_results_nil semantic_weight keyword_weight :
  _merge_results [] [] semantic_weight keyword_weight = [].
Proof. reflexivity. Qed.

Lemma slice_to_nil {A} (k : Z) : slice_to k (@nil A) = [].
Proof. unfold slice_to, slice. by rewrite drop_nil, take_nil. Qed.

Lemma hybrid_search_blank query k semantic_weight keyword_weight
    filter_dict self :
  blank query = true →
  hybrid_search query k semantic_weight keyword_weight filter_dict self
  = (self, Ok []).
Proof.
  intros Hb. unfold RetrievalSystem.hybrid_search, bind.
  rewrite semantic_search_blank by done.
  rewrite keyword_search_unfold, semantic_search_blank by done.
  unfold ret. by rewrite merge_results_nil, slice_to_nil.
Qed.

Lemma hybrid_search_nonblank query k semantic_weight keyword_weight
    filter_dict self :
  blank query = false →
  ∃ fused,
    hybrid_search query k semantic_weight keyword_weight filter_dict self
    = (mk (requests self
           ++ [mkRequest query (k * 2 * 2) filter_dict;
               mkRequest query (10 * 2) filter_dict]),
       Ok fused)
    ∧ (0 <= k → Z.of_nat (length fused) <= k).
Proof.
  intros Hb. unfold RetrievalSystem.hybrid_search, bind.
  destruct (semantic_search_nonblank similarity_search_with_score
              query (k * 2) 0%Q filter_dict self Hb) as (c1 & _ & ->).
  rewrite keyword_search_unfold.
  destruct (semantic_search_nonblank similarity_search_with_score
              query 10 0%Q filter_dict
              (mk (requests self
                   ++ [mkRequest query (k * 2 * 2) filter_dict])) Hb)
    as (c2 & _ & ->).
  cbn [requests]. rewrite <- app_assoc. eexists. split; [done|].
  apply slice_to_length.
Qed.

(** X26 ([hybrid_search], retrieval.py). For a query that is not blank
    the hybrid search asks the vector database twice, first for [4k]
    candidates (the semantic search, itself asked for [2k] results) and
    then for 20 (the keyword search), both with the query and the filter
    as given. For a blank query it asks nothing and returns no
    document. *)
Theorem hybrid_search_sends_two_requests (query : string) (k : Z)
    (semantic_weight keyword_weight : binary64)
    (filter_dict : option (gmap string MetaValue))
    (self : VectorDatabase.t) :
  let run :=
    hybrid_search query k semantic_weight keyword_weight filter_dict self in
  if blank query then run = (self, Ok [])
  else requests run.1
       = requests self
         ++ [mkRequest query (k * 2 * 2) filter_dict;
             mkRequest query 20 filter_dict].
Proof.
  intros run. subst run. destruct (blank query) eqn:Hb.
  - by apply hybrid_search_blank.
  - destruct (hybrid_search_nonblank query k semantic_weight keyword_weight
                filter_dict self Hb) as (fused & -> & _).
    done.
Qed.

Lemma search_for_spec query k use_hybrid self :
  ∃ self' results new,
    search_for query k use_hybrid self = (self', Ok results)
    ∧ requests self' = requests self ++ new
    ∧ Forall (fun r => req_query r = query ∧ req_filter r = None) new
    ∧ (0 <= k → Z.of_nat (length results) <= k)
    ∧ (blank query = true → self' = self ∧ results = []).
Proof.
  unfold RetrievalSystem.search_for.
  destruct (blank query) eqn:Hb.
  - exists self, [], [].
    split.
    { destruct use_hybrid;
        [by apply hybrid_search_blank|by apply semantic_search_blank]. }
    rewrite app_nil_r. repeat split; [constructor|simpl; lia].
  - destruct use_hybrid.
    + destruct (hybrid_search_nonblank query k default_semantic_weight
                  default_keyword_weight None
                  self Hb) as (fused & -> & Hlen).
      do 3 eexists. split; [done|]. split; [done|].
      split; [by repeat constructor|]. split; [done|]. done.
    + destruct (semantic_search_nonblank similarity_search_with_score
                  query k 0%Q None self Hb) as (c & _ & ->).
      do 3 eexists. split; [done|]. split; [done|].
      split; [by repeat constructor|]. split; [apply slice_to_length|].
      done.
Qed.

(** X27 ([retrieve_relevant_regulations], retrieval.py). For [k >= 0]
    at most [k] regulations are returned. Every request sent to the
    vector database carries as its query the first 500 characters of the
    document, the whole document when it is shorter, and no filter. When
    these first 500 characters are blank, nothing is asked and nothing
    returned, although the document itself may not be blank. *)
Theorem retrieve_asks_with_first_500_characters (user_document : string)
    (k : Z) (use_hybrid : bool) (self : VectorDatabase.t) :
  let run := retrieve_relevant_regulations user_document k use_hybrid self in
  let query := substring 0 500 user_document in
  (∃ regulations new,
     run.2 = Ok regulations
     ∧ (0 <= k → Z.of_nat (length regulations) <= k)
     ∧ requests run.1 = requests self ++ new
     ∧ Forall (fun r => req_query r = query ∧ req_filter r = None) new)
  ∧ (String.length user_document ≤ 500 → query = user_document)%nat
  ∧ (blank query = true → run = (self, Ok [])).
Proof.
  intros run query. subst run query.
  rewrite <- query_of_substring.
  split; [|split].
  - unfold RetrievalSystem.retrieve_relevant_regulations.
    destruct (blank user_document).
    { exists [], []. simpl. rewrite app_nil_r.
      repeat split; [lia|constructor]. }
    fold (query_of user_document).
    fold (search_for (query_of user_document) k use_hybrid).
    destruct (search_for_spec (query_of user_document) k use_hybrid self)
      as (self' & results & new & Hrun & Hreq & Hnew & Hlen & _).
    unfold bind. rewrite Hrun. unfold ret. cbn [fst snd].
    eexists _, new. split; [done|]. split; [|done].
    intros Hk. rewrite (dedup_loop_spec results [] ∅). simpl.
    pose proof (sublist_length _ _ (keep_first_sublist ∅ results)) as Hsub.
    rewrite length_fmap in Hsub. specialize (Hlen Hk). lia.
  - intros Hle. rewrite query_of_substring. by apply substring_all.
  - intros Hb.
    unfold RetrievalSystem.retrieve_relevant_regulations.
    destruct (blank user_document); [done|].
    fold (query_of user_document).
    fold (search_for (query_of user_document) k use_hybrid).
    destruct (search_for_spec (query_of user_document) k use_hybrid self)
      as (self' & results & new & Hrun & _ & _ & _ & Hblank).
    destruct (Hblank Hb) as [-> ->].
    unfold bind. by rewrite Hrun.
Qed.
End WithStore.

Lemma retrieve_asks_with_first_500_characters_witness :
  blank MoreSamples.padded_document = false
  ∧ retrieve_relevant_regulations Samples.sample_store Samples.no_words id
      MoreSamples.padded_document 5 true (mk [])
    = (mk [], Ok []).
Proof.
  split; [by vm_compute|].
  refine (proj2 (proj2 (retrieve_asks_with_first_500_characters
                          Samples.sample_store Samples.no_words id
                          MoreSamples.padded_document 5 true (mk [])))
            _).
  by vm_compute.
Defined.

End RetrievalMoreFacts.
